(** * youtube-sentiment-analysis: a shallow embedding of the comment pipeline

    The first half of the file is the program, module by module:
    - [PyStr]      Python [str] values and the string methods the code calls;
    - [Effects]    exceptions, the trace of calls to external services, and
                   the small monad that threads both;
    - [Regex]      the fragment of [re] used by the fixed patterns;
    - [LanguageProcessor], [SentimentAnalyzer], [Toxicity], [YoutubeApi],
      [Main], [App], [Dashboard]: the functions of the Python modules, under
      their own names;
    - [Charts], [Chatbot], [MainChat], [WebDashboard], [AppApi]: the charts,
      the Gemini chatbot, the interactive session, the callbacks of the web
      dashboard and the two API endpoints.

    The second half states and proves what the functions do:
    [PyStrFacts], [RegexFacts] and [FloatOrder] for the runtime, then one
    module of properties per Python module.

    Modelling choices that matter when reading the statements:
    - text is a list of code points; the character classes and the case
      mapping are fixed for ASCII and left to a table ([UnicodeData]) above;
    - langdetect, the translator and TextBlob are functions of their input
      that return or raise ([Services]); every call is recorded in a trace;
    - the comment service is a conversation ([upstream]): answers may depend
      on the request, and a conversation is finite;
    - polarity is a binary64 value, compared as Python compares floats;
    - the Gemini package and the database are functions that return or
      raise, like the services; the globals of the web dashboard and the rows
      of the database are passed in and handed back. *)

From Stdlib Require Import String Ascii.
From Stdlib Require Import List ZArith NArith Bool Lia.
From Stdlib Require Import Permutation Sorted Floats.
Import ListNotations.

(* ================================================================== *)
(** * Python strings *)
(* ================================================================== *)

Module PyStr.

(** A Python [str] is a sequence of Unicode code points. *)
Definition codepoint := N.
Definition pystr := list codepoint.

Local Open Scope N_scope.

(** Literals of the source are written [py "..."]. *)
Definition py (s : string) : pystr := map N_of_ascii (list_ascii_of_string s).

Fixpoint str_eqb (a b : pystr) : bool :=
  match a, b with
  | [], [] => true
  | x :: a', y :: b' => N.eqb x y && str_eqb a' b'
  | _, _ => false
  end.

(** The interpreter's Unicode database.  Below U+0080 the character classes
    and the case mapping are fixed by the definitions that follow; above, they
    are whatever the running interpreter's tables say.  [uni_lower] receives
    the code points to the left (nearest first), the code point itself and the
    code points to the right, because [str.lower] is context sensitive
    (final sigma) and may produce several code points. *)
Record UnicodeData : Type := {
  uni_isspace : codepoint -> bool;
  uni_isalnum : codepoint -> bool;
  uni_lower   : pystr -> codepoint -> pystr -> pystr
}.

Definition is_ascii (c : codepoint) : bool := c <? 128.

Definition in_range (lo hi c : codepoint) : bool := (lo <=? c) && (c <=? hi).

(** [str.isspace] on one ASCII character: TAB..CR, FS..US and SPACE. *)
Definition ascii_isspace (c : codepoint) : bool :=
  in_range 9 13 c || in_range 28 32 c.

Definition ascii_isdigit (c : codepoint) : bool := in_range 48 57 c.
Definition ascii_isupper (c : codepoint) : bool := in_range 65 90 c.
Definition ascii_islower (c : codepoint) : bool := in_range 97 122 c.

Definition ascii_isalnum (c : codepoint) : bool :=
  ascii_isdigit c || ascii_isupper c || ascii_islower c.

Definition ascii_lower (c : codepoint) : codepoint :=
  if ascii_isupper c then c + 32 else c.

Section WithUnicode.
Variable udb : UnicodeData.

(** [ch.isspace()] *)
Definition isspace (c : codepoint) : bool :=
  if is_ascii c then ascii_isspace c else uni_isspace udb c.

(** [ch.isalnum()] *)
Definition isalnum (c : codepoint) : bool :=
  if is_ascii c then ascii_isalnum c else uni_isalnum udb c.

Fixpoint dropwhile (p : codepoint -> bool) (s : pystr) : pystr :=
  match s with
  | [] => []
  | c :: rest => if p c then dropwhile p rest else s
  end.

(** [text.strip()]: leading and trailing whitespace removed. *)
Definition strip (s : pystr) : pystr :=
  rev (dropwhile isspace (rev (dropwhile isspace s))).

(** [not text] for a string. *)
Definition is_empty (s : pystr) : bool :=
  match s with [] => true | _ => false end.

Definition lower_char (before : pystr) (c : codepoint) (after : pystr) : pystr :=
  if is_ascii c then [ascii_lower c] else uni_lower udb before c after.

Fixpoint lower_from (before : pystr) (s : pystr) : pystr :=
  match s with
  | [] => []
  | c :: after => lower_char before c after ++ lower_from (c :: before) after
  end.

(** [text.lower()] *)
Definition lower (s : pystr) : pystr := lower_from [] s.

End WithUnicode.

Fixpoint starts_with (prefix s : pystr) : bool :=
  match prefix, s with
  | [], _ => true
  | p :: prefix', c :: s' => N.eqb p c && starts_with prefix' s'
  | _ :: _, [] => false
  end.

(** [needle in haystack] *)
Fixpoint contains (needle haystack : pystr) : bool :=
  starts_with needle haystack ||
  match haystack with
  | [] => false
  | _ :: rest => contains needle rest
  end.

(** [s[:n]] for an integer [n]: a negative [n] counts from the end. *)
Definition slice_to {A : Type} (n : Z) (l : list A) : list A :=
  if (n <? 0)%Z
  then firstn (length l - Z.to_nat (- n))%nat l
  else firstn (Z.to_nat n) l.

(** A table that knows nothing beyond ASCII: used to run the definitions on
    concrete ASCII inputs. *)
Definition ascii_only : UnicodeData :=
  {| uni_isspace := fun _ => false;
     uni_isalnum := fun _ => false;
     uni_lower := fun _ c _ => [c] |}.

End PyStr.
Export PyStr.

(* ================================================================== *)
(** * Exceptions, external calls and their trace *)
(* ================================================================== *)

Module Effects.

(** Every exception the code meets derives from [Exception]; [str(e)] is the
    message carried here. *)
Inductive exn : Type :=
| ValueError (msg : pystr)
| PyException (msg : pystr)
| LibraryError (msg : pystr).

Definition exn_str (e : exn) : pystr :=
  match e with
  | ValueError m | PyException m | LibraryError m => m
  end.

Inductive outcome (A : Type) : Type :=
| Returns (a : A)
| Raises (e : exn).
Arguments Returns {A} a.
Arguments Raises {A} e.

(** One request of [commentThreads().list(...)]; the constant arguments
    [part='snippet'] and [order='relevance'] are left out. *)
Record api_request : Type := {
  req_videoId : pystr;
  req_maxResults : Z;
  req_pageToken : option pystr
}.

(** Calls that leave the process. *)
Inductive event : Type :=
| EvDetect (text : pystr)
| EvTranslate (text : pystr)
| EvSentiment (text : pystr)
| EvBuild (developerKey : pystr)
| EvExecute (req : api_request).

(** A computation yields the trace of its external calls and either a value
    or a raised exception. *)
Definition M (A : Type) : Type := (list event * outcome A)%type.

Definition ret {A} (a : A) : M A := ([], Returns a).
Definition raise {A} (e : exn) : M A := ([], Raises e).

Definition bind {A B} (m : M A) (f : A -> M B) : M B :=
  match m with
  | (t, Returns a) => let (t', r) := f a in (t ++ t', r)
  | (t, Raises e) => (t, Raises e)
  end.

(** [try: m  except Exception as e: h e] *)
Definition try_except {A} (m : M A) (h : exn -> M A) : M A :=
  match m with
  | (t, Raises e) => let (t', r) := h e in (t ++ t', r)
  | _ => m
  end.

Definition call {A} (ev : event) (r : outcome A) : M A := ([ev], r).

Definition trace {A} (m : M A) : list event := fst m.
Definition result {A} (m : M A) : outcome A := snd m.

(** Runs the plumbing of a computation whose branches are known. *)
Ltac run :=
  cbv beta iota zeta delta [try_except ret raise call result trace fst snd].

Declare Scope py_scope.
Notation "x <- m ;; k" := (bind m (fun x => k))
  (at level 61, m at next level, right associativity) : py_scope.

End Effects.
Export Effects.
Open Scope py_scope.

(* ================================================================== *)
(** * language_processor.py *)
(* ================================================================== *)

(** The third-party services the pipeline calls.  Each is a function of its
    argument that either returns or raises. *)
Record Services : Type := {
  (** [langdetect.detect(text)] *)
  langdetect_detect : pystr -> outcome pystr;
  (** [GoogleTranslator(source='auto', target='en').translate(text)]:
      a string or [None] *)
  google_translate : pystr -> outcome (option pystr);
  (** [TextBlob(text).sentiment]: [Some p] when the object has a [polarity]
      attribute, of value [p] *)
  textblob_sentiment : pystr -> outcome (option float)
}.

Module LanguageProcessor.
Section WithServices.
Variable udb : UnicodeData.
Variable svc : Services.

Definition detect (text : pystr) : M pystr :=
  call (EvDetect text) (langdetect_detect svc text).

Definition translate (text : pystr) : M (option pystr) :=
  call (EvTranslate text) (google_translate svc text).

Definition detect_language (text : pystr) : M pystr :=
  try_except
    (if is_empty text || is_empty (strip udb text) then ret (py "unknown")
     else if forallb (fun ch => negb (isalnum udb ch)) text then ret (py "unknown")
     else detect text)
    (fun _ => ret (py "unknown")).

Definition translate_to_english (text : pystr) (src_lang : option pystr) : M pystr :=
  try_except
    (if is_empty text || is_empty (strip udb text) then ret text
     else
       src_lang <- match src_lang with
                   | None => detect_language text
                   | Some l => ret l
                   end ;;
       if existsb (str_eqb src_lang) [py "en"; py "unknown"] then ret text
       else
         translated <- translate text ;;
         match translated with
         | None => ret text
         | Some t => ret t
         end)
    (fun _ => ret text).

End WithServices.
End LanguageProcessor.
Export LanguageProcessor.

(* ================================================================== *)
(** * sentiment_analyzer.py: analyze_sentiment *)
(* ================================================================== *)

(** 0.1 is read as the closest binary64 value, as Python reads it. *)
#[local] Set Warnings "-inexact-float".

Module SentimentAnalyzer.

(** The dictionary [{'sentiment': ..., 'polarity': ...}]. *)
Record sentiment_result : Type := {
  sr_sentiment : pystr;
  sr_polarity : float
}.

Section WithServices.
Variable svc : Services.

Definition analyze_sentiment (text : pystr) : M sentiment_result :=
  try_except
    (sentiment_obj <- call (EvSentiment text) (textblob_sentiment svc text) ;;
     let polarity := match sentiment_obj with
                     | Some p => p
                     | None => 0.0%float
                     end in
     let sentiment :=
       if (0.1 <? polarity)%float then py "Positive"
       else if (polarity <? - 0.1)%float then py "Negative"
       else py "Neutral" in
     ret {| sr_sentiment := sentiment; sr_polarity := polarity |})
    (fun _ => ret {| sr_sentiment := py "Neutral"; sr_polarity := 0.0%float |}).

End WithServices.
End SentimentAnalyzer.
Export SentimentAnalyzer.

(* ================================================================== *)
(** * The fragment of [re] used by the fixed patterns *)
(* ================================================================== *)

Module Regex.

Inductive regex : Type :=
| Eps                                   (** the empty pattern *)
| Class (p : codepoint -> bool)         (** one character of a set *)
| Cat (r1 r2 : regex)                   (** r1r2 *)
| Alt (r1 r2 : regex)                   (** r1|r2, left alternative first *)
| Star (p : codepoint -> bool)          (** [set]*, greedy *)
| WordBoundary                          (** \b *)
| Group (r : regex)                     (** (r), read back by group(1) *)
| Bol                                   (** ^ *)
| Eol.                                  (** $ *)

Definition Chr (c : codepoint) : regex := Class (N.eqb c).
Definition Opt (r : regex) : regex := Alt r Eps.
Definition Plus (p : codepoint -> bool) : regex := Cat (Class p) (Star p).

Fixpoint Repeat (n : nat) (p : codepoint -> bool) : regex :=
  match n with
  | O => Eps
  | S n' => Cat (Class p) (Repeat n' p)
  end.

Fixpoint Lit (s : pystr) : regex :=
  match s with
  | [] => Eps
  | c :: s' => Cat (Chr c) (Lit s')
  end.

(** A successful match, reduced to what the callers read: group(1). *)
Definition match_obj := option pystr.

Section Matcher.
Variable udb : UnicodeData.

(** \w of a [str] pattern *)
Definition is_word (c : codepoint) : bool := isalnum udb c || N.eqb c 95.

Definition word_at (s : pystr) : bool :=
  match s with
  | [] => false
  | c :: _ => is_word c
  end.

(** $ holds at the end of the text and in front of a final newline. *)
Definition at_end (s : pystr) : bool :=
  match s with
  | [] => true
  | [c] => N.eqb c 10
  | _ => false
  end.

(** . (without DOTALL) *)
Definition dot (c : codepoint) : bool := negb (N.eqb c 10).

Section Continuation.
Variable R : Type.

(** The continuation receives the text consumed so far (nearest character
    first), the text still ahead and group(1). *)
Definition cont := pystr -> pystr -> match_obj -> option R.

Fixpoint star (p : codepoint -> bool) (before rest : pystr) (g : match_obj)
                (k : cont) : option R :=
  match rest with
  | c :: rest' =>
      if p c then
        match star p (c :: before) rest' g k with
        | Some m => Some m
        | None => k before rest g
        end
      else k before rest g
  | [] => k before rest g
  end.

(** Backtracking in the order of [re]: alternatives left to right, greedy
    repetition longest first; the first success wins. *)
Fixpoint rmatch (r : regex) (before rest : pystr) (g : match_obj)
                (k : cont) : option R :=
  match r with
  | Eps => k before rest g
  | Class p =>
      match rest with
      | c :: rest' => if p c then k (c :: before) rest' g else None
      | [] => None
      end
  | Cat r1 r2 =>
      rmatch r1 before rest g (fun b s g' => rmatch r2 b s g' k)
  | Alt r1 r2 =>
      match rmatch r1 before rest g k with
      | Some m => Some m
      | None => rmatch r2 before rest g k
      end
  | Star p => star p before rest g k
  | WordBoundary =>
      if xorb (word_at before) (word_at rest) then k before rest g else None
  | Group r1 =>
      rmatch r1 before rest g
        (fun b s _ =>
           k b s (Some (rev (firstn (List.length b - List.length before) b))))
  | Bol => match before with [] => k before rest g | _ => None end
  | Eol => if at_end rest then k before rest g else None
  end.

End Continuation.
Arguments star {R} p before rest g k.
Arguments rmatch {R} r before rest g k.

Definition accept : cont match_obj := fun _ _ g => Some g.

(** [re.match(r, s)] *)
Definition re_match (r : regex) (s : pystr) : option match_obj :=
  rmatch r [] s None accept.

Fixpoint search_from (r : regex) (before rest : pystr) : option match_obj :=
  match rmatch r before rest None accept with
  | Some m => Some m
  | None =>
      match rest with
      | [] => None
      | c :: rest' => search_from r (c :: before) rest'
      end
  end.

(** [re.search(r, s)] *)
Definition re_search (r : regex) (s : pystr) : option match_obj :=
  search_from r [] s.

End Matcher.
Arguments star {R} p before rest g k.
Arguments rmatch udb {R} r before rest g k.

(** [if re.search(...)]: a match object is truthy, [None] is not. *)
Definition truthy {A} (o : option A) : bool :=
  match o with Some _ => true | None => false end.

End Regex.
Export Regex.

(* ================================================================== *)
(** * sentiment_analyzer.py: detect_toxicity *)
(* ================================================================== *)

Module Toxicity.

Definition Seq (rs : list regex) : regex := fold_right Cat Eps rs.

Fixpoint AnyOf (r : regex) (rs : list regex) : regex :=
  match rs with
  | [] => r
  | r' :: rs' => Alt r (AnyOf r' rs')
  end.

Definition toxicity_keywords : list pystr :=
  map py
    ["hate"; "kill"; "stupid"; "idiot"; "dumb"; "worthless"; "disgusting";
     "disgust"; "shut up"; "shutup"; "shut your"; "go to hell"; "damn";
     "retard"; "retarded"; "moron"; "moronic"; "crap"; "trash"; "garbage";
     "useless"; "pathetic"; "awful"; "terrible"; "horrible"; "horrid"]%string.

Section WithUnicode.
Variable udb : UnicodeData.

(** \s of a [str] pattern *)
Definition ws : codepoint -> bool := isspace udb.

(** The parentheses of these patterns only group: no caller reads a group of
    the match, so they are written without [Group]. *)
Definition toxic_patterns : list regex :=
  [ (* \byou\s+are\s+(a\s+)?(idiot|stupid|dumb|moron|retard) *)
    Seq [WordBoundary; Lit (py "you"); Plus ws; Lit (py "are"); Plus ws;
         Opt (Seq [Lit (py "a"); Plus ws]);
         AnyOf (Lit (py "idiot"))
               [Lit (py "stupid"); Lit (py "dumb"); Lit (py "moron");
                Lit (py "retard")]];
    (* \bfuck\b *)
    Seq [WordBoundary; Lit (py "fuck"); WordBoundary];
    (* \bshit\b *)
    Seq [WordBoundary; Lit (py "shit"); WordBoundary];
    (* \bdie\b *)
    Seq [WordBoundary; Lit (py "die"); WordBoundary];
    (* \bkys\b *)
    Seq [WordBoundary; Lit (py "kys"); WordBoundary] ].

Definition detect_toxicity (text : pystr) : bool :=
  let text_lower := lower udb text in
  if existsb (fun keyword => contains keyword text_lower) toxicity_keywords
  then true
  else if existsb (fun pattern => truthy (re_search udb pattern text_lower))
                  toxic_patterns
  then true
  else false.

End WithUnicode.
End Toxicity.
Export Toxicity.

(* ================================================================== *)
(** * youtube_api.py *)
(* ================================================================== *)

Module YoutubeApi.

(** config.py *)
Definition MAX_COMMENTS : Z := 1000.

(** [s.find(needle)]: the first index, or -1. *)
Fixpoint find (needle s : pystr) : Z :=
  if starts_with needle s then 0%Z
  else match s with
       | [] => (-1)%Z
       | _ :: rest =>
           let i := find needle rest in
           if (i <? 0)%Z then (-1)%Z else (i + 1)%Z
       end.

(** [s.find(needle, start)] for [0 <= start]. *)
Definition find_at (needle s : pystr) (start : Z) : Z :=
  let i := find needle (skipn (Z.to_nat start) s) in
  if (i <? 0)%Z then (-1)%Z else (start + i)%Z.

(** [s[start:stop]] for [0 <= start] and [0 <= stop]. *)
Definition slice (s : pystr) (start stop : Z) : pystr :=
  firstn (Z.to_nat (stop - start)) (skipn (Z.to_nat start) s).

(** [a-zA-Z0-9_-] *)
Definition id_char (c : codepoint) : bool :=
  ascii_islower c || ascii_isupper c || ascii_isdigit c
  || N.eqb c 95 || N.eqb c 45.

Definition id_group : regex := Group (Repeat 11 id_char).

Definition patterns : list regex :=
  [ (* (?:youtube\.com\/watch\?v=|youtu\.be\/|youtube\.com\/embed\/)([a-zA-Z0-9_-]{11}) *)
    Cat (Alt (Lit (py "youtube.com/watch?v="))
             (Alt (Lit (py "youtu.be/")) (Lit (py "youtube.com/embed/"))))
        id_group;
    (* youtube\.com\/watch\?.*v=([a-zA-Z0-9_-]{11}) *)
    Cat (Lit (py "youtube.com/watch?"))
        (Cat (Star dot) (Cat (Lit (py "v=")) id_group));
    (* youtu\.be\/([a-zA-Z0-9_-]{11}) *)
    Cat (Lit (py "youtu.be/")) id_group;
    (* youtube\.com\/embed\/([a-zA-Z0-9_-]{11}) *)
    Cat (Lit (py "youtube.com/embed/")) id_group ].

Section WithUnicode.
Variable udb : UnicodeData.

(** The loop over [patterns]: the first pattern found anywhere in the URL
    decides, and its group(1) is returned. *)
Fixpoint first_match (ps : list regex) (url : pystr) : option match_obj :=
  match ps with
  | [] => None
  | pattern :: ps' =>
      match re_search udb pattern url with
      | Some m => Some m
      | None => first_match ps' url
      end
  end.

Definition get_video_id (url : pystr) : option pystr :=
  if is_empty url then None
  else
    match first_match patterns url with
    | Some m => m
    | None =>
        if contains (py "v=") url then
          let start := (find (py "v=") url + 2)%Z in
          let stop := find_at (py "&") url start in
          let stop := if (stop =? -1)%Z then Z.of_nat (List.length url) else stop in
          let video_id := slice url start stop in
          if (Nat.eqb (List.length video_id) 11
              && truthy (re_match udb (Seq [Bol; Plus id_char; Eol]) video_id))%bool
          then Some video_id
          else None
        else None
    end.

End WithUnicode.

(** One element of [response['items']], reduced to the fields read. *)
Record api_item : Type := {
  item_id : pystr;
  authorDisplayName : pystr;
  textDisplay : pystr;
  publishedAt : pystr;
  likeCount : Z;
  updatedAt : pystr
}.

(** The dictionary appended to [comments]. *)
Record RawComment : Type := {
  id : pystr;
  author : pystr;
  text : pystr;
  published_at : pystr;
  like_count : Z;
  updated_at : pystr
}.

Definition comment_of_item (item : api_item) : RawComment :=
  {| id := item_id item;
     author := authorDisplayName item;
     text := textDisplay item;
     published_at := publishedAt item;
     like_count := likeCount item;
     updated_at := updatedAt item |}.

(** The remote service, as the conversation it is able to hold: to each
    request it either fails or answers a page (items and an optional
    [nextPageToken]) and goes on as [rest].  Answers may depend on everything
    in the request.  Being inductive, a service cannot answer forever: along
    any sequence of requests it eventually fails, if the client has not
    stopped before. *)
Inductive upstream : Type :=
| Upstream (execute : api_request -> api_response)
with api_response : Type :=
| ExecuteRaises (e : exn)
| Response (items : list api_item) (nextPageToken : option pystr)
           (rest : upstream).

(** [not token], for [None] or a string. *)
Definition falsy (o : option pystr) : bool :=
  match o with
  | None => true
  | Some s => is_empty s
  end.

(** One external call put in front of a computation's trace. *)
Definition after_call {A} (ev : event) (m : M A) : M A :=
  (ev :: trace m, result m).

Definition fetch_error {A} (e : exn) : outcome A :=
  Raises (PyException (py "Error fetching comments: " ++ exn_str e)).

(** The [while True] loop of [fetch_all_comments], entered with the current
    [comments] and [next_page_token]. *)
Fixpoint fetch_all_loop (u : upstream) (video_id : pystr)
    (comments : list RawComment) (next_page_token : option pystr)
    : M (list RawComment) :=
  match u with
  | Upstream execute =>
      let request := {| req_videoId := video_id;
                        req_maxResults := 100;
                        req_pageToken := next_page_token |} in
      match execute request with
      | ExecuteRaises e => call (EvExecute request) (fetch_error e)
      | Response items next_page_token rest =>
          let comments := comments ++ map comment_of_item items in
          if falsy next_page_token
          then call (EvExecute request) (Returns comments)
          else after_call (EvExecute request)
                 (fetch_all_loop rest video_id comments next_page_token)
      end
  end.

(** The [while len(comments) < max_results] loop of [fetch_comments]. *)
Fixpoint fetch_loop (u : upstream) (video_id : pystr) (max_results : Z)
    (comments : list RawComment) (next_page_token : option pystr)
    : M (list RawComment) :=
  if (Z.of_nat (List.length comments) <? max_results)%Z then
    match u with
    | Upstream execute =>
        let request :=
          {| req_videoId := video_id;
             req_maxResults :=
               Z.min 100 (max_results - Z.of_nat (List.length comments));
             req_pageToken := next_page_token |} in
        match execute request with
        | ExecuteRaises e => call (EvExecute request) (fetch_error e)
        | Response items next_page_token rest =>
            let comments := comments ++ map comment_of_item items in
            if falsy next_page_token
            then call (EvExecute request) (Returns comments)
            else after_call (EvExecute request)
                   (fetch_loop rest video_id max_results comments
                      next_page_token)
        end
    end
  else ret comments.

Section WithConfig.
Variable udb : UnicodeData.
(** [YOUTUBE_API_KEY = os.getenv('YOUTUBE_API_KEY')] *)
Variable YOUTUBE_API_KEY : option pystr.
Variable youtube : upstream.

Definition key_str : pystr :=
  match YOUTUBE_API_KEY with Some k => k | None => [] end.

Definition fetch_all_comments (video_url : pystr) : M (list RawComment) :=
  let video_id := get_video_id udb video_url in
  if falsy video_id then
    raise (ValueError (py "Invalid YouTube URL or unable to extract video ID"))
  else if falsy YOUTUBE_API_KEY then
    raise (ValueError
      (py "YouTube API key not found. Please set YOUTUBE_API_KEY in .env file"))
  else
    _ <- call (EvBuild key_str) (Returns tt) ;;
    fetch_all_loop youtube (match video_id with Some v => v | None => [] end)
      [] None.

Definition fetch_comments (video_url : pystr) (max_results : Z)
    : M (list RawComment) :=
  let video_id := get_video_id udb video_url in
  if falsy video_id then
    raise (ValueError (py "Invalid YouTube URL or unable to extract video ID"))
  else if falsy YOUTUBE_API_KEY then
    raise (ValueError
      (py "YouTube API key not found. Please set YOUTUBE_API_KEY in .env file"))
  else
    _ <- call (EvBuild key_str) (Returns tt) ;;
    comments <- fetch_loop youtube
                  (match video_id with Some v => v | None => [] end)
                  max_results [] None ;;
    ret (slice_to max_results comments).

End WithConfig.

(** A service that answers the given pages in order, whatever is asked, and
    fails once they are used up. *)
Fixpoint scripted (pages : list (list api_item * option pystr)) : upstream :=
  Upstream (fun _ =>
    match pages with
    | [] => ExecuteRaises (LibraryError (py "no more pages"))
    | (items, token) :: pages' => Response items token (scripted pages')
    end).

(** The requests of a trace, in order. *)
Fixpoint requests_of (t : list event) : list api_request :=
  match t with
  | [] => []
  | EvExecute req :: t' => req :: requests_of t'
  | _ :: t' => requests_of t'
  end.

(** What the service answered to a sequence of requests: the pages, up to the
    first failure. *)
Fixpoint replay (u : upstream) (reqs : list api_request) {struct reqs}
    : list (api_request * (list api_item * option pystr)) :=
  match reqs with
  | [] => []
  | req :: reqs' =>
      match u with
      | Upstream execute =>
          match execute req with
          | ExecuteRaises _ => []
          | Response items token rest => (req, (items, token)) :: replay rest reqs'
          end
      end
  end.

(** The failure met by a sequence of requests, if any. *)
Fixpoint first_failure (u : upstream) (reqs : list api_request) {struct reqs}
    : option exn :=
  match reqs with
  | [] => None
  | req :: reqs' =>
      match u with
      | Upstream execute =>
          match execute req with
          | ExecuteRaises e => Some e
          | Response _ _ rest => first_failure rest reqs'
          end
      end
  end.

End YoutubeApi.
Export YoutubeApi.

(* ================================================================== *)
(** * main.py *)
(* ================================================================== *)

Module Main.

(** A processed comment: the six keys of the raw comment and the five keys
    the pipeline adds. *)
Record ProcessedComment : Type := {
  c_id : pystr;
  c_author : pystr;
  c_text : pystr;
  c_published_at : pystr;
  c_like_count : Z;
  c_updated_at : pystr;
  original_language : pystr;
  translated_text : pystr;
  sentiment : pystr;
  polarity : float;
  is_toxic : bool
}.

(** The raw comment a processed comment carries. *)
Definition raw_of (c : ProcessedComment) : RawComment :=
  {| id := c_id c;
     author := c_author c;
     text := c_text c;
     published_at := c_published_at c;
     like_count := c_like_count c;
     updated_at := c_updated_at c |}.

Section Pipeline.
Variable udb : UnicodeData.
Variable svc : Services.
Variable YOUTUBE_API_KEY : option pystr.
Variable youtube : upstream.

(** The body of the [for] loop, up to the dictionary it builds. *)
Definition process_comment (comment : RawComment) : M ProcessedComment :=
  original_language <- detect_language udb svc (text comment) ;;
  translated_text <-
    (if negb (str_eqb original_language (py "en"))
     then translate_to_english udb svc (text comment) None
     else ret (text comment)) ;;
  sentiment_result <- analyze_sentiment svc translated_text ;;
  let is_toxic := detect_toxicity udb translated_text in
  ret {| c_id := id comment;
         c_author := author comment;
         c_text := text comment;
         c_published_at := published_at comment;
         c_like_count := like_count comment;
         c_updated_at := updated_at comment;
         original_language := original_language;
         translated_text := translated_text;
         sentiment := sr_sentiment sentiment_result;
         polarity := sr_polarity sentiment_result;
         is_toxic := is_toxic |}.

(** The [for] loop: [processed_comments] grows by one record per comment. *)
Fixpoint process_loop (comments : list RawComment)
    (processed_comments : list ProcessedComment)
    : M (list ProcessedComment) :=
  match comments with
  | [] => ret processed_comments
  | comment :: comments' =>
      processed_comment <- process_comment comment ;;
      process_loop comments' (processed_comments ++ [processed_comment])
  end.

(** The comments [process_comments] works on. *)
Definition fetched (video_url : pystr) (max_comments : option Z)
    : M (list RawComment) :=
  match max_comments with
  | None => fetch_all_comments udb YOUTUBE_API_KEY youtube video_url
  | Some n => fetch_comments udb YOUTUBE_API_KEY youtube video_url n
  end.

Definition process_comments (video_url : pystr) (max_comments : option Z)
    : M (list ProcessedComment) :=
  comments <- fetched video_url max_comments ;;
  process_loop comments [].

End Pipeline.

(** A [dict] with string keys and counts, in insertion order. *)
Definition dict := list (pystr * nat).

Fixpoint dict_lookup (d : dict) (k : pystr) : option nat :=
  match d with
  | [] => None
  | (k', n) :: d' => if str_eqb k k' then Some n else dict_lookup d' k
  end.

(** [d.get(k, default)] *)
Definition dict_get (d : dict) (k : pystr) (default : nat) : nat :=
  match dict_lookup d k with
  | Some n => n
  | None => default
  end.

Definition keys (d : dict) : list pystr := map fst d.
Definition values (d : dict) : list nat := map snd d.

(** [sum(values)] *)
Definition sum (l : list nat) : nat := fold_left Nat.add l 0%nat.

(** One more occurrence of [k]: a present key keeps its place, a new key
    goes last. *)
Fixpoint count_one (k : pystr) (d : dict) : dict :=
  match d with
  | [] => [(k, 1%nat)]
  | (k', n) :: d' =>
      if str_eqb k k' then (k', S n) :: d' else (k', n) :: count_one k d'
  end.

(** [dict(Counter(items))] *)
Definition Counter (items : list pystr) : dict :=
  fold_left (fun d k => count_one k d) items [].

(** [t[:100] + '...' if len(t) > 100 else t] *)
Definition excerpt (t : pystr) : pystr :=
  if (100 <? List.length t)%nat then slice_to 100 t ++ py "..." else t.

Definition with_sentiment (label : pystr) (c : ProcessedComment) : bool :=
  str_eqb (sentiment c) label.

Record SampleComments : Type := {
  positive : list pystr;
  negative : list pystr;
  neutral : list pystr
}.

Record Summary : Type := {
  total_comments : nat;
  sentiment_distribution : dict;
  language_distribution : dict;
  toxic_comments_count : nat;
  sample_comments : SampleComments
}.

Definition get_analysis_summary (processed_comments : list ProcessedComment)
    : Summary :=
  let sentiments := map sentiment processed_comments in
  let languages := map original_language processed_comments in
  let toxic_comments := filter is_toxic processed_comments in
  let sentiment_distribution := Counter sentiments in
  let language_distribution := Counter languages in
  let positive_comments :=
    slice_to 3 (filter (with_sentiment (py "Positive")) processed_comments) in
  let negative_comments :=
    slice_to 3 (filter (with_sentiment (py "Negative")) processed_comments) in
  let neutral_comments :=
    slice_to 3 (filter (with_sentiment (py "Neutral")) processed_comments) in
  let sample_comments :=
    {| positive := map (fun c => excerpt (c_text c)) positive_comments;
       negative := map (fun c => excerpt (c_text c)) negative_comments;
       neutral := map (fun c => excerpt (c_text c)) neutral_comments |} in
  {| total_comments := List.length processed_comments;
     sentiment_distribution := sentiment_distribution;
     language_distribution := language_distribution;
     toxic_comments_count := List.length toxic_comments;
     sample_comments := sample_comments |}.

End Main.
Export Main.

(* ================================================================== *)
(** * app.py: the sample comments of the /api/analyze response *)
(* ================================================================== *)

Module App.

Definition sample_comments (processed_comments : list ProcessedComment)
    : SampleComments :=
  {| positive :=
       slice_to 5 (map c_text
         (filter (with_sentiment (py "Positive")) processed_comments));
     negative :=
       slice_to 5 (map c_text
         (filter (with_sentiment (py "Negative")) processed_comments));
     neutral :=
       slice_to 5 (map c_text
         (filter (with_sentiment (py "Neutral")) processed_comments)) |}.

End App.

(* ================================================================== *)
(** * dashboard.py: get_top_comments *)
(* ================================================================== *)

Module Dashboard.

Section Sorted.
Variable A : Type.
Variable key : A -> float.

(** [sorted] compares keys with [<] only. *)
Definition key_lt (x y : A) : bool := (key x <? key y)%float.

(** [x] goes in front of the first element that is not smaller than it. *)
Fixpoint insert (x : A) (l : list A) : list A :=
  match l with
  | [] => [x]
  | y :: l' => if key_lt y x then y :: insert x l' else x :: l
  end.

(** The stable ascending sort [sorted] performs. *)
Definition sort (l : list A) : list A := fold_right insert [] l.

(** [sorted(l, key=key, reverse=reverse)]: with [reverse] the list is
    reversed, sorted and reversed again. *)
Definition sorted (l : list A) (reverse : bool) : list A :=
  if reverse then rev (sort (rev l)) else sort l.

End Sorted.
Arguments key_lt {A} key x y.
Arguments insert {A} key x l.
Arguments sort {A} key l.
Arguments sorted {A} key l reverse.

Definition get_top_comments (comments_data : list ProcessedComment)
    (sentiment : pystr) (top_n : Z) : list ProcessedComment :=
  let filtered_comments := filter (with_sentiment sentiment) comments_data in
  let sorted_comments :=
    if str_eqb sentiment (py "Positive")
    then sorted polarity filtered_comments true
    else sorted polarity filtered_comments false in
  slice_to top_n sorted_comments.

End Dashboard.
Export Dashboard.

(* ================================================================== *)
(** * dashboard.py: the charts and create_dashboard *)
(* ================================================================== *)

Module Charts.

(** What plotly is given for a figure: the categories and their values, in
    the order of the two lists, and the values that colour the bars (none
    for the pie chart, whose colours are a fixed palette). *)
Record figure : Type := {
  fig_title : pystr;
  fig_names : list pystr;
  fig_values : list nat;
  fig_color : option (list nat)
}.

Section WithPlotly.
(** Whether [import plotly.express] succeeds. *)
Variable plotly_installed : bool.

Definition create_sentiment_chart (sentiment_data : list pystr)
    : option figure :=
  if negb plotly_installed then None
  else
    let sentiment_counts := Counter sentiment_data in
    Some {| fig_title := py "Sentiment Distribution";
            fig_names := keys sentiment_counts;
            fig_values := values sentiment_counts;
            fig_color := None |}.

Definition create_language_chart (language_data : list pystr)
    : option figure :=
  if negb plotly_installed then None
  else
    let language_counts := Counter language_data in
    Some {| fig_title := py "Language Distribution";
            fig_names := keys language_counts;
            fig_values := values language_counts;
            fig_color := Some (values language_counts) |}.

Record DashboardData : Type := {
  sentiment_chart : option figure;
  language_chart : option figure;
  top_positive : list ProcessedComment;
  top_negative : list ProcessedComment
}.

Definition create_dashboard (processed_comments : list ProcessedComment)
    : DashboardData :=
  let sentiments := map sentiment processed_comments in
  let languages := map original_language processed_comments in
  let sentiment_chart := create_sentiment_chart sentiments in
  let language_chart := create_language_chart languages in
  let top_positive := get_top_comments processed_comments (py "Positive") 5 in
  let top_negative := get_top_comments processed_comments (py "Negative") 5 in
  {| sentiment_chart := sentiment_chart;
     language_chart := language_chart;
     top_positive := top_positive;
     top_negative := top_negative |}.

End WithPlotly.
End Charts.

(* ================================================================== *)
(** * chatbot.py *)
(* ================================================================== *)

Module Chatbot.

(** An entry of [genai.list_models()]. *)
Record model_info : Type := {
  info_name : pystr;
  supported_generation_methods : list pystr
}.

(** A model object.  [generate_content] stands for
    [model.generate_content(prompt).text]: the call and the access to the
    text are made in the same [try] block. *)
Record model : Type := {
  generate_content : pystr -> outcome pystr
}.

(** The google-generativeai package: [list_models] is absent when the
    attribute does not exist, and the call, like the construction of a
    model, returns or raises. *)
Record genai_package : Type := {
  list_models : option (outcome (list model_info));
  GenerativeModel : pystr -> outcome model
}.

Inductive chat_event : Type :=
| EvListModels
| EvModel (model_name : pystr)
| EvGenerate (prompt : pystr).

(** Computations of this module: the trace of the calls to the package and
    a value or an exception. *)
Definition C (A : Type) : Type := (list chat_event * outcome A)%type.

Definition pure {A} (a : A) : C A := ([], Returns a).

Definition then_ {A B} (m : C A) (f : A -> C B) : C B :=
  match m with
  | (t, Returns a) => let (t', r) := f a in (t ++ t', r)
  | (t, Raises e) => (t, Raises e)
  end.

(** [try: m  except Exception as e: h e] *)
Definition attempt {A} (m : C A) (h : exn -> C A) : C A :=
  match m with
  | (t, Raises e) => let (t', r) := h e in (t ++ t', r)
  | _ => m
  end.

Definition invoke {A} (ev : chat_event) (r : outcome A) : C A := ([ev], r).

Notation "x <~ m ;; k" := (then_ m (fun x => k))
  (at level 61, m at next level, right associativity).

Definition is_nil {A} (l : list A) : bool :=
  match l with [] => true | _ => false end.

Section WithPackage.
(** [None] when the import of the package failed ([GEMINI_AVAILABLE] is
    then false). *)
Variable genai : option genai_package.
Variable GEMINI_API_KEY : option pystr.

Definition common_models : list pystr :=
  [py "models/gemini-1.5-flash"; py "models/gemini-1.5-pro"].

Definition list_available_models : C (list pystr) :=
  match genai with
  | None => pure []
  | Some package =>
      attempt
        (match list_models package with
         | Some list_models_func =>
             models <~ invoke EvListModels list_models_func ;;
             pure (map info_name
                     (filter (fun model =>
                                existsb (str_eqb (py "generateContent"))
                                  (supported_generation_methods model))
                        models))
         | None => pure common_models
         end)
        (fun _ => pure common_models)
  end.

Definition preferred_models : list pystr :=
  [py "models/gemini-1.5-flash"; py "models/gemini-1.5-pro";
   py "models/gemini-flash-latest"; py "models/gemini-pro-latest";
   py "gemini-1.5-flash"; py "gemini-1.5-pro"; py "gemini-pro"].

Definition fallback_models : list pystr :=
  [py "models/gemini-flash-latest"; py "models/gemini-pro-latest";
   py "models/gemini-1.5-flash"; py "models/gemini-1.5-pro"].

(** The [for] loop over the preferred models: the first one that is
    available, or the first one at all when nothing is available. *)
Fixpoint first_preferred (preferred available_models : list pystr)
    (model_name : option pystr) : option pystr :=
  match preferred with
  | [] => model_name
  | model :: preferred' =>
      if existsb (str_eqb model) available_models || is_nil available_models
      then Some model
      else first_preferred preferred' available_models model_name
  end.

(** The name used when the caller gave none. *)
Definition choose_model (available_models : list pystr)
    (model_name : option pystr) : pystr :=
  let model_name := first_preferred preferred_models available_models
                      model_name in
  let model_name :=
    match available_models with
    | first :: _ => if falsy model_name then Some first else model_name
    | [] => model_name
    end in
  match model_name with
  | Some (c :: name) => c :: name
  | _ => py "models/gemini-flash-latest"
  end.

(** The [for] loop over the fallback models. *)
Fixpoint try_fallbacks (package : genai_package) (model_name : pystr)
    (fallbacks : list pystr) : C (option model) :=
  match fallbacks with
  | [] => pure None
  | fallback_model :: fallbacks' =>
      if negb (str_eqb fallback_model model_name)
      then
        attempt
          (model <~ invoke (EvModel fallback_model)
                      (GenerativeModel package fallback_model) ;;
           pure (Some model))
          (fun _ => try_fallbacks package model_name fallbacks')
      else try_fallbacks package model_name fallbacks'
  end.

Definition initialize_chatbot (model_name : option pystr) : C (option model) :=
  match genai with
  | None => pure None
  | Some package =>
      if falsy GEMINI_API_KEY then pure None
      else
        model_name <~
          (match model_name with
           | Some (c :: name) => pure (c :: name)
           | _ =>
               available_models <~ list_available_models ;;
               pure (choose_model available_models model_name)
           end) ;;
        attempt
          (model <~ invoke (EvModel model_name)
                      (GenerativeModel package model_name) ;;
           pure (Some model))
          (fun _ => try_fallbacks package model_name fallback_models)
  end.

End WithPackage.

Section WithContext.
(** The context data is left abstract: [context_truthy] is its truth value
    and [context_prompt] the prompt the f-string builds around the question,
    an evaluation that either yields the text or raises. *)
Variable Context : Type.
Variable context_truthy : Context -> bool.
Variable context_prompt : Context -> pystr -> outcome pystr.

Definition unavailable : pystr :=
  py "Chatbot is not available. Please check your API configuration.".

Definition ask_question (model : option model) (question : pystr)
    (context_data : option Context) : C pystr :=
  match model with
  | None => pure unavailable
  | Some model =>
      attempt
        (prompt <~
           (match context_data with
            | Some data =>
                if context_truthy data
                then ([], context_prompt data question)
                else pure question
            | None => pure question
            end) ;;
         text <~ invoke (EvGenerate prompt) (generate_content model prompt) ;;
         pure text)
        (fun e =>
           pure (py "Sorry, I encountered an error while processing your question: "
                 ++ exn_str e))
  end.

End WithContext.
End Chatbot.

(* ================================================================== *)
(** * main.py: interactive_chatbot *)
(* ================================================================== *)

Module MainChat.
Import Chatbot.

(** [input()] with nothing left to read. *)
Definition EOFError : exn := PyException (py "EOF when reading a line").

Section WithContext.
Variable udb : UnicodeData.
Variable Context : Type.
Variable context_truthy : Context -> bool.
Variable context_prompt : Context -> pystr -> outcome pystr.

(** The session, as a function of the lines the standard input holds: the
    calls made, the lines printed for the replies, and how the loop ends.
    The banner and the prompt 'You: ' are left out. *)
Fixpoint interactive_chatbot (model : option model)
    (context_data : option Context) (stdin : list pystr)
    : list chat_event * list pystr * outcome unit :=
  match stdin with
  | [] => ([], [], Raises EOFError)
  | line :: stdin' =>
      let question := strip udb line in
      if existsb (str_eqb (lower udb question)) [py "exit"; py "quit"]
      then ([], [], Returns tt)
      else if negb (is_empty question)
      then
        match ask_question Context context_truthy context_prompt model
                question context_data with
        | (t, Returns response) =>
            let '(t', printed, r) :=
              interactive_chatbot model context_data stdin' in
            (t ++ t', ([10%N] ++ py "Bot: " ++ response) :: printed, r)
        | (t, Raises e) => (t, [], Raises e)
        end
      else interactive_chatbot model context_data stdin'
  end.

End WithContext.
End MainChat.

(* ================================================================== *)
(** * web_dashboard.py: the two callbacks *)
(* ================================================================== *)

Module WebDashboard.
Import Charts Chatbot.

(** [str(n)] for a count. *)
Fixpoint digits (d : Decimal.uint) : pystr :=
  match d with
  | Decimal.Nil => []
  | Decimal.D0 d => 48%N :: digits d
  | Decimal.D1 d => 49%N :: digits d
  | Decimal.D2 d => 50%N :: digits d
  | Decimal.D3 d => 51%N :: digits d
  | Decimal.D4 d => 52%N :: digits d
  | Decimal.D5 d => 53%N :: digits d
  | Decimal.D6 d => 54%N :: digits d
  | Decimal.D7 d => 55%N :: digits d
  | Decimal.D8 d => 56%N :: digits d
  | Decimal.D9 d => 57%N :: digits d
  end.

Definition str_of_nat (n : nat) : pystr := digits (Nat.to_uint n).

(** The module's global variables.  [analysis_summary] starts as the empty
    dictionary, written [None]. *)
Record globals : Type := {
  processed_data : list ProcessedComment;
  chatbot_model : option model;
  analysis_summary : option Summary
}.

Definition initial_globals : globals :=
  {| processed_data := []; chatbot_model := None; analysis_summary := None |}.

(** The calls a callback makes: those of the pipeline and those to the
    Gemini package. *)
Inductive dash_event : Type :=
| Pipeline (ev : event)
| Gemini (ev : chat_event).

(** An entry of a top list: the author followed by ': ', and the text. *)
Definition list_item (comment : ProcessedComment) : pystr * pystr :=
  (c_author comment ++ py ": ", c_text comment).

(** The ten outputs of [update_dashboard].  [loading_output] is [None] for
    the empty string and otherwise the text of the error paragraph;
    [results_shown] is the 'display' of the results section; a figure is
    [None] for the empty dictionary and a list is [None] for the empty
    string. *)
Record outputs : Type := {
  loading_output : option pystr;
  results_shown : bool;
  total_comments_text : pystr;
  positive_count_text : pystr;
  negative_count_text : pystr;
  neutral_count_text : pystr;
  sentiment_fig : option figure;
  language_fig : option figure;
  top_positive_html : option (list (pystr * pystr));
  top_negative_html : option (list (pystr * pystr))
}.

Definition no_results (loading : option pystr) : outputs :=
  {| loading_output := loading;
     results_shown := false;
     total_comments_text := py "0";
     positive_count_text := py "0";
     negative_count_text := py "0";
     neutral_count_text := py "0";
     sentiment_fig := None;
     language_fig := None;
     top_positive_html := None;
     top_negative_html := None |}.

Section WithEnvironment.
Variable udb : UnicodeData.
Variable svc : Services.
Variable YOUTUBE_API_KEY : option pystr.
Variable youtube : upstream.
Variable genai : option genai_package.
Variable GEMINI_API_KEY : option pystr.

(** The loop is the one of main.py, word for word. *)
Definition process_comments (video_url : pystr) (max_comments : Z)
    (fetch_all : bool) : M (list ProcessedComment) :=
  comments <- (if fetch_all
               then fetch_all_comments udb YOUTUBE_API_KEY youtube video_url
               else fetch_comments udb YOUTUBE_API_KEY youtube video_url
                      max_comments) ;;
  process_loop udb svc comments [].

(** What the callback shows for the data of a finished analysis. *)
Definition results (processed_data : list ProcessedComment)
    (analysis_summary : Summary) : outputs :=
  let total_comments := total_comments analysis_summary in
  let sentiments := map sentiment processed_data in
  let sentiment_counts := Counter sentiments in
  let positive_count := dict_get sentiment_counts (py "Positive") 0 in
  let negative_count := dict_get sentiment_counts (py "Negative") 0 in
  let neutral_count := dict_get sentiment_counts (py "Neutral") 0 in
  let sentiment_fig :=
    {| fig_title := py "Sentiment Distribution";
       fig_names := keys sentiment_counts;
       fig_values := values sentiment_counts;
       fig_color := None |} in
  let languages := map original_language processed_data in
  let language_counts := Counter languages in
  let language_fig :=
    {| fig_title := py "Language Distribution";
       fig_names := keys language_counts;
       fig_values := values language_counts;
       fig_color := Some (values language_counts) |} in
  let positive_comments :=
    filter (with_sentiment (py "Positive")) processed_data in
  let negative_comments :=
    filter (with_sentiment (py "Negative")) processed_data in
  let top_positive := slice_to 3 (sorted polarity positive_comments true) in
  let top_negative := slice_to 3 (sorted polarity negative_comments false) in
  {| loading_output := None;
     results_shown := true;
     total_comments_text := str_of_nat total_comments;
     positive_count_text := str_of_nat positive_count;
     negative_count_text := str_of_nat negative_count;
     neutral_count_text := str_of_nat neutral_count;
     sentiment_fig := Some sentiment_fig;
     language_fig := Some language_fig;
     top_positive_html := Some (map list_item top_positive);
     top_negative_html := Some (map list_item top_negative) |}.

(** [update_dashboard], as a function of the globals it finds: the calls it
    makes, the globals it leaves, and the outputs.  The number of comments
    is an integer and the value of the checklist a list.  An assignment to a
    global that has been made stays made when a later step raises. *)
Definition update_dashboard (g : globals) (n_clicks : Z)
    (video_url : option pystr) (max_comments : Z)
    (fetch_all_value : list pystr) : list dash_event * globals * outputs :=
  match video_url with
  | Some (c :: url) =>
      if (n_clicks =? 0)%Z then ([], g, no_results None)
      else
        let video_url := c :: url in
        let fetch_all := existsb (str_eqb (py "yes")) fetch_all_value in
        match process_comments video_url max_comments fetch_all with
        | (t, Raises e) =>
            (map Pipeline t, g, no_results (Some (py "Error: " ++ exn_str e)))
        | (t, Returns processed_data) =>
            let analysis_summary := get_analysis_summary processed_data in
            match initialize_chatbot genai GEMINI_API_KEY
                    (Some (py "models/gemini-flash-latest")) with
            | (t', Raises e) =>
                (map Pipeline t ++ map Gemini t',
                 {| processed_data := processed_data;
                    chatbot_model := chatbot_model g;
                    analysis_summary := Some analysis_summary |},
                 no_results (Some (py "Error: " ++ exn_str e)))
            | (t', Returns chatbot_model) =>
                (map Pipeline t ++ map Gemini t',
                 {| processed_data := processed_data;
                    chatbot_model := chatbot_model;
                    analysis_summary := Some analysis_summary |},
                 results processed_data analysis_summary)
            end
        end
  | _ => ([], g, no_results None)
  end.

(** ** The chat *)

Inductive message : Type :=
| UserMessage (text : pystr)
| BotMessage (text : pystr).

(** The children of the history: none yet, a list of messages, or something
    that is not a list. *)
Inductive children : Type :=
| NoChildren
| ChildList (messages : list message)
| OtherChildren.

(** The prompt the f-string of [ask_question] builds from a summary. *)
Variable summary_prompt : Summary -> pystr -> outcome pystr.

(** A summary is a dictionary of five keys: it is never falsy. *)
Definition ask (model : option model) (question : pystr)
    (context_data : option Summary) : C pystr :=
  ask_question Summary (fun _ => true) summary_prompt model question
    context_data.

Definition update_chatbot (g : globals) (n_clicks : Z)
    (user_input : option pystr) (chat_history : children)
    : list chat_event * children :=
  let chat_history :=
    match chat_history with
    | NoChildren => ChildList []
    | _ => chat_history
    end in
  match user_input with
  | Some (c :: input) =>
      if (n_clicks =? 0)%Z then ([], chat_history)
      else
        let user_input := c :: input in
        let user_message := UserMessage user_input in
        let new_history :=
          match chat_history with
          | ChildList messages => messages ++ [user_message]
          | _ => [user_message]
          end in
        let (t, bot_message) :=
          match chatbot_model g with
          | Some model =>
              match ask (Some model) user_input (analysis_summary g) with
              | (t, Returns response) => (t, BotMessage response)
              | (t, Raises e) =>
                  (t, BotMessage (py "Sorry, I encountered an error: "
                                  ++ exn_str e))
              end
          | None => ([], BotMessage unavailable)
          end in
        (t, ChildList (new_history ++ [bot_message]))
  | _ => ([], chat_history)
  end.

End WithEnvironment.
End WebDashboard.

(* ================================================================== *)
(** * app.py: the two API endpoints *)
(* ================================================================== *)

Module AppApi.
Import Chatbot.

(** The rows the analysis endpoint writes.  The two distributions are kept
    as the dictionaries whose JSON text the column holds, and a comment row
    refers to its search by the record itself. *)
Record SearchHistory : Type := {
  sh_user_id : Z;
  sh_youtube_url : pystr;
  sh_video_id : pystr;
  sh_total_comments : nat;
  sh_sentiment_distribution : dict;
  sh_language_distribution : dict
}.

Record CommentAnalysis : Type := {
  ca_search : SearchHistory;
  ca_comment_id : pystr;
  ca_author : pystr;
  ca_text : pystr;
  ca_original_language : pystr;
  ca_sentiment : pystr;
  ca_polarity : float;
  ca_is_toxic : bool
}.

Inductive row : Type :=
| SearchRow (r : SearchHistory)
| CommentRow (r : CommentAnalysis).

(** The body of a response of [/api/analyze]. *)
Record analysis : Type := {
  a_comments : list ProcessedComment;
  a_total_comments : nat;
  a_sentiment_distribution : dict;
  a_language_distribution : dict;
  a_sample_comments : SampleComments
}.

Inductive analyze_body : Type :=
| AnalyzeError (error : pystr)
| AnalyzeSuccess (a : analysis).

Inductive chatbot_body : Type :=
| ChatbotError (error : pystr)
| ChatbotResponse (response : pystr).

Section WithEnvironment.
Variable udb : UnicodeData.
Variable svc : Services.
Variable YOUTUBE_API_KEY : option pystr.
Variable youtube : upstream.

(** [db.session.commit()]: given the rows already in the database and the
    rows added to the session, the commit goes through or raises; a commit
    that raises writes nothing. *)
Variable commit : list row -> list row -> outcome unit.

(** The user who is logged in. *)
Variable current_user_id : Z.

Definition comment_analysis (search_history : SearchHistory)
    (comment : ProcessedComment) : CommentAnalysis :=
  {| ca_search := search_history;
     ca_comment_id := c_id comment;
     ca_author := c_author comment;
     ca_text := c_text comment;
     ca_original_language := original_language comment;
     ca_sentiment := sentiment comment;
     ca_polarity := polarity comment;
     ca_is_toxic := is_toxic comment |}.

(** The part of the [try] block that writes to the database: the rows the
    database holds afterwards, and whether the block got through. *)
Definition save (db : list row) (youtube_url : pystr)
    (processed_comments : list ProcessedComment)
    (sentiment_distribution language_distribution : dict)
    : list row * outcome unit :=
  match get_video_id udb youtube_url with
  | Some (c :: video_id) =>
      let search_history :=
        {| sh_user_id := current_user_id;
           sh_youtube_url := youtube_url;
           sh_video_id := c :: video_id;
           sh_total_comments := List.length processed_comments;
           sh_sentiment_distribution := sentiment_distribution;
           sh_language_distribution := language_distribution |} in
      match commit db [SearchRow search_history] with
      | Raises e => (db, Raises e)
      | Returns _ =>
          let db := db ++ [SearchRow search_history] in
          let rows :=
            map (fun comment =>
                   CommentRow (comment_analysis search_history comment))
              (slice_to 50 processed_comments) in
          match commit db rows with
          | Raises e => (db, Raises e)
          | Returns _ => (db ++ rows, Returns tt)
          end
      end
  | _ => (db, Returns tt)
  end.

(** [api_analyze], for a request whose body is a JSON object: [url],
    [max_comments] and [fetch_all] are the values found under these keys,
    [None] when the key is missing. *)
Definition api_analyze (db : list row) (url : option pystr)
    (max_comments : option Z) (fetch_all : option bool)
    : list event * list row * (analyze_body * Z) :=
  let max_comments := match max_comments with Some n => n | None => 100%Z end in
  let fetch_all := match fetch_all with Some b => b | None => false end in
  match url with
  | Some (c :: youtube_url') =>
      let youtube_url := c :: youtube_url' in
      match
        (comments <- (if fetch_all
                      then fetch_all_comments udb YOUTUBE_API_KEY youtube
                             youtube_url
                      else fetch_comments udb YOUTUBE_API_KEY youtube
                             youtube_url max_comments) ;;
         process_loop udb svc comments [])
      with
      | (t, Raises e) => (t, db, (AnalyzeError (exn_str e), 500%Z))
      | (t, Returns processed_comments) =>
          let sentiments := map sentiment processed_comments in
          let languages := map original_language processed_comments in
          let sentiment_distribution := Counter sentiments in
          let language_distribution := Counter languages in
          match save db youtube_url processed_comments
                  sentiment_distribution language_distribution with
          | (db, Raises e) => (t, db, (AnalyzeError (exn_str e), 500%Z))
          | (db, Returns _) =>
              (t, db,
               (AnalyzeSuccess
                  {| a_comments := processed_comments;
                     a_total_comments := List.length processed_comments;
                     a_sentiment_distribution := sentiment_distribution;
                     a_language_distribution := language_distribution;
                     a_sample_comments :=
                       App.sample_comments processed_comments |},
                200%Z))
          end
      end
  | _ => ([], db, (AnalyzeError (py "YouTube URL is required"), 400%Z))
  end.

End WithEnvironment.

Section WithChatbot.
Variable genai : option genai_package.
Variable GEMINI_API_KEY : option pystr.

(** The context of a request is any JSON value. *)
Variable Context : Type.
Variable context_truthy : Context -> bool.
Variable context_prompt : Context -> pystr -> outcome pystr.

(** [api_chatbot], for a request whose body is a JSON object: [question]
    and [context] are the values found under these keys, [None] when the key
    is missing; a missing context is the empty dictionary, which is falsy
    like [None]. *)
Definition api_chatbot (question : option pystr) (context : option Context)
    : list chat_event * (chatbot_body * Z) :=
  match question with
  | Some (c :: question') =>
      let question := c :: question' in
      match
        (model <~ initialize_chatbot genai GEMINI_API_KEY None ;;
         match model with
         | None =>
             pure (ChatbotError
                     (py "Chatbot not available. Please check your API configuration."),
                   500%Z)
         | Some model =>
             response <~ ask_question Context context_truthy context_prompt
                           (Some model) question context ;;
             pure (ChatbotResponse response, 200%Z)
         end)
      with
      | (t, Returns response) => (t, response)
      | (t, Raises e) =>
          (t, (ChatbotError (py "Internal error: " ++ exn_str e), 500%Z))
      end
  | _ => ([], (ChatbotError (py "Question is required"), 400%Z))
  end.

End WithChatbot.
End AppApi.

(* ================================================================== *)
(** * Facts about strings *)
(* ================================================================== *)

Module PyStrFacts.

Lemma str_eqb_refl (a : pystr) : str_eqb a a = true.
Proof.
  induction a as [|x a IH]; simpl; [reflexivity|].
  now rewrite N.eqb_refl.
Qed.

Lemma str_eqb_eq (a b : pystr) : str_eqb a b = true <-> a = b.
Proof.
  split.
  - revert b; induction a as [|x a IH]; intros [|y b]; simpl; try discriminate; auto.
    intros H; apply andb_true_iff in H as [Hxy Hab].
    apply N.eqb_eq in Hxy; subst; f_equal; auto.
  - intros ->; apply str_eqb_refl.
Qed.

Lemma str_eqb_neq (a b : pystr) : str_eqb a b = false <-> a <> b.
Proof.
  split.
  - intros H Heq; apply str_eqb_eq in Heq; congruence.
  - intros H; destruct (str_eqb a b) eqn:E; [|reflexivity].
    apply str_eqb_eq in E; contradiction.
Qed.

Lemma dropwhile_nil (p : codepoint -> bool) (s : pystr) :
  dropwhile p s = [] <-> forallb p s = true.
Proof.
  induction s as [|c s IH]; simpl; [tauto|].
  destruct (p c); simpl; [exact IH|].
  split; discriminate.
Qed.

Lemma forallb_rev {A} (p : A -> bool) (l : list A) :
  forallb p (rev l) = forallb p l.
Proof.
  induction l as [|x l IH]; simpl; [reflexivity|].
  rewrite forallb_app, IH; simpl.
  rewrite andb_true_r; apply andb_comm.
Qed.

Lemma dropwhile_forallb (p : codepoint -> bool) (s : pystr) :
  forallb p s = true -> dropwhile p s = [].
Proof. apply dropwhile_nil. Qed.

Lemma dropwhile_suffix (p : codepoint -> bool) (s : pystr) :
  exists pre, s = pre ++ dropwhile p s /\ forallb p pre = true.
Proof.
  induction s as [|c s (pre & Hs & Hp)]; simpl.
  - exists []; auto.
  - destruct (p c) eqn:E.
    + exists (c :: pre); simpl; rewrite E, Hp; split; [congruence|reflexivity].
    + exists []; auto.
Qed.

(** [text.strip()] is empty exactly for a text of whitespace only. *)
Lemma strip_empty (udb : UnicodeData) (s : pystr) :
  is_empty (strip udb s) = true <-> forallb (isspace udb) s = true.
Proof.
  unfold strip.
  destruct (dropwhile_suffix (isspace udb) s) as (pre & Hs & Hp).
  split.
  - intros H.
    destruct (rev (dropwhile (isspace udb) (rev (dropwhile (isspace udb) s)))) eqn:E;
      [|discriminate].
    apply (f_equal (@rev _)) in E; rewrite rev_involutive in E; simpl in E.
    apply dropwhile_nil in E; rewrite forallb_rev in E.
    rewrite Hs, forallb_app, Hp, E; reflexivity.
  - intros H.
    rewrite (dropwhile_forallb _ _ H); reflexivity.
Qed.

Lemma starts_with_spec (p s : pystr) :
  starts_with p s = true <-> exists b, s = p ++ b.
Proof.
  revert s; induction p as [|x p IH]; intros s; simpl.
  - split; [exists s; reflexivity | reflexivity].
  - destruct s as [|c s].
    + split; [discriminate | intros [b Hb]; discriminate].
    + rewrite andb_true_iff, N.eqb_eq, IH; split.
      * intros [-> [b ->]]; exists b; reflexivity.
      * intros [b Hb]; injection Hb as -> ->; eauto.
Qed.

(** [needle in haystack] holds exactly when the haystack splits around the
    needle. *)
Lemma contains_spec (needle haystack : pystr) :
  contains needle haystack = true <->
  exists a b, haystack = a ++ needle ++ b.
Proof.
  induction haystack as [|c h IH].
  - simpl; rewrite orb_false_r, starts_with_spec; split.
    + intros [b Hb]; exists [], b; exact Hb.
    + intros (a & b & H); destruct a; [exists b; exact H | discriminate].
  - simpl; rewrite orb_true_iff, starts_with_spec, IH; split.
    + intros [[b Hb] | (a & b & Hb)].
      * exists [], b; exact Hb.
      * exists (c :: a), b; simpl; congruence.
    + intros (a & b & H); destruct a as [|x a]; simpl in H.
      * left; exists b; exact H.
      * right; injection H as -> ->; eauto.
Qed.

(** Lower-casing a text leaves an embedded ASCII word in place, lower-cased,
    whatever surrounds it. *)
Lemma lower_from_ascii (udb : UnicodeData) (w rest before : pystr) :
  forallb is_ascii w = true ->
  lower_from udb before (w ++ rest) =
  map ascii_lower w ++ lower_from udb (rev w ++ before) rest.
Proof.
  revert before; induction w as [|c w IH]; intros before H; simpl in *.
  - reflexivity.
  - apply andb_true_iff in H as [Hc Hw].
    unfold lower_char; rewrite Hc; simpl.
    rewrite IH by assumption.
    now rewrite <- app_assoc.
Qed.

Lemma lower_embedded (udb : UnicodeData) (a w b : pystr) :
  forallb is_ascii w = true ->
  exists x y, lower udb (a ++ w ++ b) = x ++ map ascii_lower w ++ y.
Proof.
  intros Hw; unfold lower; generalize (@nil codepoint) as before.
  induction a as [|c a IH]; intros before; simpl.
  - exists [], (lower_from udb (rev w ++ before) b); simpl.
    now apply lower_from_ascii.
  - destruct (IH (c :: before)) as (x & y & Hxy).
    exists (lower_char udb before c (a ++ w ++ b) ++ x), y.
    now rewrite Hxy, <- app_assoc.
Qed.

Lemma ascii_lower_ascii (c : codepoint) :
  is_ascii (ascii_lower c) = true -> is_ascii c = true.
Proof.
  unfold ascii_lower, ascii_isupper, in_range, is_ascii.
  destruct ((65 <=? c)%N && (c <=? 90)%N) eqn:E; [|auto].
  apply andb_true_iff in E as [_ E]; apply N.leb_le in E.
  intros _; apply N.ltb_lt; lia.
Qed.

Lemma lower_case_variant_ascii (w k : pystr) :
  map ascii_lower w = k -> forallb is_ascii k = true ->
  forallb is_ascii w = true.
Proof.
  intros <-; induction w as [|c w IH]; simpl; [reflexivity|].
  intros H; apply andb_true_iff in H as [Hc Hw].
  now rewrite (ascii_lower_ascii _ Hc), IH.
Qed.

End PyStrFacts.

(* ================================================================== *)
(** * What the matcher decides *)
(* ================================================================== *)

Module RegexFacts.

Section Semantics.
Variable udb : UnicodeData.

(** [matches r before s after]: the pattern [r] matches the piece [s] of a
    text, with [before] to its left (nearest character first) and [after]
    to its right. *)
Inductive matches : regex -> pystr -> pystr -> pystr -> Prop :=
| M_Eps before after :
    matches Eps before [] after
| M_Class (p : codepoint -> bool) c before after :
    p c = true -> matches (Class p) before [c] after
| M_Cat r1 r2 s1 s2 before after :
    matches r1 before s1 (s2 ++ after) ->
    matches r2 (rev s1 ++ before) s2 after ->
    matches (Cat r1 r2) before (s1 ++ s2) after
| M_AltL r1 r2 s before after :
    matches r1 before s after -> matches (Alt r1 r2) before s after
| M_AltR r1 r2 s before after :
    matches r2 before s after -> matches (Alt r1 r2) before s after
| M_Star (p : codepoint -> bool) s before after :
    forallb p s = true -> matches (Star p) before s after
| M_WordBoundary before after :
    xorb (word_at udb before) (word_at udb after) = true ->
    matches WordBoundary before [] after
| M_Group r s before after :
    matches r before s after -> matches (Group r) before s after
| M_Bol after :
    matches Bol [] [] after
| M_Eol before after :
    at_end after = true -> matches Eol before [] after.

(** The pattern is found somewhere in the text. *)
Definition found (r : regex) (text : pystr) : Prop :=
  exists pre s post, text = pre ++ s ++ post /\ matches r (rev pre) s post.

Section Continuations.
Variable R : Type.

(** A continuation whose success does not depend on group(1). *)
Definition blind (k : cont R) : Prop :=
  forall b a g g', k b a g = None -> k b a g' = None.

Lemma blind_iff (k : cont R) (b a : pystr) (g g' : match_obj) :
  blind k -> (k b a g <> None <-> k b a g' <> None).
Proof. intros H; split; intros Hk Hn; apply Hk; eapply H; eassumption. Qed.

Lemma star_spec (p : codepoint -> bool) (k : cont R) :
  forall rest b g,
    star p b rest g k <> None <->
    exists s a, rest = s ++ a /\ forallb p s = true /\
                k (rev s ++ b) a g <> None.
Proof.
  induction rest as [|c rest IH]; intros b g; simpl.
  - split.
    + intros H; exists [], []; auto.
    + intros (s & a & Hs & _ & Hk).
      symmetry in Hs; apply app_eq_nil in Hs as [-> ->]; exact Hk.
  - destruct (p c) eqn:Hc.
    + destruct (star p (c :: b) rest g k) eqn:E.
      * split; [intros _ | discriminate].
        assert (H : star p (c :: b) rest g k <> None) by (rewrite E; discriminate).
        apply IH in H as (s & a & -> & Hp & Hk).
        exists (c :: s), a; simpl; rewrite Hc, Hp, <- app_assoc.
        repeat split; exact Hk.
      * split.
        -- intros H; exists [], (c :: rest); auto.
        -- intros ([|c' s] & a & Hs & Hp & Hk); simpl in *.
           ++ now subst a.
           ++ injection Hs as <- ->.
              apply andb_true_iff in Hp as [_ Hp].
              exfalso; revert E; apply IH.
              exists s, a; rewrite <- app_assoc in Hk; auto.
    + split.
      * intros H; exists [], (c :: rest); auto.
      * intros ([|c' s] & a & Hs & Hp & Hk); simpl in *.
        -- now subst a.
        -- injection Hs as <- ->; rewrite Hc in Hp; discriminate.
Qed.

(** The matcher succeeds exactly when some piece at the front of the text
    is matched by the pattern and accepted, with what follows it, by the
    continuation. *)
Lemma rmatch_spec (r : regex) :
  forall k : cont R, blind k ->
  forall b rest g,
    rmatch udb r b rest g k <> None <->
    exists s a, rest = s ++ a /\ matches r b s a /\
                k (rev s ++ b) a None <> None.
Proof.
  induction r as [|p|r1 IH1 r2 IH2|r1 IH1 r2 IH2|p| |r IH| |];
    intros k Hk b rest g; simpl.
  - (* Eps *)
    rewrite (blind_iff k b rest g None Hk); split.
    + intros H; exists [], rest; repeat split; [constructor | exact H].
    + intros (s & a & -> & Hm & H); inversion Hm; subst; exact H.
  - (* Class *)
    destruct rest as [|c rest].
    + split; [congruence|].
      intros (s & a & Hs & Hm & _); inversion Hm; subst; discriminate.
    + destruct (p c) eqn:Hc.
      * rewrite (blind_iff k (c :: b) rest g None Hk); split.
        -- intros H; exists [c], rest; repeat split; [now constructor | exact H].
        -- intros (s & a & Hs & Hm & H); inversion Hm; subst.
           injection Hs as <- <-; exact H.
      * split; [congruence|].
        intros (s & a & Hs & Hm & _); inversion Hm; subst.
        injection Hs as <- <-; congruence.
  - (* Cat *)
    assert (Hk2 : blind (fun b' s' g' => rmatch udb r2 b' s' g' k)).
    { intros b' a' g1 g2 H.
      destruct (rmatch udb r2 b' a' g2 k) eqn:E; [|reflexivity].
      exfalso.
      assert (H2 : rmatch udb r2 b' a' g2 k <> None) by (rewrite E; discriminate).
      apply (IH2 k Hk) in H2; apply (IH2 k Hk b' a' g1) in H2; contradiction. }
    rewrite (IH1 _ Hk2); split.
    + intros (s1 & a1 & -> & Hm1 & H).
      apply (IH2 k Hk) in H as (s2 & a & -> & Hm2 & H).
      exists (s1 ++ s2), a; rewrite rev_app_distr, <- !app_assoc.
      repeat split; [now constructor | exact H].
    + intros (s & a & -> & Hm & H); inversion Hm; subst.
      exists s1, (s2 ++ a); rewrite <- app_assoc; repeat split; [assumption|].
      apply (IH2 k Hk); exists s2, a.
      rewrite rev_app_distr, <- app_assoc in H; auto.
  - (* Alt *)
    destruct (rmatch udb r1 b rest g k) eqn:E1.
    + split; [intros _ | discriminate].
      assert (H : rmatch udb r1 b rest g k <> None) by (rewrite E1; discriminate).
      apply (IH1 k Hk) in H as (s & a & Hs & Hm & H).
      exists s, a; repeat split; [assumption | now apply M_AltL | exact H].
    + rewrite (IH2 k Hk); split.
      * intros (s & a & Hs & Hm & H).
        exists s, a; repeat split; [assumption | now apply M_AltR | exact H].
      * intros (s & a & Hs & Hm & H); inversion Hm; subst.
        -- exfalso; revert E1; apply (IH1 k Hk); eauto.
        -- eauto.
  - (* Star *)
    rewrite star_spec; split.
    + intros (s & a & Hs & Hp & H); exists s, a.
      repeat split; [assumption | now constructor|].
      now apply (blind_iff k _ a g None Hk).
    + intros (s & a & Hs & Hm & H); inversion Hm; subst.
      exists s, a; repeat split; [assumption|].
      now apply (blind_iff k _ a g None Hk).
  - (* WordBoundary *)
    destruct (xorb (word_at udb b) (word_at udb rest)) eqn:E.
    + rewrite (blind_iff k b rest g None Hk); split.
      * intros H; exists [], rest; repeat split; [now constructor | exact H].
      * intros (s & a & -> & Hm & H); inversion Hm; subst; exact H.
    + split; [congruence|].
      intros (s & a & -> & Hm & _); inversion Hm; subst; simpl in *; congruence.
  - (* Group *)
    set (k' := fun (b' s' : pystr) (_ : match_obj) =>
                 k b' s' (Some (rev (firstn (List.length b' - List.length b) b')))).
    assert (Hk' : blind k') by (intros ? ? ? ? H; exact H).
    rewrite (IH k' Hk'); unfold k'; split.
    + intros (s & a & Hs & Hm & H); exists s, a.
      repeat split; [assumption | now constructor|].
      revert H; apply (blind_iff k _ a _ None Hk).
    + intros (s & a & Hs & Hm & H); inversion Hm; subst.
      exists s, a; repeat split; [assumption|].
      revert H; apply (blind_iff k _ a None _ Hk).
  - (* Bol *)
    destruct b as [|c b].
    + rewrite (blind_iff k [] rest g None Hk); split.
      * intros H; exists [], rest; repeat split; [constructor | exact H].
      * intros (s & a & -> & Hm & H); inversion Hm; subst; exact H.
    + split; [congruence|].
      intros (s & a & -> & Hm & _); inversion Hm.
  - (* Eol *)
    destruct (at_end rest) eqn:E.
    + rewrite (blind_iff k b rest g None Hk); split.
      * intros H; exists [], rest; repeat split; [now constructor | exact H].
      * intros (s & a & -> & Hm & H); inversion Hm; subst; exact H.
    + split; [congruence|].
      intros (s & a & -> & Hm & _); inversion Hm; subst; simpl in *; congruence.
Qed.

End Continuations.
Arguments blind {R} k.
Arguments rmatch_spec {R} r {k} _ b rest g.

Lemma accept_blind : blind accept.
Proof. intros b a g g' H; discriminate. Qed.

Lemma search_from_spec (r : regex) :
  forall rest before,
    search_from udb r before rest <> None <->
    exists pre s post, rest = pre ++ s ++ post /\
                       matches r (rev pre ++ before) s post.
Proof.
  induction rest as [|c rest IH]; intros before; simpl.
  - destruct (rmatch udb r before [] None accept) eqn:E.
    + split; [intros _ | discriminate].
      assert (H : rmatch udb r before [] None accept <> None)
        by (rewrite E; discriminate).
      apply (rmatch_spec r accept_blind) in H as (s & a & Hs & Hm & _).
      exists [], s, a; auto.
    + split; [congruence|].
      intros (pre & s & post & Hs & Hm).
      symmetry in Hs; apply app_eq_nil in Hs as [-> Hs]; simpl in Hm.
      exfalso; revert E; apply (rmatch_spec r accept_blind).
      exists s, post; repeat split; [now symmetry | exact Hm | discriminate].
  - destruct (rmatch udb r before (c :: rest) None accept) eqn:E.
    + split; [intros _ | discriminate].
      assert (H : rmatch udb r before (c :: rest) None accept <> None)
        by (rewrite E; discriminate).
      apply (rmatch_spec r accept_blind) in H as (s & a & Hs & Hm & _).
      exists [], s, a; auto.
    + rewrite IH; split.
      * intros (pre & s & post & -> & Hm).
        exists (c :: pre), s, post; simpl; rewrite <- app_assoc; auto.
      * intros ([|c' pre] & s & post & Hs & Hm); simpl in *.
        -- exfalso; revert E; apply (rmatch_spec r accept_blind).
           exists s, post; repeat split; [exact Hs | exact Hm | discriminate].
        -- injection Hs as <- ->.
           exists pre, s, post; rewrite <- app_assoc in Hm; auto.
Qed.

(** [re.search] answers a match exactly when the pattern is found somewhere
    in the text. *)
Lemma re_search_spec (r : regex) (text : pystr) :
  re_search udb r text <> None <-> found r text.
Proof.
  unfold re_search, found; rewrite search_from_spec.
  split; intros (pre & s & post & H & Hm); exists pre, s, post;
    rewrite app_nil_r in *; auto.
Qed.

End Semantics.
End RegexFacts.

(* ================================================================== *)
(** * The order on binary64 values *)
(* ================================================================== *)

Module FloatOrder.

(** A value that is not NaN is placed on a three-component scale whose
    lexicographic order is the order of [SFcompare]. *)
Definition rank (x : spec_float) : Z * Z * Z :=
  match x with
  | S754_zero _ => (0, 0, 0)
  | S754_infinity false => (2, 0, 0)
  | S754_infinity true => (-2, 0, 0)
  | S754_nan => (0, 0, 0)
  | S754_finite false m e => (1, e, Zpos m)
  | S754_finite true m e => (-1, - e, Zneg m)
  end%Z.

Definition lex (a b : Z * Z * Z) : comparison :=
  let '(a1, a2, a3) := a in
  let '(b1, b2, b3) := b in
  match (a1 ?= b1)%Z with
  | Eq => match (a2 ?= b2)%Z with
          | Eq => (a3 ?= b3)%Z
          | c => c
          end
  | c => c
  end.

Definition not_nan (x : spec_float) : bool :=
  match x with S754_nan => false | _ => true end.

Lemma SFcompare_nan (x y : spec_float) :
  not_nan x && not_nan y = false -> SFcompare x y = None.
Proof. destruct x, y; simpl; try discriminate; reflexivity. Qed.

Lemma SFcompare_lex (x y : spec_float) :
  not_nan x = true -> not_nan y = true ->
  SFcompare x y = Some (lex (rank x) (rank y)).
Proof.
  destruct x as [sx|sx| |sx mx ex], y as [sy|sy| |sy my ey];
    simpl; try discriminate; intros _ _;
    try destruct sx; try destruct sy; simpl; try reflexivity;
    rewrite ?Z.compare_opp, ?(Z.compare_antisym ex ey);
    destruct (ex ?= ey)%Z; reflexivity.
Qed.

Ltac by_rank :=
  repeat match goal with
  | H : not_nan _ && not_nan _ = true |- _ => apply andb_true_iff in H as [? ?]
  end;
  rewrite ?SFcompare_lex in * by assumption;
  repeat match goal with
  | |- context [rank ?a] => destruct (rank a) as [[? ?] ?]
  | H : context [rank ?a] |- _ => destruct (rank a) as [[? ?] ?]
  end;
  unfold lex in *;
  repeat match goal with
  | |- context [(?a ?= ?b)%Z] => destruct (Z.compare_spec a b)
  | H : context [(?a ?= ?b)%Z] |- _ => destruct (Z.compare_spec a b)
  end;
  subst; try reflexivity; try discriminate; try lia.

Lemma SFltb_not_nan (x y : spec_float) :
  SFltb x y = true -> not_nan x && not_nan y = true.
Proof.
  destruct (not_nan x && not_nan y) eqn:E; [reflexivity|].
  unfold SFltb; now rewrite SFcompare_nan.
Qed.

Lemma SFleb_not_nan (x y : spec_float) :
  SFleb x y = true -> not_nan x && not_nan y = true.
Proof.
  destruct (not_nan x && not_nan y) eqn:E; [reflexivity|].
  unfold SFleb; now rewrite SFcompare_nan.
Qed.

Lemma SFeqb_not_nan (x y : spec_float) :
  SFeqb x y = true -> not_nan x && not_nan y = true.
Proof.
  destruct (not_nan x && not_nan y) eqn:E; [reflexivity|].
  unfold SFeqb; now rewrite SFcompare_nan.
Qed.

Lemma SFltb_trans (x y z : spec_float) :
  SFltb x y = true -> SFltb y z = true -> SFltb x z = true.
Proof.
  intros H1 H2.
  pose proof (SFltb_not_nan _ _ H1) as N1.
  pose proof (SFltb_not_nan _ _ H2) as N2.
  unfold SFltb in *; by_rank.
Qed.

Lemma SFleb_trans (x y z : spec_float) :
  SFleb x y = true -> SFleb y z = true -> SFleb x z = true.
Proof.
  intros H1 H2.
  pose proof (SFleb_not_nan _ _ H1) as N1.
  pose proof (SFleb_not_nan _ _ H2) as N2.
  unfold SFleb in *; by_rank.
Qed.

Lemma SFltb_leb (x y : spec_float) : SFltb x y = true -> SFleb x y = true.
Proof. unfold SFltb, SFleb; destruct (SFcompare x y) as [[]|]; auto. Qed.

Lemma SFltb_irrefl (x : spec_float) : SFltb x x = false.
Proof.
  destruct (not_nan x) eqn:N.
  - unfold SFltb; by_rank.
  - unfold SFltb; rewrite SFcompare_nan; [reflexivity | now rewrite N].
Qed.

Lemma SFeqb_refl (x : spec_float) : SFeqb x x = not_nan x.
Proof.
  destruct (not_nan x) eqn:N.
  - unfold SFeqb; by_rank.
  - unfold SFeqb; rewrite SFcompare_nan; [reflexivity | now rewrite N].
Qed.

Lemma SFleb_total (x y : spec_float) :
  not_nan x = true -> not_nan y = true ->
  SFltb y x = false -> SFleb x y = true.
Proof. intros N1 N2; unfold SFltb, SFleb; by_rank. Qed.

Lemma SFeqb_not_ltb (x y z : spec_float) :
  SFeqb x z = true -> SFeqb y z = true -> SFltb y x = false.
Proof.
  intros H1 H2.
  pose proof (SFeqb_not_nan _ _ H1) as N1.
  pose proof (SFeqb_not_nan _ _ H2) as N2.
  unfold SFeqb, SFltb in *; by_rank.
Qed.

(** The same facts on the primitive values the code compares. *)
Local Open Scope float_scope.

Lemma is_nan_spec (a : float) : is_nan a = negb (not_nan (Prim2SF a)).
Proof. unfold is_nan; now rewrite eqb_spec, SFeqb_refl. Qed.

Lemma ltb_trans (a b c : float) :
  (a <? b) = true -> (b <? c) = true -> (a <? c) = true.
Proof. rewrite !ltb_spec; apply SFltb_trans. Qed.

Lemma ltb_irrefl (a : float) : (a <? a) = false.
Proof. rewrite ltb_spec; apply SFltb_irrefl. Qed.

Lemma ltb_leb (a b : float) : (a <? b) = true -> (a <=? b) = true.
Proof. rewrite ltb_spec, leb_spec; apply SFltb_leb. Qed.

Lemma leb_trans (a b c : float) :
  (a <=? b) = true -> (b <=? c) = true -> (a <=? c) = true.
Proof. rewrite !leb_spec; apply SFleb_trans. Qed.

Lemma leb_total (a b : float) :
  is_nan a = false -> is_nan b = false -> (b <? a) = false -> (a <=? b) = true.
Proof.
  rewrite !is_nan_spec, ltb_spec, leb_spec; intros Na Nb.
  apply negb_false_iff in Na, Nb; now apply SFleb_total.
Qed.

Lemma eqb_not_ltb (a b c : float) :
  (a =? c) = true -> (b =? c) = true -> (b <? a) = false.
Proof. rewrite !eqb_spec, ltb_spec; apply SFeqb_not_ltb. Qed.

End FloatOrder.

(* ================================================================== *)
(** * language_processor.py: properties *)
(* ================================================================== *)

Module LanguageProcessorSpec.
Import PyStrFacts.

(** Was the translation backend called? *)
Definition calls_translate (t : list event) : bool :=
  existsb (fun ev => match ev with EvTranslate _ => true | _ => false end) t.

(** The texts [detect_language] answers without looking further. *)
Definition blank (udb : UnicodeData) (text : pystr) : Prop :=
  text = [] \/ forallb (isspace udb) text = true.

Definition no_alnum (udb : UnicodeData) (text : pystr) : Prop :=
  forallb (fun ch => negb (isalnum udb ch)) text = true.

Lemma blank_guard (udb : UnicodeData) (text : pystr) :
  is_empty text || is_empty (strip udb text) = true <-> blank udb text.
Proof.
  unfold blank; rewrite orb_true_iff, strip_empty.
  destruct text; simpl; intuition discriminate.
Qed.

Section WithServices.
Variable udb : UnicodeData.
Variable svc : Services.

Lemma detect_language_returns (text : pystr) :
  exists lang, result (detect_language udb svc text) = Returns lang.
Proof.
  unfold detect_language, detect.
  destruct (is_empty text || is_empty (strip udb text)); [run; eauto|].
  destruct (forallb (fun ch => negb (isalnum udb ch)) text); [run; eauto|].
  destruct (langdetect_detect svc text); run; eauto.
Qed.

(** C4.  [detect_language] answers 'unknown', with no call to the detector,
    for a text that is empty, made of whitespace only, or without any
    alphanumeric character; a failure of the detector is answered 'unknown'
    too; and no text makes [detect_language] raise. *)
Theorem detect_language_safe (text : pystr) :
  (blank udb text \/ no_alnum udb text ->
   detect_language udb svc text = ([], Returns (py "unknown"))) /\
  (forall e, langdetect_detect svc text = Raises e ->
   result (detect_language udb svc text) = Returns (py "unknown")) /\
  (exists lang, result (detect_language udb svc text) = Returns lang).
Proof.
  split; [|split].
  - intros H; unfold detect_language.
    destruct (is_empty text || is_empty (strip udb text)) eqn:B; [reflexivity|].
    destruct H as [H | H].
    + apply blank_guard in H; congruence.
    + unfold no_alnum in H; rewrite H; reflexivity.
  - intros e He; unfold detect_language, detect.
    destruct (is_empty text || is_empty (strip udb text)); [reflexivity|].
    destruct (forallb (fun ch => negb (isalnum udb ch)) text); [reflexivity|].
    rewrite He; reflexivity.
  - apply detect_language_returns.
Qed.

(** The language [translate_to_english] goes by: the one supplied, or else
    the one detected. *)
Definition source_language (text : pystr) (src_lang : option pystr)
    : outcome pystr :=
  match src_lang with
  | Some l => Returns l
  | None => result (detect_language udb svc text)
  end.

Definition english_or_unknown (l : pystr) : Prop :=
  l = py "en" \/ l = py "unknown".

Lemma english_or_unknown_guard (l : pystr) :
  existsb (str_eqb l) [py "en"; py "unknown"] = true <-> english_or_unknown l.
Proof.
  unfold english_or_unknown; simpl.
  rewrite !orb_true_iff, !str_eqb_eq; intuition discriminate.
Qed.

Lemma calls_translate_app (t1 t2 : list event) :
  calls_translate (t1 ++ t2) = calls_translate t1 || calls_translate t2.
Proof. apply existsb_app. Qed.

Lemma detect_language_trace (text : pystr) :
  calls_translate (trace (detect_language udb svc text)) = false.
Proof.
  unfold detect_language, detect.
  destruct (is_empty text || is_empty (strip udb text)); [reflexivity|].
  destruct (forallb (fun ch => negb (isalnum udb ch)) text); [reflexivity|].
  destruct (langdetect_detect svc text); reflexivity.
Qed.

(** What [translate_to_english] does once the language is known. *)
Lemma translate_to_english_cases (text : pystr) (src_lang : option pystr) :
  let m := translate_to_english udb svc text src_lang in
  (blank udb text /\ m = ([], Returns text)) \/
  (~ blank udb text /\
   exists l, source_language text src_lang = Returns l /\
     ((english_or_unknown l /\ result m = Returns text /\
       calls_translate (trace m) = false) \/
      (~ english_or_unknown l /\ calls_translate (trace m) = true /\
       result m = Returns match google_translate svc text with
                          | Returns (Some t) => t
                          | _ => text
                          end))).
Proof.
  intros m; subst m; unfold translate_to_english.
  destruct (is_empty text || is_empty (strip udb text)) eqn:B.
  - left; split; [now apply blank_guard | reflexivity].
  - right; split; [rewrite <- blank_guard; congruence|].
    assert (Hsrc : exists l t,
              match src_lang with
              | Some l => ret l
              | None => detect_language udb svc text
              end = (t, Returns l) /\
              source_language text src_lang = Returns l /\
              calls_translate t = false).
    { destruct src_lang as [l|]; simpl.
      - exists l, []; auto.
      - destruct (detect_language_returns text) as [l Hl].
        pose proof (detect_language_trace text) as Ht.
        destruct (detect_language udb svc text) as [t r]; simpl in *; subst r.
        exists l, t; auto. }
    destruct Hsrc as (l & t & -> & Hl & Ht).
    exists l; split; [exact Hl|].
    unfold bind.
    destruct (existsb (str_eqb l) [py "en"; py "unknown"]) eqn:E.
    + left; split; [now apply english_or_unknown_guard|].
      run; now rewrite app_nil_r.
    + right; split; [rewrite <- english_or_unknown_guard; congruence|].
      unfold translate.
      destruct (google_translate svc text) as [[tr|]|e]; run;
        rewrite ?app_nil_r, calls_translate_app; simpl;
        rewrite orb_true_r; auto.
Qed.

Lemma translate_to_english_returns (text : pystr) (src_lang : option pystr) :
  exists r, result (translate_to_english udb svc text src_lang) = Returns r.
Proof.
  pose proof (translate_to_english_cases text src_lang) as H; cbv zeta in H.
  destruct H as [[_ Hm] | (_ & l & _ & [(_ & Hr & _) | (_ & _ & Hr)])];
    [rewrite Hm; run|rewrite Hr|rewrite Hr]; eauto.
Qed.

(** C3, as the code has it.  [translate_to_english] never raises.  When the
    supplied or detected language is 'en' or 'unknown' it returns the text
    unchanged and the backend is not called.  When the backend is called and
    answers [None] or raises, the text is returned unchanged; when it answers
    a string, that string is returned as it is.  So a non-empty text gives an
    empty result only when the backend itself answered the empty string. *)
Theorem translate_to_english_safe (text : pystr) (src_lang : option pystr) :
  let m := translate_to_english udb svc text src_lang in
  (exists r, result m = Returns r) /\
  (forall l, source_language text src_lang = Returns l ->
     english_or_unknown l ->
     result m = Returns text /\ calls_translate (trace m) = false) /\
  (calls_translate (trace m) = true ->
     result m = Returns match google_translate svc text with
                        | Returns (Some t) => t
                        | _ => text
                        end) /\
  (text <> [] -> result m = Returns [] ->
     google_translate svc text = Returns (Some [])).
Proof.
  intros m; unfold m; clear m.
  pose proof (translate_to_english_cases text src_lang) as H; cbv zeta in H.
  destruct H as [[Hb Hm] | (Hb & l & Hl & [(He & Hr & Ht) | (He & Ht & Hr)])].
  - rewrite Hm; run; split; [eauto | split; [auto | split]].
    + discriminate.
    + intros Hne Hnil; injection Hnil as ->; destruct Hb as [Hb | Hb];
        [contradiction | congruence].
  - rewrite Hr, Ht; split; [eauto | split; [auto | split]].
    + discriminate.
    + intros Hne Hnil; injection Hnil as ->; contradiction.
  - rewrite Hr, Ht; split; [eauto | split; [| split]].
    + intros l' Hl' He'; rewrite Hl in Hl'; injection Hl' as <-; contradiction.
    + reflexivity.
    + intros Hne Hnil; injection Hnil as Hnil.
      destruct (google_translate svc text) as [[t|]|e];
        [now subst t | contradiction | contradiction].
Qed.

End WithServices.

(** A backend that answers the empty string, behind a detector that answers
    'fr'. *)
Definition empty_translation : Services :=
  {| langdetect_detect := fun _ => Returns (py "fr");
     google_translate := fun _ => Returns (Some []);
     textblob_sentiment := fun _ => Returns (Some 0%float) |}.

(** C3, as stated, fails: the backend is called on a non-empty text, answers
    the empty string, and the empty string is what comes back. *)
Lemma translate_to_english_may_return_empty :
  let m := translate_to_english ascii_only empty_translation (py "bonjour") None in
  py "bonjour" <> [] /\
  calls_translate (trace m) = true /\
  google_translate empty_translation (py "bonjour") = Returns (Some []) /\
  result m = Returns [] /\
  result m <> Returns (py "bonjour").
Proof. repeat split; try reflexivity; discriminate. Qed.

(** English text: returned as it is, and the backend is left alone. *)
Lemma translate_to_english_safe_witness :
  let svc := {| langdetect_detect := fun _ => Returns (py "en");
                google_translate := fun _ => Raises (LibraryError (py "down"));
                textblob_sentiment := fun _ => Returns None |} in
  let m := translate_to_english ascii_only svc (py "nice video") None in
  result m = Returns (py "nice video") /\ calls_translate (trace m) = false.
Proof.
  intros svc m.
  refine (proj1 (proj2 (translate_to_english_safe ascii_only svc
                          (py "nice video") None)) (py "en") _ _).
  - reflexivity.
  - left; reflexivity.
Defined.

Lemma detect_language_safe_witness :
  detect_language ascii_only empty_translation (py "  !?  ")
  = ([], Returns (py "unknown")).
Proof.
  refine (proj1 (detect_language_safe ascii_only empty_translation
                   (py "  !?  ")) _).
  right; reflexivity.
Defined.

End LanguageProcessorSpec.

(* ================================================================== *)
(** * sentiment_analyzer.py: properties of analyze_sentiment *)
(* ================================================================== *)

Module SentimentAnalyzerSpec.
Import PyStrFacts FloatOrder.
Local Open Scope float_scope.

(** The thresholds, in the words of the specification. *)
Definition label_of (polarity : float) : pystr :=
  if 0.1 <? polarity then py "Positive"
  else if polarity <? - 0.1 then py "Negative"
  else py "Neutral".

Lemma below_is_not_above (p : float) : (p <? - 0.1) = true -> (0.1 <? p) = false.
Proof.
  intros H; destruct (0.1 <? p) eqn:E; [|reflexivity].
  pose proof (ltb_trans _ _ _ E H) as C.
  vm_compute in C; discriminate.
Qed.

Lemma label_of_spec (p : float) :
  (label_of p = py "Positive" <-> (0.1 <? p) = true) /\
  (label_of p = py "Negative" <-> (p <? - 0.1) = true) /\
  (label_of p = py "Neutral" <-> (0.1 <? p) = false /\ (p <? - 0.1) = false).
Proof.
  unfold label_of.
  destruct (0.1 <? p) eqn:A; destruct (p <? - 0.1) eqn:B;
    try (apply below_is_not_above in B; congruence);
    repeat split; intros; try discriminate; try reflexivity;
    intuition discriminate.
Qed.

Section WithServices.
Variable svc : Services.

(** What [analyze_sentiment] returns, by what the scorer did. *)
Lemma analyze_sentiment_run (text : pystr) :
  exists r,
    result (analyze_sentiment svc text) = Returns r /\
    sr_sentiment r = label_of (sr_polarity r) /\
    (forall p, textblob_sentiment svc text = Returns (Some p) ->
       sr_polarity r = p) /\
    (forall e, textblob_sentiment svc text = Raises e ->
       r = {| sr_sentiment := py "Neutral"; sr_polarity := 0.0 |}).
Proof.
  unfold analyze_sentiment, bind.
  destruct (textblob_sentiment svc text) as [[p|]|e]; run;
    eexists; (split; [reflexivity|]); simpl;
    (split; [reflexivity|]); split; intros; congruence.
Qed.

(** C2.  [analyze_sentiment] always returns; its label is the threshold
    function of the polarity it returns: 'Positive' exactly above 0.1,
    'Negative' exactly below -0.1 and 'Neutral' otherwise, the two boundary
    values included; and when the scorer raises the answer is 'Neutral' with
    polarity 0.0. *)
Theorem analyze_sentiment_label (text : pystr) :
  exists r,
    result (analyze_sentiment svc text) = Returns r /\
    sr_sentiment r = label_of (sr_polarity r) /\
    (sr_sentiment r = py "Positive" <-> (0.1 <? sr_polarity r) = true) /\
    (sr_sentiment r = py "Negative" <-> (sr_polarity r <? - 0.1) = true) /\
    (sr_sentiment r = py "Neutral" <->
       (0.1 <? sr_polarity r) = false /\ (sr_polarity r <? - 0.1) = false) /\
    (forall p, textblob_sentiment svc text = Returns (Some p) ->
       sr_polarity r = p) /\
    (forall e, textblob_sentiment svc text = Raises e ->
       r = {| sr_sentiment := py "Neutral"; sr_polarity := 0.0 |}).
Proof.
  destruct (analyze_sentiment_run text) as (r & Hr & Hl & Hp & He).
  exists r; rewrite Hl.
  destruct (label_of_spec (sr_polarity r)) as (P & N & U).
  split; [exact Hr|]; split; [reflexivity|]; split; [exact P|].
  split; [exact N|]; split; [exact U|]; split; assumption.
Qed.

End WithServices.

(** The four boundary inputs of the specification. *)
Example label_of_boundaries :
  label_of 0.1 = py "Neutral" /\
  label_of 0.1000001 = py "Positive" /\
  label_of (- 0.1) = py "Neutral" /\
  label_of (- 0.1000001) = py "Negative".
Proof. repeat split; reflexivity. Qed.

End SentimentAnalyzerSpec.

(* ================================================================== *)
(** * sentiment_analyzer.py: properties of detect_toxicity *)
(* ================================================================== *)

Module ToxicitySpec.
Import PyStrFacts RegexFacts.

(** [needle] occurs in [haystack]. *)
Definition substring (needle haystack : pystr) : Prop :=
  exists a b, haystack = a ++ needle ++ b.

Lemma keywords_ascii (k : pystr) :
  In k toxicity_keywords -> forallb is_ascii k = true.
Proof.
  assert (H : forallb (forallb is_ascii) toxicity_keywords = true)
    by (vm_compute; reflexivity).
  rewrite forallb_forall in H; apply H.
Qed.

Section WithUnicode.
Variable udb : UnicodeData.

Lemma keyword_found (text : pystr) :
  existsb (fun keyword => contains keyword (lower udb text)) toxicity_keywords
  = true <->
  exists k, In k toxicity_keywords /\ substring k (lower udb text).
Proof.
  rewrite existsb_exists; split; intros (k & Hk & H); exists k; split; auto;
    now apply contains_spec.
Qed.

Lemma pattern_found (text : pystr) :
  existsb (fun pattern => truthy (re_search udb pattern (lower udb text)))
          (toxic_patterns udb) = true <->
  exists p, In p (toxic_patterns udb) /\ found udb p (lower udb text).
Proof.
  rewrite existsb_exists; split; intros (p & Hp & H); exists p; split; auto.
  - apply re_search_spec.
    destruct (re_search udb p (lower udb text)); [discriminate|discriminate].
  - apply re_search_spec in H.
    destruct (re_search udb p (lower udb text)); [reflexivity|congruence].
Qed.

(** C5.  [detect_toxicity] is a total function of the text: it answers true
    exactly when the lower-cased text contains a keyword of the blocklist or
    one of the fixed patterns is found in it.  So a keyword written in any
    mix of upper and lower case, inside any surrounding text, is flagged; and
    a text whose lower-casing has no keyword and no pattern is not. *)
Theorem detect_toxicity_spec (text : pystr) :
  (detect_toxicity udb text = true <->
     (exists k, In k toxicity_keywords /\ substring k (lower udb text)) \/
     (exists p, In p (toxic_patterns udb) /\ found udb p (lower udb text))) /\
  (forall k w a b, In k toxicity_keywords -> map ascii_lower w = k ->
     detect_toxicity udb (a ++ w ++ b) = true) /\
  ((forall k, In k toxicity_keywords -> ~ substring k (lower udb text)) ->
   (forall p, In p (toxic_patterns udb) -> ~ found udb p (lower udb text)) ->
   detect_toxicity udb text = false).
Proof.
  assert (Hiff : forall t, detect_toxicity udb t = true <->
     (exists k, In k toxicity_keywords /\ substring k (lower udb t)) \/
     (exists p, In p (toxic_patterns udb) /\ found udb p (lower udb t))).
  { intros t; rewrite <- keyword_found, <- pattern_found.
    unfold detect_toxicity.
    destruct (existsb (fun keyword => contains keyword (lower udb t))
                toxicity_keywords);
      destruct (existsb
                  (fun pattern => truthy (re_search udb pattern (lower udb t)))
                  (toxic_patterns udb));
      intuition discriminate. }
  split; [apply Hiff | split].
  - intros k w a b Hk Hw.
    apply Hiff; left; exists k; split; [exact Hk|].
    pose proof (lower_case_variant_ascii w k Hw (keywords_ascii k Hk)) as Hascii.
    destruct (lower_embedded udb a w b Hascii) as (x & y & Hxy).
    exists x, y; now rewrite Hxy, Hw.
  - intros Hk Hp.
    destruct (detect_toxicity udb text) eqn:E; [|reflexivity].
    apply Hiff in E as [(k & Hin & Hsub) | (p & Hin & Hm)].
    + now apply Hk in Hsub.
    + now apply Hp in Hm.
Qed.

End WithUnicode.

(** A keyword in capitals inside a sentence. *)
Lemma detect_toxicity_spec_witness :
  detect_toxicity ascii_only (py "that was " ++ py "StUpId" ++ py ", sorry")
  = true.
Proof.
  refine (proj1 (proj2 (detect_toxicity_spec ascii_only []))
            (py "stupid") (py "StUpId") (py "that was ") (py ", sorry") _ _).
  - unfold toxicity_keywords; simpl; tauto.
  - reflexivity.
Defined.

(** The patterns at work, and a clean sentence. *)
Example detect_toxicity_runs :
  detect_toxicity ascii_only (py "You  ARE a   Moron") = true /\
  detect_toxicity ascii_only (py "go DIE.") = true /\
  detect_toxicity ascii_only (py "my diet") = false /\
  detect_toxicity ascii_only (py "This video is great") = false /\
  detect_toxicity ascii_only (py "whatever") = true /\
  detect_toxicity ascii_only [] = false.
Proof. repeat split; vm_compute; reflexivity. Qed.

End ToxicitySpec.

(* ================================================================== *)
(** * youtube_api.py: properties of the two fetchers *)
(* ================================================================== *)

Module YoutubeApiSpec.
Import PyStrFacts.

Definition page : Type := (list api_item * option pystr)%type.

(** The comments a sequence of pages holds, in order. *)
Definition page_comments (ps : list page) : list RawComment :=
  flat_map (fun p => map comment_of_item (fst p)) ps.

(** The number of items of a sequence of pages. *)
Definition items_in (ps : list page) : nat := List.length (page_comments ps).

(** The pages answered to a sequence of requests. *)
Definition answers (u : upstream) (reqs : list api_request) : list page :=
  map snd (replay u reqs).

Scheme upstream_mut := Induction for upstream Sort Prop
  with api_response_mut := Induction for api_response Sort Prop.

(** Induction along the conversation: a property holds of a service when it
    is passed on from whatever the service becomes after an answer. *)
Lemma upstream_induction (P : upstream -> Prop) :
  (forall execute,
     (forall req items token rest,
        execute req = Response items token rest -> P rest) ->
     P (Upstream execute)) ->
  forall u, P u.
Proof.
  intros H.
  apply (upstream_mut P
           (fun r => match r with
                     | Response _ _ rest => P rest
                     | ExecuteRaises _ => True
                     end)); auto.
  intros execute IH; apply H.
  intros req items token rest E.
  specialize (IH req); now rewrite E in IH.
Qed.

Lemma items_in_nil : items_in [] = 0%nat.
Proof. reflexivity. Qed.

Lemma items_in_cons (p : page) (ps : list page) :
  items_in (p :: ps) = (List.length (fst p) + items_in ps)%nat.
Proof.
  unfold items_in, page_comments; simpl.
  now rewrite length_app, length_map.
Qed.

Section Loop.
Variable video_id : pystr.
Variable max_results : Z.

(** The request the capped loop sends when [fetched] comments are in hand. *)
Definition capped_request (fetched : nat) (token : option pystr) : api_request :=
  {| req_videoId := video_id;
     req_maxResults := Z.min 100 (max_results - Z.of_nat fetched);
     req_pageToken := token |}.

Lemma fetch_loop_step (execute : api_request -> api_response)
    (comments : list RawComment) (token : option pystr) :
  fetch_loop (Upstream execute) video_id max_results comments token =
  if (Z.of_nat (List.length comments) <? max_results)%Z then
    let request := capped_request (List.length comments) token in
    match execute request with
    | ExecuteRaises e => call (EvExecute request) (fetch_error e)
    | Response items next rest =>
        if falsy next
        then call (EvExecute request)
               (Returns (comments ++ map comment_of_item items))
        else after_call (EvExecute request)
               (fetch_loop rest video_id max_results
                  (comments ++ map comment_of_item items) next)
    end
  else ret comments.
Proof. reflexivity. Qed.

Lemma trace_call {A} (ev : event) (r : outcome A) : trace (call ev r) = [ev].
Proof. reflexivity. Qed.

Lemma result_call {A} (ev : event) (r : outcome A) : result (call ev r) = r.
Proof. reflexivity. Qed.

Lemma trace_after_call {A} (ev : event) (m : M A) :
  trace (after_call ev m) = ev :: trace m.
Proof. reflexivity. Qed.

Lemma result_after_call {A} (ev : event) (m : M A) :
  result (after_call ev m) = result m.
Proof. reflexivity. Qed.

Lemma trace_ret {A} (a : A) : trace (ret a) = [].
Proof. reflexivity. Qed.

Lemma result_ret {A} (a : A) : result (ret a) = Returns a.
Proof. reflexivity. Qed.

Create Rewrite HintDb effects.
Hint Rewrite @trace_call @result_call @trace_after_call @result_after_call
  @trace_ret @result_ret : effects.

(** The four ways one turn of the capped loop can go. *)
Ltac loop_cases C E F :=
  rewrite fetch_loop_step;
  match goal with
  | |- context [(Z.of_nat (List.length ?c) <? max_results)%Z] =>
      destruct (Z.of_nat (List.length c) <? max_results)%Z eqn:C;
      [ cbv zeta;
        match goal with
        | |- context [?execute (capped_request ?n ?t)] =>
            destruct (execute (capped_request n t)) as [? | ? ? ?] eqn:E;
            [ | match goal with
                | |- context [falsy ?next] => destruct (falsy next) eqn:F
                end ]
        end
      | ]
  end;
  autorewrite with effects; simpl requests_of.

Lemma answers_cons (execute : api_request -> api_response)
    (req : api_request) (reqs : list api_request) items token rest :
  execute req = Response items token rest ->
  answers (Upstream execute) (req :: reqs) = (items, token) :: answers rest reqs.
Proof. intros E; unfold answers; simpl; now rewrite E. Qed.

(** Each request of the capped loop asks for as many items as are still
    missing, and never more than 100. *)
Lemma fetch_loop_sizes (u : upstream) :
  forall comments token i req,
    let reqs := requests_of
                  (trace (fetch_loop u video_id max_results comments token)) in
    nth_error reqs i = Some req ->
    req_maxResults req =
      Z.min 100 (max_results
                 - Z.of_nat (List.length comments
                             + items_in (firstn i (answers u reqs)))).
Proof.
  induction u as [execute IH] using upstream_induction.
  intros comments token i req; cbv zeta.
  loop_cases C E F.
  - destruct i as [|[|i]]; simpl; try discriminate.
    intros [= <-]; simpl; now rewrite items_in_nil, Nat.add_0_r.
  - destruct i as [|[|i]]; simpl; try discriminate.
    intros [= <-]; simpl; now rewrite items_in_nil, Nat.add_0_r.
  - rewrite (answers_cons _ _ _ _ _ _ E).
    destruct i as [|i]; simpl.
    + intros [= <-]; simpl; now rewrite items_in_nil, Nat.add_0_r.
    + intros H; rewrite (IH _ _ _ _ E _ _ _ _ H).
      rewrite items_in_cons, length_app, length_map; simpl.
      f_equal; lia.
  - destruct i; discriminate.
Qed.

(** A run of the capped loop that returns: what it returns, and where it
    stopped. *)
Lemma fetch_loop_returns (u : upstream) :
  forall comments token out,
    let m := fetch_loop u video_id max_results comments token in
    let reqs := requests_of (trace m) in
    let pages := answers u reqs in
    result m = Returns out ->
    out = comments ++ page_comments pages /\
    List.length pages = List.length reqs /\
    (pages = [] <-> (max_results <= Z.of_nat (List.length comments))%Z) /\
    (forall i p, nth_error pages i = Some p ->
       (Z.of_nat (List.length comments + items_in (firstn i pages))
        < max_results)%Z /\
       (S i = List.length pages <->
        falsy (snd p) = true \/
        (max_results
         <= Z.of_nat (List.length comments + items_in (firstn (S i) pages)))%Z)).
Proof.
  induction u as [execute IH] using upstream_induction.
  intros comments token out; cbv zeta.
  loop_cases C E F.
  - discriminate.
  - rewrite (answers_cons _ _ _ _ _ _ E); unfold answers; simpl.
    intros [= <-]; unfold page_comments; simpl; rewrite app_nil_r.
    apply Z.ltb_lt in C.
    repeat split; try discriminate; try lia.
    + destruct i as [|[|i]]; simpl in *; try discriminate.
      rewrite items_in_nil; lia.
    + destruct i as [|[|i]]; simpl in *; try discriminate.
      injection H as <-; auto.
    + destruct i as [|[|i]]; simpl in *; try discriminate; reflexivity.
  - rewrite (answers_cons _ _ _ _ _ _ E).
    intros Hout.
    destruct (IH _ _ _ _ E _ _ _ Hout) as (Ho & Hlen & Hnil & Hstop);
      clear IH.
    set (reqs' := requests_of (trace (fetch_loop rest video_id max_results
                     (comments ++ map comment_of_item items) nextPageToken)))
      in *.
    set (pages' := answers rest reqs') in *.
    rewrite length_app, length_map in Hnil, Hstop.
    apply Z.ltb_lt in C.
    split; [|split; [|split]].
    + rewrite Ho; unfold page_comments; simpl; now rewrite <- app_assoc.
    + simpl; now rewrite Hlen.
    + split; [discriminate | lia].
    + intros [|i] p Hp; simpl in Hp.
      * injection Hp as <-; simpl firstn.
        rewrite items_in_nil, items_in_cons, items_in_nil; simpl.
        split; [lia|].
        split.
        -- intros Hl; right.
           assert (Hp' : pages' = []) by (destruct pages'; [reflexivity | discriminate]).
           apply Hnil in Hp'; lia.
        -- intros [Hf | Hn]; [congruence|].
           assert (Hp' : pages' = []) by (apply Hnil; lia).
           now rewrite Hp'.
      * destruct (Hstop i p Hp) as [Hlt Hend].
        simpl firstn; rewrite !items_in_cons; simpl fst; simpl List.length.
        split; [lia|].
        rewrite <- (Nat.add_assoc (List.length comments)) in Hend.
        rewrite <- Hend; lia.
  - intros [= <-]; unfold answers; simpl.
    apply Z.ltb_ge in C.
    unfold page_comments; simpl; rewrite app_nil_r.
    repeat split; auto; try lia; destruct i; discriminate.
Qed.

(** A failed request ends the capped loop with that failure, wrapped; and
    nothing else makes it raise. *)
Lemma fetch_loop_failure (u : upstream) :
  forall comments token,
    let m := fetch_loop u video_id max_results comments token in
    match first_failure u (requests_of (trace m)) with
    | Some e => result m = fetch_error e
    | None => exists out, result m = Returns out
    end.
Proof.
  induction u as [execute IH] using upstream_induction.
  intros comments token; cbv zeta.
  loop_cases C E F; simpl; rewrite ?E; eauto.
  apply (IH _ _ _ _ E).
Qed.

(** ** The uncapped loop *)

Definition full_request (token : option pystr) : api_request :=
  {| req_videoId := video_id; req_maxResults := 100; req_pageToken := token |}.

Lemma fetch_all_loop_step (execute : api_request -> api_response)
    (comments : list RawComment) (token : option pystr) :
  fetch_all_loop (Upstream execute) video_id comments token =
  match execute (full_request token) with
  | ExecuteRaises e => call (EvExecute (full_request token)) (fetch_error e)
  | Response items next rest =>
      if falsy next
      then call (EvExecute (full_request token))
             (Returns (comments ++ map comment_of_item items))
      else after_call (EvExecute (full_request token))
             (fetch_all_loop rest video_id
                (comments ++ map comment_of_item items) next)
  end.
Proof. reflexivity. Qed.

Ltac all_loop_cases E F :=
  rewrite fetch_all_loop_step;
  match goal with
  | |- context [?execute (full_request ?t)] =>
      destruct (execute (full_request t)) as [? | ? ? ?] eqn:E;
      [ | match goal with
          | |- context [falsy ?next] => destruct (falsy next) eqn:F
          end ]
  end;
  autorewrite with effects; simpl requests_of.

(** A run of the uncapped loop that returns: every answered page is in the
    result, every request asks for 100 items, and the last page is the first
    one without a token. *)
Lemma fetch_all_loop_returns (u : upstream) :
  forall comments token out,
    let m := fetch_all_loop u video_id comments token in
    let reqs := requests_of (trace m) in
    let pages := answers u reqs in
    result m = Returns out ->
    out = comments ++ page_comments pages /\
    List.length pages = List.length reqs /\
    Forall (fun req => req_maxResults req = 100%Z) reqs /\
    (forall i p, nth_error pages i = Some p ->
       (S i = List.length pages <-> falsy (snd p) = true)).
Proof.
  induction u as [execute IH] using upstream_induction.
  intros comments token out; cbv zeta.
  all_loop_cases E F.
  - discriminate.
  - rewrite (answers_cons _ _ _ _ _ _ E); unfold answers; simpl.
    intros [= <-]; unfold page_comments; simpl; rewrite app_nil_r.
    repeat split; auto.
    + destruct i as [|[|i]]; simpl in *; try discriminate.
      injection H as <-; auto.
    + destruct i as [|[|i]]; simpl in *; try discriminate; reflexivity.
  - rewrite (answers_cons _ _ _ _ _ _ E).
    intros Hout.
    destruct (IH _ _ _ _ E _ _ _ Hout) as (Ho & Hlen & Hsz & Hstop); clear IH.
    split; [|split; [|split]].
    + rewrite Ho; unfold page_comments; simpl; now rewrite <- app_assoc.
    + simpl; now rewrite Hlen.
    + constructor; [reflexivity | exact Hsz].
    + intros [|i] p Hp; simpl in Hp.
      * injection Hp as <-; simpl.
        split; [|congruence].
        intros Hl; exfalso.
        (* the loop went on, so a further page was answered *)
        revert Hout Hlen Hl; clear.
        destruct rest as [execute'].
        rewrite fetch_all_loop_step.
        destruct (execute' (full_request nextPageToken))
          as [e | items' token' rest'] eqn:E';
          [ autorewrite with effects; discriminate | ].
        destruct (falsy token');
          autorewrite with effects; simpl requests_of;
          rewrite (answers_cons _ _ _ _ _ _ E'); simpl; lia.
      * simpl; rewrite <- (Hstop i p Hp); lia.
Qed.

Lemma fetch_all_loop_failure (u : upstream) :
  forall comments token,
    let m := fetch_all_loop u video_id comments token in
    match first_failure u (requests_of (trace m)) with
    | Some e => result m = fetch_error e
    | None => exists out, result m = Returns out
    end.
Proof.
  induction u as [execute IH] using upstream_induction.
  intros comments token; cbv zeta.
  all_loop_cases E F; simpl; rewrite ?E; eauto.
  apply (IH _ _ _ _ E).
Qed.

(** ** A finite sequence of pages *)

(** Pages as a paginated listing presents them: every page but the last
    carries a token, the last one does not. *)
Fixpoint page_sequence (pages : list page) : bool :=
  match pages with
  | [] => false
  | [p] => falsy (snd p)
  | p :: ps => negb (falsy (snd p)) && page_sequence ps
  end.

Lemma page_sequence_cons (p : page) (ps : list page) :
  page_sequence (p :: ps) = true ->
  (ps = [] /\ falsy (snd p) = true) \/
  (falsy (snd p) = false /\ page_sequence ps = true).
Proof.
  destruct ps as [|q ps]; [auto|].
  change (negb (falsy (snd p)) && page_sequence (q :: ps) = true -> 
          (q :: ps = [] /\ falsy (snd p) = true) \/
          (falsy (snd p) = false /\ page_sequence (q :: ps) = true)).
  intros H; apply andb_true_iff in H as [H1 H2].
  apply negb_true_iff in H1; auto.
Qed.

Lemma scripted_cons (p : page) (ps : list page) :
  scripted (p :: ps) = Upstream (fun _ => Response (fst p) (snd p) (scripted ps)).
Proof. destruct p; reflexivity. Qed.

Lemma fetch_all_loop_scripted (pages after : list page) :
  forall comments token,
    page_sequence pages = true ->
    let m := fetch_all_loop (scripted (pages ++ after)) video_id comments token in
    result m = Returns (comments ++ page_comments pages) /\
    List.length (requests_of (trace m)) = List.length pages.
Proof.
  induction pages as [|p ps IH]; intros comments token Hseq; [discriminate|].
  cbv zeta; rewrite <- app_comm_cons, scripted_cons, fetch_all_loop_step.
  unfold page_comments; simpl flat_map.
  destruct (page_sequence_cons _ _ Hseq) as [[-> Hf] | [Hf Hps]]; rewrite Hf;
    autorewrite with effects; simpl requests_of.
  - simpl; now rewrite app_nil_r.
  - destruct (IH (comments ++ map comment_of_item (fst p)) (snd p) Hps)
      as [Hr Hl].
    rewrite Hr, <- app_assoc; simpl; now rewrite Hl.
Qed.

Lemma fetch_loop_scripted (pages after : list page) :
  forall comments token,
    page_sequence pages = true ->
    exists out rest,
      result (fetch_loop (scripted (pages ++ after)) video_id max_results
                comments token) = Returns out /\
      comments ++ page_comments pages = out ++ rest /\
      (rest = [] \/ (max_results <= Z.of_nat (List.length out))%Z) /\
      ((max_results <= Z.of_nat (List.length comments))%Z -> out = comments).
Proof.
  induction pages as [|p ps IH]; intros comments token Hseq; [discriminate|].
  rewrite <- app_comm_cons, scripted_cons, fetch_loop_step.
  destruct (Z.of_nat (List.length comments) <? max_results)%Z eqn:C.
  - apply Z.ltb_lt in C; cbv zeta.
    unfold page_comments; simpl flat_map.
    destruct (page_sequence_cons _ _ Hseq) as [[-> Hf] | [Hf Hps]]; rewrite Hf;
      autorewrite with effects.
    + exists (comments ++ map comment_of_item (fst p)), [].
      simpl; rewrite !app_nil_r; repeat split; auto; lia.
    + destruct (IH (comments ++ map comment_of_item (fst p)) (snd p) Hps)
        as (out & rest & Hr & Hsplit & Hstop & _).
      exists out, rest; rewrite <- app_assoc in Hsplit.
      repeat split; auto; lia.
  - apply Z.ltb_ge in C; autorewrite with effects.
    exists comments, (page_comments (p :: ps)); repeat split; auto.
Qed.

End Loop.

(** ** The two entry points *)

Section Entry.
Variable udb : UnicodeData.
Variable YOUTUBE_API_KEY : option pystr.

Definition invalid_url : exn :=
  ValueError (py "Invalid YouTube URL or unable to extract video ID").

Definition missing_key : exn :=
  ValueError
    (py "YouTube API key not found. Please set YOUTUBE_API_KEY in .env file").

(** The identifier handed to the loops. *)
Definition resolved (video_url : pystr) : pystr :=
  match get_video_id udb video_url with Some v => v | None => [] end.

Lemma fetch_comments_run (u : upstream) (video_url : pystr) (max_results : Z) :
  let m := fetch_comments udb YOUTUBE_API_KEY u video_url max_results in
  let loop := fetch_loop u (resolved video_url) max_results [] None in
  if falsy (get_video_id udb video_url) then m = raise invalid_url
  else if falsy YOUTUBE_API_KEY then m = raise missing_key
  else
    trace m = EvBuild (key_str YOUTUBE_API_KEY) :: trace loop /\
    result m = match result loop with
               | Returns comments => Returns (slice_to max_results comments)
               | Raises e => Raises e
               end.
Proof.
  cbv zeta; unfold fetch_comments.
  destruct (falsy (get_video_id udb video_url)); [reflexivity|].
  destruct (falsy YOUTUBE_API_KEY); [reflexivity|].
  fold (resolved video_url).
  destruct (fetch_loop u (resolved video_url) max_results [] None)
    as [t [c|e]]; simpl; rewrite ?app_nil_r; auto.
Qed.

Lemma fetch_all_comments_run (u : upstream) (video_url : pystr) :
  let m := fetch_all_comments udb YOUTUBE_API_KEY u video_url in
  let loop := fetch_all_loop u (resolved video_url) [] None in
  if falsy (get_video_id udb video_url) then m = raise invalid_url
  else if falsy YOUTUBE_API_KEY then m = raise missing_key
  else
    trace m = EvBuild (key_str YOUTUBE_API_KEY) :: trace loop /\
    result m = result loop.
Proof.
  cbv zeta; unfold fetch_all_comments.
  destruct (falsy (get_video_id udb video_url)); [reflexivity|].
  destruct (falsy YOUTUBE_API_KEY); [reflexivity|].
  fold (resolved video_url).
  destruct (fetch_all_loop u (resolved video_url) [] None)
    as [t [c|e]]; simpl; auto.
Qed.

Lemma slice_to_cap {A} (n : Z) (l : list A) :
  ((n < 0)%Z -> l = []) -> slice_to n l = firstn (Z.to_nat n) l.
Proof.
  intros H; unfold slice_to.
  destruct (n <? 0)%Z eqn:E; [|reflexivity].
  apply Z.ltb_lt in E; rewrite (H E); now rewrite !firstn_nil.
Qed.

Lemma firstn_prefix {A} (n : nat) (l rest : list A) :
  rest = [] \/ (n <= List.length l)%nat ->
  firstn n l = firstn n (l ++ rest).
Proof.
  intros [-> | H]; [now rewrite app_nil_r|].
  rewrite firstn_app.
  replace (n - List.length l)%nat with 0%nat by lia.
  now rewrite firstn_O, app_nil_r.
Qed.

(** C6.  Whatever the service answers, each request of [fetch_comments] asks
    for min(100, N - fetched so far) items; when [fetch_comments] returns, it
    returns the first N comments of the answered pages, in the order they
    arrived, so at most N, and a page was the last one requested exactly when
    it carried no token or brought the count to N.  When [fetch_all_comments]
    returns, it returns the comments of every answered page, and the last page
    is the first without a token.  On a finite sequence of pages, of any
    length, both return: [fetch_comments] the first N comments of the
    sequence, [fetch_all_comments] all of them, after one request per page. *)
Theorem fetch_comments_capped (video_url : pystr) (max_results : Z) :
  (forall u,
     let m := fetch_comments udb YOUTUBE_API_KEY u video_url max_results in
     let reqs := requests_of (trace m) in
     let pages := answers u reqs in
     (forall i req, nth_error reqs i = Some req ->
        req_maxResults req =
          Z.min 100 (max_results - Z.of_nat (items_in (firstn i pages)))) /\
     (forall out, result m = Returns out ->
        out = firstn (Z.to_nat max_results) (page_comments pages) /\
        (List.length out <= Z.to_nat max_results)%nat /\
        List.length pages = List.length reqs /\
        (forall i p, nth_error pages i = Some p ->
           (Z.of_nat (items_in (firstn i pages)) < max_results)%Z /\
           (S i = List.length pages <->
            falsy (snd p) = true \/
            (max_results <= Z.of_nat (items_in (firstn (S i) pages)))%Z)))) /\
  (forall u out,
     let m := fetch_all_comments udb YOUTUBE_API_KEY u video_url in
     let reqs := requests_of (trace m) in
     let pages := answers u reqs in
     result m = Returns out ->
     out = page_comments pages /\
     List.length pages = List.length reqs /\
     Forall (fun req => req_maxResults req = 100%Z) reqs /\
     (forall i p, nth_error pages i = Some p ->
        (S i = List.length pages <-> falsy (snd p) = true))) /\
  (forall pages after,
     falsy (get_video_id udb video_url) = false ->
     falsy YOUTUBE_API_KEY = false ->
     page_sequence pages = true ->
     let u := scripted (pages ++ after) in
     result (fetch_comments udb YOUTUBE_API_KEY u video_url max_results)
     = Returns (firstn (Z.to_nat max_results) (page_comments pages)) /\
     result (fetch_all_comments udb YOUTUBE_API_KEY u video_url)
     = Returns (page_comments pages) /\
     List.length
       (requests_of (trace (fetch_all_comments udb YOUTUBE_API_KEY u video_url)))
     = List.length pages).
Proof.
  split; [|split].
  - intros u; cbv zeta.
    pose proof (fetch_comments_run u video_url max_results) as Hrun;
      cbv zeta in Hrun.
    destruct (falsy (get_video_id udb video_url));
      [rewrite Hrun; split;
         [intros [|i] req H; discriminate | intros out H; discriminate]|].
    destruct (falsy YOUTUBE_API_KEY);
      [rewrite Hrun; split;
         [intros [|i] req H; discriminate | intros out H; discriminate]|].
    destruct Hrun as [Ht Hr]; rewrite Ht, Hr; simpl requests_of.
    split.
    + intros i req H.
      now rewrite (fetch_loop_sizes (resolved video_url) max_results u
                     [] None i req H).
    + intros out Hout.
      destruct (result (fetch_loop u (resolved video_url) max_results [] None))
        as [comments|e] eqn:Hl; [|discriminate].
      injection Hout as <-.
      destruct (fetch_loop_returns (resolved video_url) max_results u
                  [] None comments Hl) as (Ho & Hlen & Hnil & Hstop).
      simpl in Ho, Hnil, Hstop.
      assert (Hcap : slice_to max_results comments
                     = firstn (Z.to_nat max_results) comments).
      { apply slice_to_cap; intros Hneg.
        assert (Hp : answers u (requests_of (trace
                       (fetch_loop u (resolved video_url) max_results [] None)))
                     = []) by (apply Hnil; lia).
        now rewrite Ho, Hp. }
      rewrite Hcap, <- Ho.
      split; [reflexivity|]; split; [apply firstn_le_length|].
      split; [exact Hlen | exact Hstop].
  - intros u out; cbv zeta.
    pose proof (fetch_all_comments_run u video_url) as Hrun; cbv zeta in Hrun.
    destruct (falsy (get_video_id udb video_url));
      [rewrite Hrun; discriminate|].
    destruct (falsy YOUTUBE_API_KEY); [rewrite Hrun; discriminate|].
    destruct Hrun as [Ht Hr]; rewrite Ht, Hr; simpl requests_of.
    intros Hout.
    apply (fetch_all_loop_returns (resolved video_url) u [] None out Hout).
  - intros pages after Hid Hkey Hseq; cbv zeta.
    pose proof (fetch_comments_run (scripted (pages ++ after)) video_url
                  max_results) as Hrun; cbv zeta in Hrun.
    pose proof (fetch_all_comments_run (scripted (pages ++ after)) video_url)
      as Hall; cbv zeta in Hall.
    rewrite Hid, Hkey in Hrun, Hall.
    destruct Hrun as [_ Hr]; destruct Hall as [Ht' Hr'].
    destruct (fetch_all_loop_scripted (resolved video_url) pages after
                [] None Hseq) as [Ha Hn].
    destruct (fetch_loop_scripted (resolved video_url) max_results pages after
                [] None Hseq) as (out & rest & Ho & Hsplit & Hstop & Hskip).
    rewrite Hr, Ho, Hr', Ha, Ht'; simpl requests_of; simpl app in *.
    split; [|split; [reflexivity | exact Hn]].
    rewrite Hsplit; f_equal.
    rewrite slice_to_cap.
    + apply firstn_prefix; destruct Hstop; [auto | right; lia].
    + intros Hneg; apply Hskip; simpl; lia.
Qed.

(** C7.  With a URL that yields no video identifier, or with no API key, both
    fetchers raise without any call leaving the process: the client is not
    even built.  A page request that fails ends the whole fetch: the fetcher
    raises, its error carries the message of the failure, and no comments are
    returned. *)
Theorem fetch_errors (video_url : pystr) (max_results : Z) (u : upstream) :
  let capped := fetch_comments udb YOUTUBE_API_KEY u video_url max_results in
  let full := fetch_all_comments udb YOUTUBE_API_KEY u video_url in
  (falsy (get_video_id udb video_url) = true ->
   capped = ([], Raises invalid_url) /\ full = ([], Raises invalid_url)) /\
  (falsy (get_video_id udb video_url) = false ->
   falsy YOUTUBE_API_KEY = true ->
   capped = ([], Raises missing_key) /\ full = ([], Raises missing_key)) /\
  (forall e, first_failure u (requests_of (trace capped)) = Some e ->
     result capped
     = Raises (PyException (py "Error fetching comments: " ++ exn_str e))) /\
  (forall e, first_failure u (requests_of (trace full)) = Some e ->
     result full
     = Raises (PyException (py "Error fetching comments: " ++ exn_str e))).
Proof.
  cbv zeta.
  pose proof (fetch_comments_run u video_url max_results) as Hc.
  pose proof (fetch_all_comments_run u video_url) as Hf.
  cbv zeta in Hc, Hf.
  destruct (falsy (get_video_id udb video_url)).
  { rewrite Hc, Hf; repeat split; try discriminate. }
  destruct (falsy YOUTUBE_API_KEY).
  { rewrite Hc, Hf; repeat split; try discriminate. }
  destruct Hc as [Hct Hcr]; destruct Hf as [Hft Hfr].
  rewrite Hct, Hcr, Hft, Hfr; simpl requests_of.
  split; [discriminate|]; split; [discriminate|]; split; intros e He.
  - pose proof (fetch_loop_failure (resolved video_url) max_results u [] None)
      as H; cbv zeta in H.
    rewrite He in H; now rewrite H.
  - pose proof (fetch_all_loop_failure (resolved video_url) u [] None)
      as H; cbv zeta in H.
    rewrite He in H; now rewrite H.
Qed.

End Entry.

(** Two pages of two comments each, to run the fetchers on. *)
Definition item (n : string) : api_item :=
  {| item_id := py n;
     authorDisplayName := py "someone";
     textDisplay := py "comment " ++ py n;
     publishedAt := py "2024-01-01T00:00:00Z";
     likeCount := 0;
     updatedAt := py "2024-01-01T00:00:00Z" |}.

Definition two_pages : list page :=
  [ ([item "1"; item "2"], Some (py "next"));
    ([item "3"; item "4"], None) ]%string.

(** Three comments are asked for: the second page is requested, and its
    second comment is cut off. *)
Lemma fetch_comments_capped_witness :
  result (fetch_comments ascii_only (Some (py "key")) (scripted two_pages)
            (py "https://youtu.be/dQw4w9WgXcQ") 3)
  = Returns (map comment_of_item [item "1"; item "2"; item "3"]%string).
Proof.
  exact (proj1 (proj2 (proj2
           (fetch_comments_capped ascii_only (Some (py "key"))
              (py "https://youtu.be/dQw4w9WgXcQ") 3))
           two_pages [] eq_refl eq_refl eq_refl)).
Defined.

(** The request sizes of that run, and of one that stops after a page. *)
Example fetch_comments_requests :
  map req_maxResults
    (requests_of (trace (fetch_comments ascii_only (Some (py "key"))
       (scripted two_pages) (py "https://youtu.be/dQw4w9WgXcQ") 3)))
  = [3; 1]%Z /\
  map req_maxResults
    (requests_of (trace (fetch_comments ascii_only (Some (py "key"))
       (scripted two_pages) (py "https://youtu.be/dQw4w9WgXcQ") 2)))
  = [2]%Z /\
  map req_maxResults
    (requests_of (trace (fetch_comments ascii_only (Some (py "key"))
       (scripted two_pages) (py "https://youtu.be/dQw4w9WgXcQ") 250)))
  = [100; 100]%Z.
Proof. repeat split; vm_compute; reflexivity. Qed.

(** The URL forms [get_video_id] reads, and two it does not. *)
Example get_video_id_forms :
  let id := Some (py "dQw4w9WgXcQ") in
  get_video_id ascii_only (py "https://www.youtube.com/watch?v=dQw4w9WgXcQ") = id /\
  get_video_id ascii_only (py "https://www.youtube.com/watch?t=5&v=dQw4w9WgXcQ") = id /\
  get_video_id ascii_only (py "https://youtu.be/dQw4w9WgXcQ?t=5") = id /\
  get_video_id ascii_only (py "https://www.youtube.com/embed/dQw4w9WgXcQ") = id /\
  get_video_id ascii_only (py "https://example.com/?v=dQw4w9WgXcQ&t=5") = id /\
  get_video_id ascii_only (py "https://example.com/?v=tooshort") = None /\
  get_video_id ascii_only (py "not a video") = None /\
  get_video_id ascii_only [] = None.
Proof. repeat split; vm_compute; reflexivity. Qed.

(** No identifier in the URL: nothing is sent. *)
Lemma fetch_errors_witness :
  fetch_comments ascii_only (Some (py "key")) (scripted two_pages)
    (py "not a video") 10
  = ([], Raises invalid_url) /\
  fetch_all_comments ascii_only (Some (py "key")) (scripted two_pages)
    (py "not a video")
  = ([], Raises invalid_url).
Proof.
  exact (proj1 (fetch_errors ascii_only (Some (py "key")) (py "not a video")
                  10 (scripted two_pages)) eq_refl).
Defined.

(** A service that fails on its second page. *)
Example fetch_fails_midway :
  let u := Upstream (fun _ =>
             Response [item "1"]%string (Some (py "next"))
               (Upstream (fun _ => ExecuteRaises (LibraryError (py "quota"))))) in
  result (fetch_comments ascii_only (Some (py "key")) u
            (py "https://youtu.be/dQw4w9WgXcQ") 10)
  = Raises (PyException (py "Error fetching comments: quota")) /\
  result (fetch_all_comments ascii_only (Some (py "key")) u
            (py "https://youtu.be/dQw4w9WgXcQ"))
  = Raises (PyException (py "Error fetching comments: quota")).
Proof. split; vm_compute; reflexivity. Qed.

End YoutubeApiSpec.

(* ================================================================== *)
(** * main.py: properties of process_comments *)
(* ================================================================== *)

Module PipelineSpec.
Import PyStrFacts LanguageProcessorSpec SentimentAnalyzerSpec.

Lemma result_bind {A B} (m : M A) (f : A -> M B) :
  result (bind m f) = match result m with
                      | Returns a => result (f a)
                      | Raises e => Raises e
                      end.
Proof.
  destruct m as [t [a|e]]; simpl; [|reflexivity].
  now destruct (f a).
Qed.

Section WithServices.
Variable udb : UnicodeData.
Variable svc : Services.

(** The text the later stages work on. *)
Definition translation (comment : RawComment) (language : pystr) : M pystr :=
  if negb (str_eqb language (py "en"))
  then translate_to_english udb svc (text comment) None
  else ret (text comment).

(** [p] is [comment] with the five derived fields, each computed from the
    input the pipeline gives it. *)
Definition enriched (comment : RawComment) (p : ProcessedComment) : Prop :=
  raw_of p = comment /\
  result (detect_language udb svc (text comment))
  = Returns (original_language p) /\
  result (translation comment (original_language p))
  = Returns (translated_text p) /\
  result (analyze_sentiment svc (translated_text p))
  = Returns {| sr_sentiment := sentiment p; sr_polarity := polarity p |} /\
  is_toxic p = detect_toxicity udb (translated_text p).

Lemma translation_returns (comment : RawComment) (language : pystr) :
  exists t, result (translation comment language) = Returns t.
Proof.
  unfold translation; destruct (negb (str_eqb language (py "en"))).
  - apply translate_to_english_returns.
  - eexists; reflexivity.
Qed.

Lemma process_comment_enriches (comment : RawComment) :
  exists p, result (process_comment udb svc comment) = Returns p /\
            enriched comment p.
Proof.
  unfold process_comment.
  destruct (detect_language_returns udb svc (text comment)) as [lang Hlang].
  destruct (translation_returns comment lang) as [t Ht].
  destruct (analyze_sentiment_run svc t) as (r & Hr & _).
  rewrite result_bind, Hlang, result_bind.
  fold (translation comment lang); rewrite Ht, result_bind, Hr.
  eexists; split; [reflexivity|].
  unfold enriched, raw_of; simpl.
  destruct comment, r; simpl in *; auto.
Qed.

Lemma process_loop_enriches (comments : list RawComment) :
  forall processed,
  exists out, result (process_loop udb svc comments processed)
              = Returns (processed ++ out) /\
              Forall2 enriched comments out.
Proof.
  induction comments as [|c comments IH]; intros processed; simpl.
  - exists []; rewrite app_nil_r; split; [reflexivity | constructor].
  - destruct (process_comment_enriches c) as (p & Hp & He).
    destruct (IH (processed ++ [p])) as (out & Hout & Hall).
    exists (p :: out); rewrite result_bind, Hp, Hout, <- app_assoc.
    split; [reflexivity | now constructor].
Qed.

Lemma enriched_raw (comments : list RawComment) (out : list ProcessedComment) :
  Forall2 enriched comments out -> map raw_of out = comments.
Proof.
  induction 1 as [|c p comments out [Hraw _] _ IH]; simpl; [reflexivity|].
  now rewrite Hraw, IH.
Qed.

Variable YOUTUBE_API_KEY : option pystr.
Variable youtube : upstream.

(** C1.  Whatever list of raw comments the fetch hands over,
    [process_comments] returns one record per comment, in the same order;
    each record keeps the six fields of its comment and adds the language
    detected on the raw text, the translated text, the sentiment label and
    polarity computed on the translated text, and the toxicity flag computed
    on the translated text.  When the fetch raises, so does
    [process_comments]. *)
Theorem process_comments_enriches (video_url : pystr) (max_comments : option Z) :
  match result (fetched udb YOUTUBE_API_KEY youtube video_url max_comments) with
  | Returns comments =>
      exists out,
        result (process_comments udb svc YOUTUBE_API_KEY youtube
                  video_url max_comments) = Returns out /\
        List.length out = List.length comments /\
        map raw_of out = comments /\
        Forall2 enriched comments out
  | Raises e =>
      result (process_comments udb svc YOUTUBE_API_KEY youtube
                video_url max_comments) = Raises e
  end.
Proof.
  unfold process_comments; rewrite result_bind.
  destruct (result (fetched udb YOUTUBE_API_KEY youtube video_url max_comments))
    as [comments|e]; [|reflexivity].
  destruct (process_loop_enriches comments []) as (out & Hout & Hall).
  exists out; split; [exact Hout|].
  split; [symmetry; eapply Forall2_length; eassumption|].
  split; [now apply enriched_raw | exact Hall].
Qed.

End WithServices.

(** A run on two fetched comments: an English one and a French one. *)
Definition demo_services : Services :=
  {| langdetect_detect := fun t =>
       if contains (py "bon") t then Returns (py "fr") else Returns (py "en");
     google_translate := fun _ => Returns (Some (py "good video"));
     textblob_sentiment := fun t =>
       if contains (py "good") t then Returns (Some 0.7%float)
       else Returns (Some 0%float) |}.

Definition demo_item (n txt : string) : api_item :=
  {| item_id := py n;
     authorDisplayName := py "someone";
     textDisplay := py txt;
     publishedAt := py "2024-01-01T00:00:00Z";
     likeCount := 0;
     updatedAt := py "2024-01-01T00:00:00Z" |}.

Example process_comments_runs :
  let u := scripted [([demo_item "1" "what a stupid take";
                       demo_item "2" "bonne video"], None)]%string in
  exists p1 p2,
    result (process_comments ascii_only demo_services (Some (py "key")) u
              (py "https://youtu.be/dQw4w9WgXcQ") (Some 10%Z))
    = Returns [p1; p2] /\
    (original_language p1, sentiment p1, is_toxic p1)
    = (py "en", py "Neutral", true) /\
    (original_language p2, translated_text p2, sentiment p2, is_toxic p2)
    = (py "fr", py "good video", py "Positive", false).
Proof. do 2 eexists; split; [vm_compute; reflexivity|]; split; reflexivity. Qed.

End PipelineSpec.

(* ================================================================== *)
(** * main.py and app.py: properties of the summary *)
(* ================================================================== *)

Module SummarySpec.
Import PyStrFacts.

(** ** Counting *)

Lemma fold_add (l : list nat) (a : nat) :
  fold_left Nat.add l a = (a + fold_left Nat.add l 0)%nat.
Proof.
  revert a; induction l as [|n l IH]; intros a; simpl; [lia|].
  rewrite (IH (a + n)%nat), (IH n); lia.
Qed.

Lemma sum_cons (n : nat) (l : list nat) : sum (n :: l) = (n + sum l)%nat.
Proof. unfold sum; simpl; apply fold_add. Qed.

Lemma sum_count_one (k : pystr) (d : dict) :
  sum (values (count_one k d)) = S (sum (values d)).
Proof.
  induction d as [|[k' n] d IH]; simpl; [reflexivity|].
  destruct (str_eqb k k'); unfold values in *; simpl; rewrite !sum_cons;
    [reflexivity | rewrite IH; lia].
Qed.

Lemma keys_count_one (k q : pystr) (d : dict) :
  In q (keys (count_one k d)) <-> q = k \/ In q (keys d).
Proof.
  induction d as [|[k' n] d IH]; simpl.
  - intuition congruence.
  - destruct (str_eqb k k') eqn:E; simpl.
    + apply str_eqb_eq in E; subst k'; intuition congruence.
    + unfold keys in *; rewrite IH; intuition congruence.
Qed.

Lemma fresh_count_one (k : pystr) (d : dict) :
  NoDup (keys d) -> NoDup (keys (count_one k d)).
Proof.
  induction d as [|[k' n] d IH]; simpl; intros H.
  - constructor; [intros [] | constructor].
  - inversion H as [|? ? Hin Hd]; subst.
    destruct (str_eqb k k') eqn:E; simpl; [now constructor|].
    constructor; [|now apply IH].
    fold (keys (count_one k d)); rewrite keys_count_one.
    intros [-> | Hq]; [|contradiction].
    now rewrite str_eqb_refl in E.
Qed.

Lemma positive_count_one (k : pystr) (d : dict) :
  Forall (fun n => 1 <= n)%nat (values d) ->
  Forall (fun n => 1 <= n)%nat (values (count_one k d)).
Proof.
  induction d as [|[k' n] d IH]; simpl; intros H.
  - repeat constructor.
  - inversion H; subst.
    destruct (str_eqb k k'); simpl; constructor; auto.
Qed.

Lemma lookup_keys (d : dict) (q : pystr) :
  dict_lookup d q = None <-> ~ In q (keys d).
Proof.
  induction d as [|[k n] d IH]; simpl; [tauto|].
  destruct (str_eqb q k) eqn:E.
  - apply str_eqb_eq in E; subst; split; [discriminate | tauto].
  - apply str_eqb_neq in E; rewrite IH; unfold keys; intuition congruence.
Qed.

Lemma lookup_values (d : dict) (q : pystr) (n : nat) :
  dict_lookup d q = Some n -> In n (values d).
Proof.
  induction d as [|[k m] d IH]; simpl; [discriminate|].
  destruct (str_eqb q k); [intros [= ->]; auto | auto].
Qed.

(** What [Counter] makes of a list, starting from the counts [d]. *)
Lemma counter_from (items : list pystr) :
  forall d,
    let d' := fold_left (fun d k => count_one k d) items d in
    sum (values d') = (sum (values d) + List.length items)%nat /\
    (forall q, In q (keys d') <-> In q (keys d) \/ In q items) /\
    (NoDup (keys d) -> NoDup (keys d')) /\
    (Forall (fun n => 1 <= n)%nat (values d) ->
     Forall (fun n => 1 <= n)%nat (values d')).
Proof.
  induction items as [|k items IH]; intros d; simpl.
  - repeat split; auto; try lia; tauto.
  - destruct (IH (count_one k d)) as (Hs & Hk & Hn & Hp).
    repeat split.
    + rewrite Hs, sum_count_one; lia.
    + rewrite Hk, keys_count_one; intuition.
    + rewrite Hk, keys_count_one; intuition.
    + intros H; now apply Hn, fresh_count_one.
    + intros H; now apply Hp, positive_count_one.
Qed.

Lemma counter_spec (items : list pystr) :
  sum (values (Counter items)) = List.length items /\
  (forall q, In q (keys (Counter items)) <-> In q items) /\
  NoDup (keys (Counter items)) /\
  Forall (fun n => 1 <= n)%nat (values (Counter items)).
Proof.
  destruct (counter_from items []) as (Hs & Hk & Hn & Hp).
  repeat split.
  - exact Hs.
  - intros H; apply Hk in H as [[] | H]; exact H.
  - intros H; apply Hk; now right.
  - apply Hn; constructor.
  - apply Hp; constructor.
Qed.

(** ** Samples *)

Lemma slice_to_firstn {A} (n : nat) (l : list A) :
  slice_to (Z.of_nat n) l = firstn n l.
Proof.
  unfold slice_to.
  destruct (Z.of_nat n <? 0)%Z eqn:E; [apply Z.ltb_lt in E; lia|].
  now rewrite Nat2Z.id.
Qed.

Lemma excerpt_spec (t : pystr) :
  ((List.length t <= 100)%nat -> excerpt t = t) /\
  ((100 < List.length t)%nat ->
   excerpt t = firstn 100 t ++ py "..." /\ List.length (excerpt t) = 103%nat).
Proof.
  unfold excerpt; split; intros H.
  - destruct (100 <? List.length t)%nat eqn:E; [|reflexivity].
    apply Nat.ltb_lt in E; lia.
  - apply Nat.ltb_lt in H as E; rewrite E.
    change 100%Z with (Z.of_nat 100); rewrite slice_to_firstn.
    split; [reflexivity|].
    rewrite length_app, length_firstn, Nat.min_l by lia; reflexivity.
Qed.

(** The texts of the comments of a label, in the order of the list. *)
Definition texts_of (label : string) (comments : list ProcessedComment)
    : list pystr :=
  map c_text (filter (with_sentiment (py label)) comments).

Lemma firstn_map {A B} (f : A -> B) (n : nat) (l : list A) :
  firstn n (map f l) = map f (firstn n l).
Proof.
  revert l; induction n as [|n IH]; intros [|x l]; simpl; auto.
  now rewrite IH.
Qed.

(** The number of times [q] occurs in [items]. *)
Definition occurrences (q : pystr) (items : list pystr) : nat :=
  List.length (filter (str_eqb q) items).

Lemma get_count_one (k q : pystr) (d : dict) :
  dict_get (count_one k d) q 0 =
  ((if str_eqb q k then 1 else 0) + dict_get d q 0)%nat.
Proof.
  unfold dict_get; induction d as [|[k' n] d IH]; simpl.
  - destruct (str_eqb q k); reflexivity.
  - destruct (str_eqb k k') eqn:Ek; simpl.
    + apply str_eqb_eq in Ek; subst k'.
      destruct (str_eqb q k) eqn:Eq; [reflexivity|].
      reflexivity.
    + destruct (str_eqb q k') eqn:Eq'.
      * apply str_eqb_eq in Eq'; subst k'.
        apply str_eqb_neq in Ek.
        destruct (str_eqb q k) eqn:Eq; [|reflexivity].
        apply str_eqb_eq in Eq; congruence.
      * exact IH.
Qed.

Lemma get_counter (items : list pystr) (q : pystr) :
  dict_get (Counter items) q 0 = occurrences q items.
Proof.
  unfold Counter, occurrences.
  change (List.length (filter (str_eqb q) items))
    with (dict_get [] q 0 + List.length (filter (str_eqb q) items))%nat.
  generalize (@nil (pystr * nat)) as d.
  induction items as [|k items IH]; intros d; simpl; [lia|].
  rewrite IH, get_count_one.
  destruct (str_eqb q k); simpl; lia.
Qed.

Section Summary.
Variable comments : list ProcessedComment.

Let summary := get_analysis_summary comments.
Let api := App.sample_comments comments.

(** C8, as the code has it.  The summary of K comments reports K as the total
    and its sentiment counts add up to K.  Each sample list holds the first
    comments of its label, in the order of the list: up to 3 in the summary,
    up to 5 in the API response.  The summary shortens a text of more than
    100 characters to its first 100 followed by '...'; the API response gives
    the texts in full. *)
Theorem summary_counts_and_samples :
  total_comments summary = List.length comments /\
  sum (values (sentiment_distribution summary)) = List.length comments /\
  (positive (sample_comments summary)
     = map excerpt (firstn 3 (texts_of "Positive" comments)) /\
   negative (sample_comments summary)
     = map excerpt (firstn 3 (texts_of "Negative" comments)) /\
   neutral (sample_comments summary)
     = map excerpt (firstn 3 (texts_of "Neutral" comments))) /\
  (positive api = firstn 5 (texts_of "Positive" comments) /\
   negative api = firstn 5 (texts_of "Negative" comments) /\
   neutral api = firstn 5 (texts_of "Neutral" comments)) /\
  (List.length (positive (sample_comments summary)) <= 3 /\
   List.length (negative (sample_comments summary)) <= 3 /\
   List.length (neutral (sample_comments summary)) <= 3 /\
   List.length (positive api) <= 5 /\
   List.length (negative api) <= 5 /\
   List.length (neutral api) <= 5)%nat /\
  (forall t,
     ((List.length t <= 100)%nat -> excerpt t = t) /\
     ((100 < List.length t)%nat ->
      excerpt t = firstn 100 t ++ py "..." /\
      List.length (excerpt t) = 103%nat)).
Proof.
  assert (Hs : forall label,
            map (fun c => excerpt (c_text c))
              (slice_to 3 (filter (with_sentiment (py label)) comments))
            = map excerpt (firstn 3 (texts_of label comments))).
  { intros label; unfold texts_of.
    change 3%Z with (Z.of_nat 3); rewrite slice_to_firstn, firstn_map.
    now rewrite map_map. }
  assert (Ha : forall label,
            slice_to 5 (map c_text
              (filter (with_sentiment (py label)) comments))
            = firstn 5 (texts_of label comments)).
  { intros label; unfold texts_of.
    change 5%Z with (Z.of_nat 5); now rewrite slice_to_firstn. }
  subst summary api; unfold get_analysis_summary, App.sample_comments; simpl.
  rewrite !Hs, !Ha, !length_map.
  split; [reflexivity|].
  split; [rewrite (proj1 (counter_spec _)); apply length_map|].
  split; [auto|]; split; [auto|].
  split; [repeat split; apply firstn_le_length|].
  apply excerpt_spec.
Qed.

(** C10.  The two distributions of the summary have a key exactly for the
    labels and the languages that occur among the comments.  A label that
    does not occur is absent, so a lookup finds nothing and a reader has to
    bring its own default; a key that is present counts the occurrences of
    its label, which are at least one. *)
Theorem distributions_are_sparse :
  let sentiments := map sentiment comments in
  let languages := map original_language comments in
  (forall label, In label (keys (sentiment_distribution summary))
                 <-> In label sentiments) /\
  (forall lang, In lang (keys (language_distribution summary))
                <-> In lang languages) /\
  (forall label, ~ In label sentiments ->
     dict_lookup (sentiment_distribution summary) label = None /\
     forall default, dict_get (sentiment_distribution summary) label default
                     = default) /\
  (forall lang, ~ In lang languages ->
     dict_lookup (language_distribution summary) lang = None /\
     forall default, dict_get (language_distribution summary) lang default
                     = default) /\
  (forall label n, dict_lookup (sentiment_distribution summary) label = Some n ->
     n = occurrences label sentiments /\ (1 <= n)%nat) /\
  (forall lang n, dict_lookup (language_distribution summary) lang = Some n ->
     n = occurrences lang languages /\ (1 <= n)%nat) /\
  Forall (fun n => 1 <= n)%nat (values (sentiment_distribution summary)) /\
  Forall (fun n => 1 <= n)%nat (values (language_distribution summary)).
Proof.
  assert (H : forall items,
    (forall q, In q (keys (Counter items)) <-> In q items) /\
    (forall q, ~ In q items ->
       dict_lookup (Counter items) q = None /\
       forall default, dict_get (Counter items) q default = default) /\
    (forall q n, dict_lookup (Counter items) q = Some n ->
       n = occurrences q items /\ (1 <= n)%nat) /\
    Forall (fun n => 1 <= n)%nat (values (Counter items))).
  { intros items.
    destruct (counter_spec items) as (_ & Hk & _ & Hp).
    split; [exact Hk|]; split; [|split; [|exact Hp]].
    - intros q Hq.
      assert (Hn : dict_lookup (Counter items) q = None)
        by (apply lookup_keys; now rewrite Hk).
      split; [exact Hn|]; intros default; unfold dict_get; now rewrite Hn.
    - intros q n Hq; split.
      + rewrite <- get_counter; unfold dict_get; now rewrite Hq.
      + rewrite Forall_forall in Hp; apply Hp.
        now apply lookup_values with q. }
  cbv zeta; subst summary; unfold get_analysis_summary; simpl.
  destruct (H (map sentiment comments)) as (S1 & S2 & S3 & S4).
  destruct (H (map original_language comments)) as (L1 & L2 & L3 & L4).
  split; [exact S1|]; split; [exact L1|]; split; [exact S2|].
  split; [exact L2|]; split; [exact S3|]; split; [exact L3|].
  split; [exact S4 | exact L4].
Qed.

End Summary.

(** A comment of 120 characters, labelled 'Positive'. *)
Definition long_comment : ProcessedComment :=
  {| c_id := py "1"; c_author := py "someone";
     c_text := repeat 97%N 120;
     c_published_at := []; c_like_count := 0; c_updated_at := [];
     original_language := py "en";
     translated_text := repeat 97%N 120;
     sentiment := py "Positive";
     polarity := 0.5%float;
     is_toxic := false |}.

(** C8, as stated, fails for the API response: its sample of a long comment
    is the whole text, 120 characters, where the summary has the excerpt of
    103. *)
Lemma api_samples_are_not_truncated :
  positive (App.sample_comments [long_comment]) = [c_text long_comment] /\
  List.length (c_text long_comment) = 120%nat /\
  positive (sample_comments (get_analysis_summary [long_comment]))
  = [repeat 97%N 100 ++ py "..."] /\
  positive (App.sample_comments [long_comment])
  <> map excerpt [c_text long_comment].
Proof.
  repeat split; try reflexivity.
  vm_compute; discriminate.
Qed.

(** One label out of three occurs: the other two have no key. *)
Example distributions_of_one_comment :
  sentiment_distribution (get_analysis_summary [long_comment])
  = [(py "Positive", 1%nat)] /\
  dict_lookup (sentiment_distribution (get_analysis_summary [long_comment]))
    (py "Negative") = None /\
  dict_get (sentiment_distribution (get_analysis_summary [long_comment]))
    (py "Negative") 0 = 0%nat.
Proof. repeat split. Qed.

End SummarySpec.

(* ================================================================== *)
(** * dashboard.py: properties of get_top_comments *)
(* ================================================================== *)

Module DashboardSpec.
Import PyStrFacts FloatOrder.
Local Open Scope float_scope.

Section Sorting.
Variable A : Type.
Variable key : A -> float.

Definition ascending (a b : A) : Prop := (key a <=? key b) = true.
Definition descending (a b : A) : Prop := (key b <=? key a) = true.
Definition has_key (p : float) (a : A) : bool := key a =? p.
Definition comparable (a : A) : Prop := is_nan (key a) = false.

Lemma insert_perm (x : A) (l : list A) : Permutation (insert key x l) (x :: l).
Proof.
  induction l as [|y l IH]; simpl; [reflexivity|].
  destruct (key_lt key y x); [|reflexivity].
  rewrite IH; apply perm_swap.
Qed.

Lemma sort_perm (l : list A) : Permutation (sort key l) l.
Proof.
  induction l as [|x l IH]; simpl; [reflexivity|].
  rewrite insert_perm; now constructor.
Qed.

Lemma insert_Forall (P : A -> Prop) (x : A) (l : list A) :
  P x -> Forall P l -> Forall P (insert key x l).
Proof.
  intros Hx Hl; rewrite insert_perm; now constructor.
Qed.

Lemma insert_sorted (x : A) (l : list A) :
  comparable x -> Forall comparable l ->
  StronglySorted ascending l -> StronglySorted ascending (insert key x l).
Proof.
  intros Hx Hl Hs; induction Hs as [|y l Hs IH Hy]; simpl.
  - repeat constructor.
  - inversion Hl as [|? ? Hcy Hcl]; subst.
    unfold key_lt; destruct (key y <? key x) eqn:E.
    + constructor; [now apply IH|].
      apply insert_Forall; [now apply ltb_leb | exact Hy].
    + assert (Hxy : ascending x y) by now apply leb_total.
      constructor; [now constructor|].
      constructor; [exact Hxy|].
      eapply Forall_impl; [|exact Hy].
      intros z Hz; unfold ascending in *; eapply leb_trans; eassumption.
Qed.

Lemma sort_sorted (l : list A) :
  Forall comparable l -> StronglySorted ascending (sort key l).
Proof.
  induction l as [|x l IH]; simpl; intros H; [constructor|].
  inversion H; subst.
  apply insert_sorted; auto.
  now rewrite sort_perm.
Qed.

(** Inserting does not change the order among elements of one key. *)
Lemma insert_stable (p : float) (x : A) (l : list A) :
  filter (has_key p) (insert key x l) = filter (has_key p) (x :: l).
Proof.
  induction l as [|y l IH]; [reflexivity|].
  simpl insert; unfold key_lt; destruct (key y <? key x) eqn:E; [|reflexivity].
  simpl filter in *; rewrite IH.
  destruct (has_key p x) eqn:Hx; destruct (has_key p y) eqn:Hy; try reflexivity.
  unfold has_key in *; rewrite (eqb_not_ltb _ _ _ Hx Hy) in E; discriminate.
Qed.

Lemma sort_stable (p : float) (l : list A) :
  filter (has_key p) (sort key l) = filter (has_key p) l.
Proof.
  induction l as [|x l IH]; [reflexivity|].
  simpl sort; rewrite insert_stable; simpl; now rewrite IH.
Qed.

Lemma sorted_snoc (R : A -> A -> Prop) (l : list A) (x : A) :
  StronglySorted R l -> Forall (fun y => R y x) l ->
  StronglySorted R (l ++ [x]).
Proof.
  induction 1 as [|y l Hs IH Hy]; simpl; intros Hx.
  - repeat constructor.
  - inversion Hx; subst; constructor; [now apply IH|].
    apply Forall_app; split; [exact Hy | now repeat constructor].
Qed.

Lemma sorted_rev (l : list A) :
  StronglySorted ascending l -> StronglySorted descending (rev l).
Proof.
  induction 1 as [|y l Hs IH Hy]; simpl; [constructor|].
  apply sorted_snoc; [exact IH|].
  apply Forall_rev; exact Hy.
Qed.

(** What [sorted] returns. *)
Lemma sorted_spec (l : list A) (reverse : bool) :
  Permutation (sorted key l reverse) l /\
  (forall p, filter (has_key p) (sorted key l reverse) = filter (has_key p) l) /\
  (Forall comparable l ->
   if reverse then StronglySorted descending (sorted key l reverse)
   else StronglySorted ascending (sorted key l reverse)).
Proof.
  destruct reverse; simpl.
  - split; [|split].
    + rewrite <- Permutation_rev, sort_perm; symmetry; apply Permutation_rev.
    + intros p.
      now rewrite filter_rev, sort_stable, filter_rev, rev_involutive.
    + intros H; apply sorted_rev, sort_sorted, Forall_rev, H.
  - split; [apply sort_perm | split; [intros p; apply sort_stable|]].
    apply sort_sorted.
Qed.

End Sorting.
Arguments comparable {A} key a.
Arguments sorted_spec {A} key l reverse.

(** C9.  For comments whose polarities are numbers, and a count K that is not
    negative, [get_top_comments] returns the first K entries of a ranking of
    the comments of the label: the ranking holds exactly those comments,
    ordered by polarity, from the highest down when the label is 'Positive'
    and from the lowest up otherwise ('Negative' in particular); comments of
    equal polarity come in the order they had in the input. *)
Theorem get_top_comments_ranked (comments : list ProcessedComment)
    (label : pystr) (top_n : Z) :
  (0 <= top_n)%Z ->
  Forall (fun c => is_nan (polarity c) = false) comments ->
  let of_label := filter (with_sentiment label) comments in
  exists ranked,
    get_top_comments comments label top_n = firstn (Z.to_nat top_n) ranked /\
    Permutation ranked of_label /\
    (forall p, filter (fun c => polarity c =? p) ranked
               = filter (fun c => polarity c =? p) of_label) /\
    (label = py "Positive" ->
     StronglySorted (fun a b => (polarity b <=? polarity a) = true) ranked) /\
    (label <> py "Positive" ->
     StronglySorted (fun a b => (polarity a <=? polarity b) = true) ranked).
Proof.
  intros Hn Hnan of_label.
  assert (Hc : Forall (comparable polarity) of_label).
  { apply Forall_forall; intros c Hin.
    apply filter_In in Hin as [Hin _].
    rewrite Forall_forall in Hnan; now apply Hnan. }
  unfold get_top_comments; fold of_label.
  exists (sorted polarity of_label (str_eqb label (py "Positive"))).
  destruct (sorted_spec polarity of_label (str_eqb label (py "Positive")))
    as (Hperm & Hstable & Hsorted).
  specialize (Hsorted Hc).
  split; [|split; [exact Hperm | split; [exact Hstable|]]].
  - destruct (str_eqb label (py "Positive"));
      unfold slice_to; apply Z.ltb_ge in Hn; now rewrite Hn.
  - split; intros Hl.
    + apply str_eqb_eq in Hl; rewrite Hl in Hsorted |- *; exact Hsorted.
    + apply str_eqb_neq in Hl; rewrite Hl in Hsorted |- *; exact Hsorted.
Qed.

Definition scored (n label : string) (p : float) : ProcessedComment :=
  {| c_id := py n; c_author := []; c_text := py n;
     c_published_at := []; c_like_count := 0; c_updated_at := [];
     original_language := py "en"; translated_text := py n;
     sentiment := py label; polarity := p; is_toxic := false |}.

Definition scored_comments : list ProcessedComment :=
  [ scored "a" "Positive" 0.5; scored "b" "Negative" (- 0.4);
    scored "c" "Positive" 0.9; scored "d" "Positive" 0.5;
    scored "e" "Negative" (- 0.8) ]%string.

Lemma get_top_comments_ranked_witness :
  exists ranked,
    get_top_comments scored_comments (py "Positive") 2 = firstn 2 ranked /\
    Permutation ranked
      (filter (with_sentiment (py "Positive")) scored_comments).
Proof.
  destruct (get_top_comments_ranked scored_comments (py "Positive") 2)
    as (ranked & Htop & Hperm & _).
  - lia.
  - repeat constructor.
  - exists ranked; split; [exact Htop | exact Hperm].
Defined.

(** The two rankings of that list; "a" stays ahead of "d". *)
Example get_top_comments_runs :
  map c_id (get_top_comments scored_comments (py "Positive") 5)
  = [py "c"; py "a"; py "d"] /\
  map c_id (get_top_comments scored_comments (py "Positive") 2)
  = [py "c"; py "a"] /\
  map c_id (get_top_comments scored_comments (py "Negative") 5)
  = [py "e"; py "b"].
Proof. repeat split. Qed.

End DashboardSpec.

(* ================================================================== *)
(** * youtube_api.py: properties of get_video_id *)
(* ================================================================== *)

Module VideoIdSpec.
Import PyStrFacts RegexFacts ToxicitySpec.

Section WithUnicode.
Variable udb : UnicodeData.

(** A successful run of the matcher went through a piece of the text that the
    pattern matches, and its answer is the continuation's. *)
Lemma rmatch_sound {R : Type} (r : regex) :
  forall (k : cont R) b rest g x,
    rmatch udb r b rest g k = Some x ->
    exists s a g', rest = s ++ a /\ matches udb r b s a /\
                   k (rev s ++ b) a g' = Some x.
Proof.
  induction r as [|p|r1 IH1 r2 IH2|r1 IH1 r2 IH2|p| |r IH| |];
    intros k b rest g x; simpl.
  - intros H; exists [], rest, g; repeat split; [constructor | exact H].
  - destruct rest as [|c rest]; [discriminate|].
    destruct (p c) eqn:Hc; [|discriminate].
    intros H; exists [c], rest, g; repeat split; [now constructor | exact H].
  - intros H.
    apply IH1 in H as (s1 & a1 & g1 & -> & Hm1 & H).
    apply IH2 in H as (s2 & a & g2 & -> & Hm2 & H).
    exists (s1 ++ s2), a, g2; rewrite rev_app_distr, <- !app_assoc.
    repeat split; [now constructor | exact H].
  - destruct (rmatch udb r1 b rest g k) eqn:E.
    + intros [= <-].
      apply IH1 in E as (s & a & g' & Hs & Hm & H).
      exists s, a, g'; repeat split; [assumption | now apply M_AltL | exact H].
    + intros H.
      apply IH2 in H as (s & a & g' & Hs & Hm & H).
      exists s, a, g'; repeat split; [assumption | now apply M_AltR | exact H].
  - revert b; induction rest as [|c rest IHr]; intros b; simpl.
    + intros H; exists [], [], g; repeat split; [now constructor | exact H].
    + destruct (p c) eqn:Hc.
      * destruct (star p (c :: b) rest g k) eqn:E.
        -- intros [= <-].
           apply IHr in E as (s & a & g' & Hs & Hm & H).
           inversion Hm; subst.
           exists (c :: s), a, g'; simpl; rewrite <- app_assoc.
           repeat split; [|exact H].
           constructor; simpl; now rewrite Hc.
        -- intros H; exists [], (c :: rest), g.
           repeat split; [now constructor | exact H].
      * intros H; exists [], (c :: rest), g.
        repeat split; [now constructor | exact H].
  - destruct (xorb (word_at udb b) (word_at udb rest)) eqn:E; [|discriminate].
    intros H; exists [], rest, g; repeat split; [now constructor | exact H].
  - intros H.
    apply IH in H as (s & a & g' & Hs & Hm & H).
    exists s, a, (Some (rev (firstn (List.length (rev s ++ b) - List.length b)
                              (rev s ++ b)))).
    repeat split; [assumption | now constructor | exact H].
  - destruct b; [|discriminate].
    intros H; exists [], rest, g; repeat split; [constructor | exact H].
  - destruct (at_end rest) eqn:E; [|discriminate].
    intros H; exists [], rest, g; repeat split; [now constructor | exact H].
Qed.

Lemma search_from_sound (r : regex) :
  forall rest before m,
    search_from udb r before rest = Some m ->
    exists pre post, rest = pre ++ post /\
      rmatch udb r (rev pre ++ before) post None accept = Some m.
Proof.
  induction rest as [|c rest IH]; intros before m; simpl.
  - destruct (rmatch udb r before [] None accept) eqn:E; [|discriminate].
    intros [= <-]; exists [], []; auto.
  - destruct (rmatch udb r before (c :: rest) None accept) eqn:E.
    + intros [= <-]; exists [], (c :: rest); auto.
    + intros H; apply IH in H as (pre & post & -> & H).
      exists (c :: pre), post; simpl; rewrite <- app_assoc; auto.
Qed.

Lemma captured_piece (s b : pystr) :
  rev (firstn (List.length (rev s ++ b) - List.length b) (rev s ++ b)) = s.
Proof.
  rewrite length_app, Nat.add_sub.
  rewrite firstn_app, Nat.sub_diag, firstn_O, app_nil_r, firstn_all.
  apply rev_involutive.
Qed.

(** A pattern that ends in a group answers the piece matched by the group. *)
Lemma group_at_end (p q : regex) (b rest : pystr) (g m : match_obj) :
  rmatch udb (Cat p (Group q)) b rest g accept = Some m ->
  exists s1 s2 a, rest = s1 ++ s2 ++ a /\
    matches udb p b s1 (s2 ++ a) /\
    matches udb q (rev s1 ++ b) s2 a /\ m = Some s2.
Proof.
  simpl; intros H.
  apply rmatch_sound in H as (s1 & a1 & g1 & -> & Hp & H).
  apply rmatch_sound in H as (s2 & a & g2 & -> & Hm & H).
  unfold accept in H; injection H as <-.
  exists s1, s2, a; repeat split; [exact Hp | exact Hm|].
  now rewrite captured_piece.
Qed.

Lemma matches_lit (l : pystr) :
  forall b s a, matches udb (Lit l) b s a -> s = l.
Proof.
  induction l as [|c l IH]; intros b s a H; simpl in H; inversion H; subst.
  - reflexivity.
  - match goal with
    | H1 : matches _ (Chr c) _ _ _, H2 : matches _ (Lit l) _ _ _ |- _ =>
        inversion H1; subst; apply IH in H2; subst
    end.
    match goal with Hc : N.eqb c _ = true |- _ => apply N.eqb_eq in Hc; subst end.
    reflexivity.
Qed.

(** The texts one of which every resolved URL contains. *)
Definition marked (url : pystr) : Prop :=
  substring (py "v=") url \/ substring (py "youtu.be/") url \/
  substring (py "youtube.com/embed/") url.

Lemma matches_repeat (n : nat) (p : codepoint -> bool) :
  forall b s a, matches udb (Repeat n p) b s a ->
                List.length s = n /\ forallb p s = true.
Proof.
  induction n as [|n IH]; intros b s a H; simpl in H; inversion H; subst.
  - auto.
  - match goal with
    | H1 : matches _ (Class p) _ _ _, H2 : matches _ (Repeat n p) _ _ _ |- _ =>
        inversion H1; subst; apply IH in H2 as [Hl Hp]
    end.
    simpl; split; [now rewrite Hl | now rewrite Hp, andb_true_r].
Qed.

(** The shape every identifier has that the patterns let through. *)
Definition plain_id (v : pystr) : Prop :=
  List.length v = 11%nat /\ forallb id_char v = true.

Lemma first_pattern_match (url : pystr) (m : match_obj) :
  re_search udb
    (Cat (Alt (Lit (py "youtube.com/watch?v="))
            (Alt (Lit (py "youtu.be/")) (Lit (py "youtube.com/embed/"))))
       id_group) url = Some m ->
  exists v, m = Some v /\ plain_id v /\ substring v url /\ marked url.
Proof.
  unfold re_search; intros H.
  apply search_from_sound in H as (pre & post & -> & H).
  apply group_at_end in H as (s1 & v & a & -> & Hp & Hm & ->).
  apply matches_repeat in Hm.
  exists v; split; [reflexivity|]; split; [exact Hm|]; split.
  - exists (pre ++ s1), a; now rewrite <- ?app_assoc.
  - inversion Hp as [| | |? ? ? ? ? H1|? ? ? ? ? H1| | | | |]; subst.
    + apply (matches_lit (py "youtube.com/watch?v=")) in H1; subst s1.
      left; exists (pre ++ py "youtube.com/watch?"), (v ++ a).
      now rewrite <- ?app_assoc.
    + inversion H1 as [| | |? ? ? ? ? H2|? ? ? ? ? H2| | | | |]; subst.
      * apply (matches_lit (py "youtu.be/")) in H2; subst s1.
        right; left; exists pre, (v ++ a); now rewrite <- ?app_assoc.
      * apply (matches_lit (py "youtube.com/embed/")) in H2; subst s1.
        right; right; exists pre, (v ++ a); now rewrite <- ?app_assoc.
Qed.

Lemma second_pattern_match (url : pystr) (m : match_obj) :
  re_search udb
    (Cat (Lit (py "youtube.com/watch?"))
       (Cat (Star dot) (Cat (Lit (py "v=")) id_group))) url = Some m ->
  exists v, m = Some v /\ plain_id v /\ substring v url /\ marked url.
Proof.
  unfold re_search; intros H.
  apply search_from_sound in H as (pre & post & -> & H).
  change (rmatch udb (Lit (py "youtube.com/watch?")) (rev pre ++ []) post None
            (fun b s g => rmatch udb (Star dot) b s g
               (fun b' s' g' =>
                  rmatch udb (Cat (Lit (py "v=")) id_group) b' s' g' accept))
          = Some m) in H.
  apply rmatch_sound in H as (s1 & a1 & g1 & -> & _ & H).
  apply rmatch_sound in H as (s2 & a2 & g2 & -> & _ & H).
  apply group_at_end in H as (s3 & v & a & -> & Hp & Hm & ->).
  apply matches_repeat in Hm; apply matches_lit in Hp; subst s3.
  exists v; split; [reflexivity|]; split; [exact Hm|]; split.
  - exists (pre ++ s1 ++ s2 ++ py "v="), a; now rewrite <- ?app_assoc.
  - left; exists (pre ++ s1 ++ s2), (v ++ a); now rewrite <- ?app_assoc.
Qed.

Lemma literal_pattern_match (l : pystr) (url : pystr) (m : match_obj) :
  re_search udb (Cat (Lit l) id_group) url = Some m ->
  exists v, m = Some v /\ plain_id v /\ substring v url /\ substring l url.
Proof.
  unfold re_search; intros H.
  apply search_from_sound in H as (pre & post & -> & H).
  apply group_at_end in H as (s1 & v & a & -> & Hp & Hm & ->).
  apply matches_repeat in Hm; apply matches_lit in Hp; subst s1.
  exists v; split; [reflexivity|]; split; [exact Hm|]; split.
  - exists (pre ++ l), a; now rewrite <- ?app_assoc.
  - exists pre, (v ++ a); now rewrite <- ?app_assoc.
Qed.

Lemma first_match_shape (url : pystr) (m : match_obj) :
  first_match udb patterns url = Some m ->
  exists v, m = Some v /\ plain_id v /\ substring v url /\ marked url.
Proof.
  unfold patterns, first_match.
  match goal with
  | |- match re_search udb ?r url with _ => _ end = _ -> _ =>
      destruct (re_search udb r url) eqn:E1
  end; [intros [= <-]; now apply first_pattern_match in E1|].
  match goal with
  | |- match re_search udb ?r url with _ => _ end = _ -> _ =>
      destruct (re_search udb r url) eqn:E2
  end; [intros [= <-]; now apply second_pattern_match in E2|].
  match goal with
  | |- match re_search udb ?r url with _ => _ end = _ -> _ =>
      destruct (re_search udb r url) eqn:E3
  end.
  { intros [= <-]; apply literal_pattern_match in E3
      as (v & -> & Hv & Hs & Hl).
    exists v; split; [reflexivity|]; split; [exact Hv|]; split; [exact Hs|].
    right; left; exact Hl. }
  match goal with
  | |- match re_search udb ?r url with _ => _ end = _ -> _ =>
      destruct (re_search udb r url) eqn:E4
  end; [|discriminate].
  intros [= <-]; apply literal_pattern_match in E4 as (v & -> & Hv & Hs & Hl).
  exists v; split; [reflexivity|]; split; [exact Hv|]; split; [exact Hs|].
  right; right; exact Hl.
Qed.

(** What the validation of the v= fallback lets through: characters of the
    identifier alphabet, with or without a final newline. *)
Lemma validated (v : pystr) :
  truthy (re_match udb (Seq [Bol; Plus id_char; Eol]) v) = true ->
  forallb id_char v = true \/
  exists w, v = w ++ [10%N] /\ forallb id_char w = true.
Proof.
  unfold re_match; intros H.
  assert (Hm : rmatch udb (Seq [Bol; Plus id_char; Eol]) [] v None accept
               <> None).
  { destruct (rmatch udb (Seq [Bol; Plus id_char; Eol]) [] v None accept);
      [discriminate | discriminate]. }
  apply (rmatch_spec udb match_obj _ accept accept_blind) in Hm
    as (s & a & -> & Hm & _).
  unfold Seq, Plus in Hm; simpl in Hm.
  inversion Hm as [| |? ? s0 s1 ? ? Hbol Hrest| | | | | | |]; subst.
  inversion Hbol; subst.
  inversion Hrest as [| |? ? s2 s3 ? ? Hplus Htail| | | | | | |]; subst.
  inversion Hplus as [| |? ? s4 s5 ? ? Hc Hs| | | | | | |]; subst.
  inversion Hc; subst; inversion Hs; subst.
  inversion Htail as [| |? ? s6 s7 ? ? Heol Heps| | | | | | |]; subst.
  inversion Heol; subst; inversion Heps; subst.
  simpl; rewrite app_nil_r.
  match goal with
  | Hc : id_char ?c = true, Hs : forallb id_char ?w = true,
    He : at_end _ = true |- _ =>
      simpl in He; destruct a as [|x [|x' a']]; simpl in He; try discriminate;
      [ left; rewrite app_nil_r, Hc, Hs; reflexivity
      | right; apply N.eqb_eq in He; subst x;
        exists (c :: w); split; [reflexivity|]; simpl; now rewrite Hc, Hs ]
  end.
Qed.

Lemma slice_substring (url : pystr) (start stop : Z) :
  substring (slice url start stop) url.
Proof.
  unfold slice, substring.
  exists (firstn (Z.to_nat start) url),
         (skipn (Z.to_nat (stop - start)) (skipn (Z.to_nat start) url)).
  now rewrite !firstn_skipn.
Qed.

(** X1.  An identifier that [get_video_id] returns has 11 characters and is a
    piece of the URL; the URL contains 'v=', 'youtu.be/' or
    'youtube.com/embed/'; and the characters are letters, digits, '_' or '-',
    except that the v= fallback also lets through ten such characters
    followed by a newline.  In particular the result is never the empty
    string. *)
Theorem get_video_id_shape (url v : pystr) :
  get_video_id udb url = Some v ->
  List.length v = 11%nat /\
  substring v url /\
  marked url /\
  (forallb id_char v = true \/
   exists w, v = w ++ [10%N] /\ forallb id_char w = true) /\
  falsy (Some v) = false.
Proof.
  unfold get_video_id.
  destruct (is_empty url); [discriminate|].
  destruct (first_match udb patterns url) as [m|] eqn:E.
  - intros ->.
    apply first_match_shape in E as (v' & [= <-] & [Hl Hc] & Hs & Hm).
    repeat split; auto.
    destruct v; [discriminate | reflexivity].
  - destruct (contains (py "v=") url) eqn:Ev; [|discriminate].
    cbv zeta.
    match goal with
    | |- (if (Nat.eqb (List.length ?x) 11 && _)%bool then _ else _) = _ -> _ =>
        set (video_id := x)
    end.
    destruct (Nat.eqb (List.length video_id) 11) eqn:El; [|discriminate].
    destruct (truthy (re_match udb (Seq [Bol; Plus id_char; Eol]) video_id))
      eqn:Ev'; [|discriminate].
    simpl; intros [= <-].
    apply Nat.eqb_eq in El.
    repeat split; auto.
    + apply slice_substring.
    + left; now apply contains_spec.
    + now apply validated.
    + destruct video_id; [discriminate | reflexivity].
Qed.

Lemma rmatch_repeat {R : Type} (p : codepoint -> bool) (s : pystr) :
  forall (k : cont R) b rest g,
    forallb p s = true ->
    rmatch udb (Repeat (List.length s) p) b (s ++ rest) g k
    = k (rev s ++ b) rest g.
Proof.
  induction s as [|c s IH]; intros k b rest g H; simpl in *; [reflexivity|].
  apply andb_true_iff in H as [Hc Hs].
  rewrite Hc, IH by assumption.
  now rewrite <- app_assoc.
Qed.

Lemma search_from_hit (r : regex) (b rest : pystr) (m : match_obj) :
  rmatch udb r b rest None accept = Some m ->
  search_from udb r b rest = Some m.
Proof. intros H; destruct rest; simpl; now rewrite H. Qed.

(** The identifier group, met in front of a plain identifier. *)
Lemma id_group_hit (v rest b : pystr) (g : match_obj) :
  plain_id v ->
  rmatch udb id_group b (v ++ rest) g accept = Some (Some v).
Proof.
  intros [Hl Hc]; unfold id_group.
  change (rmatch udb (Repeat 11 id_char) b (v ++ rest) g
            (fun b' s' _ =>
               accept b' s'
                 (Some (rev (firstn (List.length b' - List.length b) b'))))
          = Some (Some v)).
  rewrite <- Hl, rmatch_repeat by assumption.
  unfold accept; now rewrite captured_piece.
Qed.

Lemma lit_hit {R : Type} (l : pystr) :
  forall (k : cont R) b rest g,
    rmatch udb (Lit l) b (l ++ rest) g k = k (rev l ++ b) rest g.
Proof.
  induction l as [|c l IH]; intros k b rest g; [reflexivity|].
  change (rmatch udb (Lit (c :: l)) b ((c :: l) ++ rest) g k)
    with (if N.eqb c c
          then rmatch udb (Lit l) (c :: b) (l ++ rest) g k else None).
  rewrite N.eqb_refl, IH; simpl; now rewrite <- app_assoc.
Qed.

(** A literal that parts from the text after a common start does not match. *)
Lemma lit_miss {R : Type} (common : pystr) (c0 c : codepoint) (l rest : pystr) :
  forall (k : cont R) b g,
    N.eqb c0 c = false ->
    rmatch udb (Lit (common ++ c0 :: l)) b (common ++ c :: rest) g k = None.
Proof.
  induction common as [|x common IH]; intros k b g H.
  - change (rmatch udb (Lit ([] ++ c0 :: l)) b ([] ++ c :: rest) g k)
      with (if N.eqb c0 c
            then rmatch udb (Lit l) (c :: b) rest g k else None).
    now rewrite H.
  - change (rmatch udb (Lit ((x :: common) ++ c0 :: l)) b
              ((x :: common) ++ c :: rest) g k)
      with (if N.eqb x x
            then rmatch udb (Lit (common ++ c0 :: l)) (x :: b)
                   (common ++ c :: rest) g k
            else None).
    rewrite N.eqb_refl; now apply IH.
Qed.

(** The first pattern of [patterns]. *)
Definition first_pattern : regex :=
  Cat (Alt (Lit (py "youtube.com/watch?v="))
         (Alt (Lit (py "youtu.be/")) (Lit (py "youtube.com/embed/"))))
      id_group.

Lemma first_pattern_step (b text : pystr) (g : match_obj) :
  rmatch udb first_pattern b text g accept =
  let k := fun b' s' g' => rmatch udb id_group b' s' g' accept in
  match rmatch udb (Lit (py "youtube.com/watch?v=")) b text g k with
  | Some m => Some m
  | None =>
      match rmatch udb (Lit (py "youtu.be/")) b text g k with
      | Some m => Some m
      | None => rmatch udb (Lit (py "youtube.com/embed/")) b text g k
      end
  end.
Proof. reflexivity. Qed.

(** No alternative of the first pattern starts anywhere but at a 'y'. *)
Lemma first_pattern_miss (c : codepoint) (b rest : pystr) (g : match_obj) :
  N.eqb 121 c = false ->
  rmatch udb first_pattern b (c :: rest) g accept = None.
Proof.
  intros H; rewrite first_pattern_step; cbv zeta.
  rewrite (lit_miss [] 121%N c (py "outube.com/watch?v=") rest _ b g H).
  rewrite (lit_miss [] 121%N c (py "outu.be/") rest _ b g H).
  apply (lit_miss [] 121%N c (py "outube.com/embed/") rest _ b g H).
Qed.

Lemma first_pattern_skip (pre post : pystr) :
  forall b,
    forallb (fun c => negb (N.eqb 121 c)) pre = true ->
    search_from udb first_pattern b (pre ++ post)
    = search_from udb first_pattern (rev pre ++ b) post.
Proof.
  induction pre as [|c pre IH]; intros b H; [reflexivity|].
  simpl in H; apply andb_true_iff in H as [Hc Hpre].
  apply negb_true_iff in Hc.
  change (search_from udb first_pattern b ((c :: pre) ++ post))
    with (match rmatch udb first_pattern b (c :: pre ++ post) None accept with
          | Some m => Some m
          | None => search_from udb first_pattern (c :: b) (pre ++ post)
          end).
  rewrite first_pattern_miss by assumption.
  rewrite IH by assumption; simpl; now rewrite <- app_assoc.
Qed.

Lemma resolved_by_first_pattern (url v : pystr) :
  is_empty url = false ->
  re_search udb first_pattern url = Some (Some v) ->
  get_video_id udb url = Some v.
Proof.
  intros He H; unfold get_video_id; rewrite He.
  change (first_match udb patterns url)
    with (match re_search udb first_pattern url with
          | Some m => Some m
          | None => first_match udb (tl patterns) url
          end).
  now rewrite H.
Qed.

(** X2.  The three usual URL forms resolve to the identifier they carry,
    whatever follows it: the watch URL, the short link and the embed URL,
    for every identifier of 11 characters of the identifier alphabet. *)
Theorem get_video_id_canonical (v rest : pystr) :
  plain_id v ->
  get_video_id udb (py "https://www.youtube.com/watch?v=" ++ v ++ rest) = Some v /\
  get_video_id udb (py "https://youtu.be/" ++ v ++ rest) = Some v /\
  get_video_id udb (py "https://www.youtube.com/embed/" ++ v ++ rest) = Some v.
Proof.
  intros Hv.
  assert (Hk : forall b g,
            rmatch udb id_group b (v ++ rest) g accept = Some (Some v))
    by (intros; now apply id_group_hit).
  split; [|split]; apply resolved_by_first_pattern; try reflexivity;
    unfold re_search.
  - change (py "https://www.youtube.com/watch?v=" ++ v ++ rest)
      with (py "https://www." ++ py "youtube.com/watch?v=" ++ v ++ rest).
    rewrite first_pattern_skip by reflexivity.
    apply search_from_hit; rewrite first_pattern_step; cbv zeta.
    now rewrite lit_hit, Hk.
  - change (py "https://youtu.be/" ++ v ++ rest)
      with (py "https://" ++ py "youtu.be/" ++ v ++ rest).
    rewrite first_pattern_skip by reflexivity.
    apply search_from_hit; rewrite first_pattern_step; cbv zeta.
    rewrite (lit_miss (py "youtu") 98%N 46%N (py "e.com/watch?v=")
               (py "be/" ++ v ++ rest)) by reflexivity.
    now rewrite lit_hit, Hk.
  - change (py "https://www.youtube.com/embed/" ++ v ++ rest)
      with (py "https://www." ++ py "youtube.com/embed/" ++ v ++ rest).
    rewrite first_pattern_skip by reflexivity.
    apply search_from_hit; rewrite first_pattern_step; cbv zeta.
    rewrite (lit_miss (py "youtube.com/") 119%N 101%N (py "atch?v=")
               (py "mbed/" ++ v ++ rest)) by reflexivity.
    rewrite (lit_miss (py "youtu") 46%N 98%N (py "be/")
               (py "e.com/embed/" ++ v ++ rest)) by reflexivity.
    now rewrite lit_hit, Hk.
Qed.

End WithUnicode.

Lemma get_video_id_shape_witness :
  List.length (py "dQw4w9WgXcQ") = 11%nat /\
  substring (py "dQw4w9WgXcQ") (py "https://example.com/?v=dQw4w9WgXcQ&t=5").
Proof.
  destruct (get_video_id_shape ascii_only
              (py "https://example.com/?v=dQw4w9WgXcQ&t=5") (py "dQw4w9WgXcQ")
              eq_refl) as (Hl & Hs & _).
  split; [exact Hl | exact Hs].
Defined.

Lemma get_video_id_canonical_witness :
  get_video_id ascii_only (py "https://youtu.be/" ++ py "dQw4w9WgXcQ" ++ py "?t=5")
  = Some (py "dQw4w9WgXcQ").
Proof.
  refine (proj1 (proj2 (get_video_id_canonical ascii_only
                          (py "dQw4w9WgXcQ") (py "?t=5") _))).
  split; reflexivity.
Defined.

(** The v= fallback at its edges: a newline after ten characters passes, an
    identifier of another length does not, and with two v= parameters the
    watch pattern keeps the last one. *)
Example get_video_id_edges :
  get_video_id ascii_only (py "https://example.com/?v=abcdefghij" ++ [10%N])
  = Some (py "abcdefghij" ++ [10%N]) /\
  get_video_id ascii_only (py "https://example.com/?v=abcdefghijkl") = None /\
  get_video_id ascii_only
    (py "https://www.youtube.com/watch?t=1&v=AAAAAAAAAAA&v=BBBBBBBBBBB")
  = Some (py "BBBBBBBBBBB").
Proof. repeat split; vm_compute; reflexivity. Qed.

End VideoIdSpec.

(* ================================================================== *)
(** * youtube_api.py: the requests of the two fetchers *)
(* ================================================================== *)

Module FetchSpec.
Import PyStrFacts YoutubeApiSpec.

(** The token sent with request number [i]: the one the loop starts with,
    then the one of the page answered just before. *)
Definition token_sent (start : option pystr) (pages : list page) (i : nat)
    : option pystr :=
  match i with
  | O => start
  | S j => match nth_error pages j with
           | Some p => snd p
           | None => None
           end
  end.

Section Loop.
Variable video_id : pystr.
Variable max_results : Z.

Ltac capped_cases C E F :=
  rewrite (fetch_loop_step video_id max_results);
  match goal with
  | |- context [(Z.of_nat (List.length ?c) <? max_results)%Z] =>
      destruct (Z.of_nat (List.length c) <? max_results)%Z eqn:C;
      [ cbv zeta;
        match goal with
        | |- context [?execute (capped_request video_id max_results ?n ?t)] =>
            destruct (execute (capped_request video_id max_results n t))
              as [? | ? ? ?] eqn:E;
            [ | match goal with
                | |- context [falsy ?next] => destruct (falsy next) eqn:F
                end ]
        end
      | ]
  end;
  rewrite ?trace_call, ?result_call, ?trace_after_call, ?result_after_call,
          ?trace_ret, ?result_ret;
  simpl requests_of.

Ltac full_cases E F :=
  rewrite (fetch_all_loop_step video_id);
  match goal with
  | |- context [?execute (full_request video_id ?t)] =>
      destruct (execute (full_request video_id t)) as [? | ? ? ?] eqn:E;
      [ | match goal with
          | |- context [falsy ?next] => destruct (falsy next) eqn:F
          end ]
  end;
  rewrite ?trace_call, ?result_call, ?trace_after_call, ?result_after_call,
          ?trace_ret, ?result_ret;
  simpl requests_of.

(** Every request of the capped loop, in any run. *)
Lemma fetch_loop_requests (u : upstream) :
  forall comments token,
    let m := fetch_loop u video_id max_results comments token in
    let reqs := requests_of (trace m) in
    let pages := answers u reqs in
    trace m = map EvExecute reqs /\
    (List.length reqs <= S (List.length pages))%nat /\
    forall i req, nth_error reqs i = Some req ->
      let fetched := (List.length comments + items_in (firstn i pages))%nat in
      (Z.of_nat fetched < max_results)%Z /\
      req = capped_request video_id max_results fetched
              (token_sent token pages i) /\
      (i <> O -> falsy (req_pageToken req) = false).
Proof.
  induction u as [execute IH] using upstream_induction.
  intros comments token; cbv zeta.
  capped_cases C E F.
  - apply Z.ltb_lt in C.
    split; [reflexivity|]; split; [simpl; lia|].
    intros [|[|i]] req H; simpl in H; try discriminate.
    injection H as <-; simpl; rewrite items_in_nil, Nat.add_0_r.
    repeat split; [lia | congruence].
  - apply Z.ltb_lt in C.
    split; [reflexivity|]; split; [simpl; lia|].
    intros [|[|i]] req H; simpl in H; try discriminate.
    injection H as <-; simpl; rewrite items_in_nil, Nat.add_0_r.
    repeat split; [lia | congruence].
  - apply Z.ltb_lt in C.
    destruct (IH _ _ _ _ E (comments ++ map comment_of_item items)
                nextPageToken) as (Ht & Hl & Hreq); clear IH.
    rewrite (answers_cons _ _ _ _ _ _ E).
    split; [simpl; f_equal; exact Ht|]; split; [simpl List.length; lia|].
    intros [|i] req H; simpl in H.
    + injection H as <-; simpl; rewrite items_in_nil, Nat.add_0_r.
      repeat split; [lia | congruence].
    + destruct (Hreq i req H) as (Hlt & Heq & Htok).
      rewrite length_app, length_map in Hlt, Heq.
      simpl firstn; rewrite items_in_cons; simpl fst.
      rewrite Nat.add_assoc.
      split; [exact Hlt|]; split.
      * rewrite Heq; f_equal.
        destruct i; reflexivity.
      * intros _; rewrite Heq in Htok |- *; simpl in Htok |- *.
        destruct i as [|i]; [exact F|].
        apply Htok; discriminate.
  - split; [reflexivity|]; split; [simpl; lia|].
    intros [|i] req H; discriminate.
Qed.

(** Every request of the uncapped loop, in any run. *)
Lemma fetch_all_loop_requests (u : upstream) :
  forall comments token,
    let m := fetch_all_loop u video_id comments token in
    let reqs := requests_of (trace m) in
    let pages := answers u reqs in
    trace m = map EvExecute reqs /\
    (1 <= List.length reqs <= S (List.length pages))%nat /\
    forall i req, nth_error reqs i = Some req ->
      req = full_request video_id (token_sent token pages i) /\
      (i <> O -> falsy (req_pageToken req) = false).
Proof.
  induction u as [execute IH] using upstream_induction.
  intros comments token; cbv zeta.
  full_cases E F.
  - split; [reflexivity|]; split; [simpl; lia|].
    intros [|[|i]] req H; simpl in H; try discriminate.
    injection H as <-; split; [reflexivity | congruence].
  - split; [reflexivity|]; split; [simpl; lia|].
    intros [|[|i]] req H; simpl in H; try discriminate.
    injection H as <-; split; [reflexivity | congruence].
  - destruct (IH _ _ _ _ E (comments ++ map comment_of_item items)
                nextPageToken) as (Ht & Hl & Hreq); clear IH.
    rewrite (answers_cons _ _ _ _ _ _ E).
    split; [simpl; f_equal; exact Ht|]; split; [simpl List.length; lia|].
    intros [|i] req H; simpl in H.
    + injection H as <-; split; [reflexivity | congruence].
    + destruct (Hreq i req H) as (Heq & Htok).
      split.
      * rewrite Heq; destruct i; reflexivity.
      * intros _; rewrite Heq in Htok |- *; simpl in Htok |- *.
        destruct i as [|i]; [exact F|].
        apply Htok; discriminate.
Qed.

End Loop.

Lemma items_in_nonempty (ps : list page) :
  Forall (fun p => fst p <> []) ps -> (List.length ps <= items_in ps)%nat.
Proof.
  induction 1 as [|p ps Hp _ IH]; [apply Nat.le_0_l|].
  rewrite items_in_cons; simpl.
  destruct (fst p); [contradiction | simpl; lia].
Qed.

Section Entry.
Variable udb : UnicodeData.
Variable YOUTUBE_API_KEY : option pystr.
Variable youtube : upstream.
Variable video_url : pystr.

Let full := fetch_all_comments udb YOUTUBE_API_KEY youtube video_url.

Section Capped.
Variable max_results : Z.

Let capped :=
  fetch_comments udb YOUTUBE_API_KEY youtube video_url max_results.

(** X3.  In every run of either fetcher the trace is empty or is the
    construction of the client followed by page requests only.  Every request
    carries the identifier resolved from the URL; the first one carries no
    page token and each later one carries the token of the page answered just
    before, a token that is never empty.  [fetch_comments] asks for between 1
    and 100 items each time, [fetch_all_comments] always for 100. *)
Theorem fetch_requests_well_formed :
  let shape (m : M (list RawComment)) :=
    trace m = [] \/
    trace m = EvBuild (key_str YOUTUBE_API_KEY)
              :: map EvExecute (requests_of (trace m)) in
  let chained (m : M (list RawComment)) (i : nat) (req : api_request) :=
    req_videoId req = resolved udb video_url /\
    req_pageToken req
    = token_sent None (answers youtube (requests_of (trace m))) i /\
    (i <> O -> falsy (req_pageToken req) = false) in
  shape capped /\ shape full /\
  (forall i req, nth_error (requests_of (trace capped)) i = Some req ->
     chained capped i req /\ (1 <= req_maxResults req <= 100)%Z) /\
  (forall i req, nth_error (requests_of (trace full)) i = Some req ->
     chained full i req /\ req_maxResults req = 100%Z).
Proof.
  cbv zeta; subst capped full.
  pose proof (fetch_comments_run udb YOUTUBE_API_KEY youtube video_url
                max_results) as Hc.
  pose proof (fetch_all_comments_run udb YOUTUBE_API_KEY youtube video_url)
    as Hf.
  cbv zeta in Hc, Hf.
  destruct (falsy (get_video_id udb video_url)).
  { rewrite Hc, Hf; simpl.
    split; [left; reflexivity|]; split; [left; reflexivity|].
    split; intros [|?] ? ?; discriminate. }
  destruct (falsy YOUTUBE_API_KEY).
  { rewrite Hc, Hf; simpl.
    split; [left; reflexivity|]; split; [left; reflexivity|].
    split; intros [|?] ? ?; discriminate. }
  destruct Hc as [Hct _]; destruct Hf as [Hft _].
  rewrite Hct, Hft; simpl requests_of.
  destruct (fetch_loop_requests (resolved udb video_url) max_results
              youtube [] None) as (Ht1 & _ & Hr1).
  destruct (fetch_all_loop_requests (resolved udb video_url) youtube [] None)
    as (Ht2 & _ & Hr2).
  split; [right; now rewrite <- Ht1|].
  split; [right; now rewrite <- Ht2|].
  split.
  - intros i req H; destruct (Hr1 i req H) as (Hlt & Heq & Htok).
    simpl in Hlt, Heq.
    split; [rewrite Heq; repeat split; auto; now rewrite <- Heq|].
    rewrite Heq; simpl; lia.
  - intros i req H; destruct (Hr2 i req H) as (Heq & Htok).
    split; [rewrite Heq; repeat split; auto; now rewrite <- Heq|].
    now rewrite Heq.
Qed.

(** X4.  Asked for no comments, or for a negative number of them,
    [fetch_comments] constructs the client, sends no page request and returns
    the empty list. *)
Theorem fetch_comments_nothing_asked :
  (max_results <= 0)%Z ->
  falsy (get_video_id udb video_url) = false ->
  falsy YOUTUBE_API_KEY = false ->
  capped = ([EvBuild (key_str YOUTUBE_API_KEY)], Returns []).
Proof.
  intros Hn Hid Hkey; subst capped; unfold fetch_comments.
  rewrite Hid, Hkey.
  destruct youtube as [execute]; rewrite fetch_loop_step.
  replace (Z.of_nat (List.length (@nil RawComment)) <? max_results)%Z
    with false by (symmetry; apply Z.ltb_ge; simpl; lia).
  unfold slice_to; simpl.
  destruct (max_results <? 0)%Z; rewrite ?firstn_nil; reflexivity.
Qed.

(** X5.  [fetch_comments] returns a list exactly when the URL yields an
    identifier, the key is set and no page request fails; when it raises, the
    error is the one for the URL, the one for the key, or the wrapped failure
    of a request, and nothing else. *)
Theorem fetch_comments_outcomes :
  ((exists out, result capped = Returns out) <->
   falsy (get_video_id udb video_url) = false /\
   falsy YOUTUBE_API_KEY = false /\
   first_failure youtube (requests_of (trace capped)) = None) /\
  (forall e, result capped = Raises e ->
     (falsy (get_video_id udb video_url) = true /\ e = invalid_url) \/
     (falsy YOUTUBE_API_KEY = true /\ e = missing_key) \/
     (exists e0,
        first_failure youtube (requests_of (trace capped)) = Some e0 /\
        e = PyException (py "Error fetching comments: " ++ exn_str e0))).
Proof.
  subst capped.
  pose proof (fetch_comments_run udb YOUTUBE_API_KEY youtube video_url
                max_results) as Hc; cbv zeta in Hc.
  destruct (falsy (get_video_id udb video_url)).
  { rewrite Hc; split.
    - split; [intros [out H]; discriminate | intros (H & _); discriminate].
    - intros e [= <-]; auto. }
  destruct (falsy YOUTUBE_API_KEY).
  { rewrite Hc; split.
    - split; [intros [out H]; discriminate | intros (_ & H & _); discriminate].
    - intros e [= <-]; auto. }
  destruct Hc as [Hct Hcr]; rewrite Hct, Hcr; simpl requests_of.
  pose proof (fetch_loop_failure (resolved udb video_url) max_results
                youtube [] None) as H; cbv zeta in H.
  destruct (first_failure youtube _) as [e0|].
  - rewrite H; split.
    + split; [intros [out Ho]; discriminate | intros (_ & _ & Ho); discriminate].
    + intros e [= <-]; right; right; exists e0; auto.
  - destruct H as [out ->]; split.
    + split; [auto | intros _; eauto].
    + discriminate.
Qed.

(** X6.  As long as no answered page is empty, [fetch_comments] sends at most
    as many page requests as the number of comments asked for. *)
Theorem fetch_comments_request_count :
  Forall (fun p : page => fst p <> [])
    (answers youtube (requests_of (trace capped))) ->
  (Z.of_nat (List.length (requests_of (trace capped))) <= Z.max 0 max_results)%Z.
Proof.
  subst capped.
  pose proof (fetch_comments_run udb YOUTUBE_API_KEY youtube video_url
                max_results) as Hc; cbv zeta in Hc.
  destruct (falsy (get_video_id udb video_url)); [rewrite Hc; simpl; lia|].
  destruct (falsy YOUTUBE_API_KEY); [rewrite Hc; simpl; lia|].
  destruct Hc as [Hct _]; rewrite Hct; simpl requests_of.
  destruct (fetch_loop_requests (resolved udb video_url) max_results
              youtube [] None) as (_ & Hl & Hr).
  set (reqs := requests_of (trace (fetch_loop youtube (resolved udb video_url)
                                     max_results [] None))) in *.
  set (pages := answers youtube reqs) in *.
  intros Hne.
  destruct (List.length reqs) as [|n] eqn:En; [simpl; lia|].
  assert (Hn : exists req, nth_error reqs n = Some req).
  { destruct (nth_error reqs n) eqn:E; [eauto|].
    apply nth_error_None in E; lia. }
  destruct Hn as [req Hreq].
  destruct (Hr n req Hreq) as (Hlt & _).
  simpl in Hlt.
  assert (Hf : (n <= items_in (firstn n pages))%nat).
  { pose proof (items_in_nonempty (firstn n pages)) as H.
    rewrite length_firstn, Nat.min_l in H by lia.
    apply H, Forall_forall; intros p Hp.
    rewrite Forall_forall in Hne; apply Hne.
    rewrite <- (firstn_skipn n pages); apply in_or_app; now left. }
  lia.
Qed.

End Capped.

(** X7.  [fetch_all_comments] returns a list exactly when the URL yields an
    identifier, the key is set and no page request fails; it always sends at
    least one request once these two checks pass. *)
Theorem fetch_all_comments_outcomes :
  ((exists out, result full = Returns out) <->
   falsy (get_video_id udb video_url) = false /\
   falsy YOUTUBE_API_KEY = false /\
   first_failure youtube (requests_of (trace full)) = None) /\
  (falsy (get_video_id udb video_url) = false ->
   falsy YOUTUBE_API_KEY = false ->
   (1 <= List.length (requests_of (trace full)))%nat).
Proof.
  subst full.
  pose proof (fetch_all_comments_run udb YOUTUBE_API_KEY youtube video_url)
    as Hc; cbv zeta in Hc.
  destruct (falsy (get_video_id udb video_url)).
  { rewrite Hc; split; [|discriminate].
    split; [intros [out H]; discriminate | intros (H & _); discriminate]. }
  destruct (falsy YOUTUBE_API_KEY).
  { rewrite Hc; split; [|discriminate].
    split; [intros [out H]; discriminate | intros (_ & H & _); discriminate]. }
  destruct Hc as [Hct Hcr]; rewrite Hct, Hcr; simpl requests_of.
  split.
  - pose proof (fetch_all_loop_failure (resolved udb video_url)
                  youtube [] None) as H; cbv zeta in H.
    destruct (first_failure youtube _) as [e0|].
    + rewrite H.
      split; [intros [out Ho]; discriminate | intros (_ & _ & Ho); discriminate].
    + destruct H as [out ->]; split; [auto | intros _; eauto].
  - intros _ _.
    apply (fetch_all_loop_requests (resolved udb video_url) youtube [] None).
Qed.

End Entry.

Lemma fetch_comments_nothing_asked_witness :
  fetch_comments ascii_only (Some (py "key")) (scripted two_pages)
    (py "https://youtu.be/dQw4w9WgXcQ") 0
  = ([EvBuild (py "key")], Returns []).
Proof.
  exact (fetch_comments_nothing_asked ascii_only (Some (py "key"))
           (scripted two_pages) (py "https://youtu.be/dQw4w9WgXcQ") 0
           (Z.le_refl 0) eq_refl eq_refl).
Defined.

Lemma fetch_comments_request_count_witness :
  (Z.of_nat (List.length (requests_of (trace
     (fetch_comments ascii_only (Some (py "key")) (scripted two_pages)
        (py "https://youtu.be/dQw4w9WgXcQ") 3)))) <= 3)%Z.
Proof.
  refine (fetch_comments_request_count ascii_only (Some (py "key"))
            (scripted two_pages) (py "https://youtu.be/dQw4w9WgXcQ") 3 _).
  repeat constructor; discriminate.
Defined.

(** Empty pages that keep carrying a token are requested one after the other:
    three requests here for a single comment asked. *)
Example fetch_comments_empty_pages :
  let u := scripted [([], Some (py "a")); ([], Some (py "b")); ([item "1"], None)]%string in
  List.length (requests_of (trace
    (fetch_comments ascii_only (Some (py "key")) u
       (py "https://youtu.be/dQw4w9WgXcQ") 1))) = 3%nat.
Proof. vm_compute; reflexivity. Qed.

End FetchSpec.

(* ================================================================== *)
(** * The external calls of the language stage and of the pipeline *)
(* ================================================================== *)

Module CallsSpec.
Import PyStrFacts LanguageProcessorSpec SentimentAnalyzerSpec PipelineSpec.

Definition is_detect (ev : event) : bool :=
  match ev with EvDetect _ => true | _ => false end.
Definition is_translate (ev : event) : bool :=
  match ev with EvTranslate _ => true | _ => false end.
Definition is_sentiment (ev : event) : bool :=
  match ev with EvSentiment _ => true | _ => false end.

(** How many calls of a kind a trace holds. *)
Definition calls (kind : event -> bool) (t : list event) : nat :=
  List.length (filter kind t).

Lemma calls_app (kind : event -> bool) (t1 t2 : list event) :
  calls kind (t1 ++ t2) = (calls kind t1 + calls kind t2)%nat.
Proof. unfold calls; now rewrite filter_app, length_app. Qed.

Section WithServices.
Variable udb : UnicodeData.
Variable svc : Services.

(** The guard of [detect_language]: true when the detector is left alone. *)
Definition undetectable (text : pystr) : bool :=
  is_empty text || is_empty (strip udb text)
  || forallb (fun ch => negb (isalnum udb ch)) text.

Definition detected (text : pystr) : pystr :=
  match langdetect_detect svc text with
  | Returns l => l
  | Raises _ => py "unknown"
  end.

Lemma detect_language_run (text : pystr) :
  detect_language udb svc text =
  if undetectable text then ([], Returns (py "unknown"))
  else ([EvDetect text], Returns (detected text)).
Proof.
  unfold detect_language, undetectable, detected, detect.
  destruct (is_empty text || is_empty (strip udb text)); [reflexivity|].
  destruct (forallb (fun ch => negb (isalnum udb ch)) text); [reflexivity|].
  simpl; destruct (langdetect_detect svc text); reflexivity.
Qed.

Lemma undetectable_spec (text : pystr) :
  undetectable text = true <-> blank udb text \/ no_alnum udb text.
Proof.
  unfold undetectable, no_alnum.
  now rewrite orb_true_iff, blank_guard.
Qed.

(** X8.  [detect_language] calls the detector at most once, on the text as
    it is, and it does so exactly for a text that is not blank and has an
    alphanumeric character; the detector's answer is then returned
    unchanged. *)
Theorem detect_language_calls (text : pystr) :
  let m := detect_language udb svc text in
  (trace m = [EvDetect text] <-> ~ (blank udb text \/ no_alnum udb text)) /\
  (trace m = [] <-> blank udb text \/ no_alnum udb text) /\
  (forall l, trace m = [EvDetect text] ->
     langdetect_detect svc text = Returns l -> result m = Returns l).
Proof.
  cbv zeta; rewrite detect_language_run, <- undetectable_spec.
  destruct (undetectable text); simpl.
  - split; [split; [discriminate | intros H; now destruct H] |].
    split; [tauto | discriminate].
  - split; [split; [discriminate | reflexivity] |].
    split; [split; discriminate |].
    intros l _ Hl; unfold detected; now rewrite Hl.
Qed.

Definition foreign (l : pystr) : bool :=
  negb (existsb (str_eqb l) [py "en"; py "unknown"]).

Definition translated (text : pystr) : pystr :=
  match google_translate svc text with
  | Returns (Some t) => t
  | _ => text
  end.

(** The run of [translate_to_english], with or without a language. *)
Lemma translate_to_english_run (text : pystr) (src_lang : option pystr) :
  translate_to_english udb svc text src_lang =
  if is_empty text || is_empty (strip udb text) then ([], Returns text)
  else
    let (t, l) := match src_lang with
                  | Some l => ([], l)
                  | None => if undetectable text then ([], py "unknown")
                            else ([EvDetect text], detected text)
                  end in
    if foreign l then (t ++ [EvTranslate text], Returns (translated text))
    else (t, Returns text).
Proof.
  unfold translate_to_english, foreign, translated, translate.
  destruct (is_empty text || is_empty (strip udb text)); [reflexivity|].
  destruct src_lang as [l|].
  - unfold bind at 1; unfold ret at 1.
    destruct (existsb (str_eqb l) [py "en"; py "unknown"]); [reflexivity|].
    destruct (google_translate svc text) as [[t|]|e]; reflexivity.
  - rewrite detect_language_run.
    destruct (undetectable text); unfold bind at 1.
    + reflexivity.
    + destruct (existsb (str_eqb (detected text)) [py "en"; py "unknown"]).
      * simpl; reflexivity.
      * destruct (google_translate svc text) as [[t|]|e]; reflexivity.
Qed.

(* The counting conjuncts of a run that is known. *)
Ltac counted :=
  cbn [trace result fst snd calls filter is_detect is_translate is_sentiment
       List.length app];
  split; [first [intros _; reflexivity | intros H; now destruct H] |];
  split; [lia |]; split; [lia |];
  split; [repeat (apply Forall_cons; [auto |]); apply Forall_nil |].

(** X9.  [translate_to_english] does not detect the language when one is
    supplied; otherwise it detects it at most once.  It calls the backend at
    most once, on the text as it is, and exactly when the text is not blank
    and the language is neither 'en' nor 'unknown'. *)
Theorem translate_to_english_calls (text : pystr) (src_lang : option pystr) :
  let m := translate_to_english udb svc text src_lang in
  (src_lang <> None -> calls is_detect (trace m) = 0%nat) /\
  (calls is_detect (trace m) <= 1)%nat /\
  (calls is_translate (trace m) <= 1)%nat /\
  Forall (fun ev => ev = EvDetect text \/ ev = EvTranslate text) (trace m) /\
  (calls is_translate (trace m) = 1%nat <->
   ~ blank udb text /\
   exists l, source_language udb svc text src_lang = Returns l /\
             ~ english_or_unknown l).
Proof.
  cbv zeta.
  assert (Hsrc : forall l, foreign l = true <-> ~ english_or_unknown l).
  { intros l; unfold foreign; rewrite negb_true_iff, <- english_or_unknown_guard.
    destruct (existsb (str_eqb l) [py "en"; py "unknown"]); intuition congruence. }
  rewrite translate_to_english_run.
  destruct (is_empty text || is_empty (strip udb text)) eqn:B.
  { apply blank_guard in B.
    counted.
    split; [discriminate | intros [H _]; contradiction]. }
  assert (Hb : ~ blank udb text) by (rewrite <- blank_guard; congruence).
  unfold source_language.
  destruct src_lang as [l|].
  - destruct (foreign l) eqn:F; counted.
    + split; [intros _ | reflexivity].
      split; [exact Hb | exists l; split; [reflexivity | now apply Hsrc]].
    + split; [discriminate |].
      intros (_ & l' & Heq & Hl); injection Heq as <-.
      apply Hsrc in Hl; congruence.
  - rewrite detect_language_run.
    destruct (undetectable text).
    + replace (foreign (py "unknown")) with false by reflexivity.
      counted.
      split; [discriminate |].
      intros (_ & l' & Heq & Hl); injection Heq as <-.
      exfalso; apply Hl; now right.
    + destruct (foreign (detected text)) eqn:F; counted.
      * split; [intros _ | reflexivity].
        split; [exact Hb |].
        exists (detected text); split; [reflexivity | now apply Hsrc].
      * split; [discriminate |].
        intros (_ & l' & Heq & Hl); injection Heq as <-.
        apply Hsrc in Hl; congruence.
Qed.

(** What [analyze_sentiment] answers about a text. *)
Definition rating (text : pystr) : sentiment_result :=
  match textblob_sentiment svc text with
  | Returns (Some p) => {| sr_sentiment := label_of p; sr_polarity := p |}
  | Returns None =>
      {| sr_sentiment := label_of 0.0%float; sr_polarity := 0.0%float |}
  | Raises _ => {| sr_sentiment := py "Neutral"; sr_polarity := 0.0%float |}
  end.

Lemma analyze_sentiment_exact (text : pystr) :
  analyze_sentiment svc text = ([EvSentiment text], Returns (rating text)).
Proof.
  unfold analyze_sentiment, rating, bind, call.
  destruct (textblob_sentiment svc text) as [[p|]|e]; reflexivity.
Qed.

(** The calls before the scorer's, the language and the text scored, for a
    comment with the given text. *)
Definition language_stage (text : pystr) : list event * pystr * pystr :=
  if undetectable text then ([], py "unknown", text)
  else if str_eqb (detected text) (py "en")
       then ([EvDetect text], detected text, text)
  else if foreign (detected text)
       then ([EvDetect text; EvDetect text; EvTranslate text],
             detected text, translated text)
  else ([EvDetect text; EvDetect text], detected text, text).

Lemma process_comment_run (comment : RawComment) :
  process_comment udb svc comment =
  let '(evs, language, scored_text) := language_stage (text comment) in
  (evs ++ [EvSentiment scored_text],
   Returns {| c_id := id comment;
              c_author := author comment;
              c_text := text comment;
              c_published_at := published_at comment;
              c_like_count := like_count comment;
              c_updated_at := updated_at comment;
              original_language := language;
              translated_text := scored_text;
              sentiment := sr_sentiment (rating scored_text);
              polarity := sr_polarity (rating scored_text);
              is_toxic := detect_toxicity udb scored_text |}).
Proof.
  unfold process_comment, language_stage.
  rewrite detect_language_run.
  destruct (undetectable (text comment)) eqn:U; unfold bind at 1.
  - replace (negb (str_eqb (py "unknown") (py "en"))) with true by reflexivity.
    rewrite translate_to_english_run, U.
    replace (foreign (py "unknown")) with false by reflexivity.
    destruct (is_empty (text comment) || is_empty (strip udb (text comment)));
      unfold bind at 1; rewrite analyze_sentiment_exact; reflexivity.
  - assert (B : is_empty (text comment)
                || is_empty (strip udb (text comment)) = false).
    { unfold undetectable in U; now apply orb_false_iff in U as [U _]. }
    destruct (str_eqb (detected (text comment)) (py "en")) eqn:E; simpl negb.
    + unfold bind at 1, ret at 1; rewrite analyze_sentiment_exact; reflexivity.
    + rewrite translate_to_english_run, B, U.
      destruct (foreign (detected (text comment)));
        unfold bind at 1; rewrite analyze_sentiment_exact; reflexivity.
Qed.

Lemma english_is_not_foreign (l : pystr) :
  str_eqb l (py "en") = true -> foreign l = false.
Proof. intros E; unfold foreign; simpl; now rewrite E. Qed.

(** How many calls of each kind one comment costs. *)
Lemma process_comment_counts (comment : RawComment) :
  let m := process_comment udb svc comment in
  exists p,
    result m = Returns p /\
    calls is_detect (trace m)
    = (if undetectable (text comment) then 0
       else if str_eqb (original_language p) (py "en") then 1 else 2)%nat /\
    calls is_translate (trace m)
    = (if foreign (original_language p) then 1 else 0)%nat /\
    calls is_sentiment (trace m) = 1%nat.
Proof.
  cbv zeta; rewrite process_comment_run; unfold language_stage.
  destruct (undetectable (text comment)).
  { eexists; split; [reflexivity|].
    cbn [trace result fst snd original_language translated_text].
    replace (foreign (py "unknown")) with false by reflexivity.
    repeat split. }
  destruct (str_eqb (detected (text comment)) (py "en")) eqn:E.
  { eexists; split; [reflexivity|].
    cbn [trace result fst snd original_language translated_text].
    rewrite E, (english_is_not_foreign _ E).
    repeat split. }
  destruct (foreign (detected (text comment))) eqn:F;
    (eexists; split; [reflexivity|]);
    cbn [trace result fst snd original_language translated_text];
    rewrite E, F; repeat split.
Qed.

(** X10.  The external calls made for one comment, in order: the detector
    on the raw text (not at all for a text it cannot judge, once for an
    English one, twice otherwise, since [translate_to_english] detects the
    language again), then the translation backend on the raw text exactly
    when the language is neither 'en' nor 'unknown', then the scorer once, on
    the translated text.  Without a call to the backend the translated text
    is the raw text. *)
Theorem process_comment_calls (comment : RawComment) :
  let m := process_comment udb svc comment in
  let t := text comment in
  exists p,
    result m = Returns p /\
    trace m = repeat (EvDetect t) (calls is_detect (trace m))
              ++ repeat (EvTranslate t) (calls is_translate (trace m))
              ++ [EvSentiment (translated_text p)] /\
    calls is_detect (trace m)
    = (if undetectable t then 0
       else if str_eqb (original_language p) (py "en") then 1 else 2)%nat /\
    calls is_translate (trace m)
    = (if foreign (original_language p) then 1 else 0)%nat /\
    calls is_sentiment (trace m) = 1%nat /\
    (foreign (original_language p) = false -> translated_text p = t).
Proof.
  cbv zeta; rewrite process_comment_run; unfold language_stage.
  destruct (undetectable (text comment)).
  { eexists; split; [reflexivity|].
    cbn [trace result fst snd original_language translated_text].
    replace (foreign (py "unknown")) with false by reflexivity.
    repeat split. }
  destruct (str_eqb (detected (text comment)) (py "en")) eqn:E.
  { eexists; split; [reflexivity|].
    cbn [trace result fst snd original_language translated_text].
    rewrite E, (english_is_not_foreign _ E).
    repeat split. }
  destruct (foreign (detected (text comment))) eqn:F;
    (eexists; split; [reflexivity|]);
    cbn [trace result fst snd original_language translated_text];
    rewrite E, F; repeat split.
  discriminate.
Qed.

Lemma trace_bind {A B} (m : M A) (f : A -> M B) :
  trace (bind m f) = match result m with
                     | Returns a => trace m ++ trace (f a)
                     | Raises _ => trace m
                     end.
Proof.
  destruct m as [t [a|e]]; simpl; [|reflexivity].
  now destruct (f a).
Qed.

(** The loop returns one record per comment, and its trace is the traces of
    its comments, one after the other. *)
Lemma process_loop_run (comments : list RawComment) :
  forall processed,
  exists out,
    result (process_loop udb svc comments processed)
    = Returns (processed ++ out) /\
    trace (process_loop udb svc comments processed)
    = flat_map (fun c => trace (process_comment udb svc c)) comments /\
    Forall2 (fun c p => result (process_comment udb svc c) = Returns p)
      comments out.
Proof.
  induction comments as [|c comments IH]; intros processed.
  - exists []; simpl; rewrite app_nil_r; repeat split; constructor.
  - destruct (process_comment_counts c) as (p & Hp & _).
    destruct (IH (processed ++ [p])) as (out & Hout & Htr & Hall).
    exists (p :: out); simpl process_loop; simpl flat_map.
    rewrite result_bind, trace_bind, Hp, Hout, Htr, <- app_assoc.
    repeat split; now constructor.
Qed.

Definition fetch_event (ev : event) : Prop :=
  match ev with
  | EvBuild _ | EvExecute _ => True
  | _ => False
  end.

Lemma fetch_events_calls (kind : event -> bool) (t : list event) :
  (forall ev, fetch_event ev -> kind ev = false) ->
  Forall fetch_event t -> calls kind t = 0%nat.
Proof.
  intros Hk; unfold calls; induction 1 as [|ev t Hev _ IH]; [reflexivity|].
  simpl; now rewrite (Hk ev Hev).
Qed.

Lemma executes_are_fetch_events (reqs : list api_request) :
  Forall fetch_event (map EvExecute reqs).
Proof. induction reqs; constructor; simpl; auto. Qed.

Section Run.
Variable YOUTUBE_API_KEY : option pystr.
Variable youtube : upstream.

Lemma fetched_events (video_url : pystr) (max_comments : option Z) :
  Forall fetch_event
    (trace (fetched udb YOUTUBE_API_KEY youtube video_url max_comments)).
Proof.
  unfold fetched; destruct max_comments as [n|].
  - pose proof (YoutubeApiSpec.fetch_comments_run udb YOUTUBE_API_KEY youtube
                  video_url n) as H; cbv zeta in H.
    destruct (falsy (get_video_id udb video_url)); [rewrite H; constructor|].
    destruct (falsy YOUTUBE_API_KEY); [rewrite H; constructor|].
    destruct H as [-> _]; constructor; [exact I|].
    destruct (FetchSpec.fetch_loop_requests
                (YoutubeApiSpec.resolved udb video_url) n youtube [] None)
      as [-> _].
    apply executes_are_fetch_events.
  - pose proof (YoutubeApiSpec.fetch_all_comments_run udb YOUTUBE_API_KEY
                  youtube video_url) as H; cbv zeta in H.
    destruct (falsy (get_video_id udb video_url)); [rewrite H; constructor|].
    destruct (falsy YOUTUBE_API_KEY); [rewrite H; constructor|].
    destruct H as [-> _]; constructor; [exact I|].
    destruct (FetchSpec.fetch_all_loop_requests
                (YoutubeApiSpec.resolved udb video_url) youtube [] None)
      as [-> _].
    apply executes_are_fetch_events.
Qed.

Lemma loop_counts (comments : list RawComment) (out : list ProcessedComment) :
  Forall2 (fun c p => result (process_comment udb svc c) = Returns p)
    comments out ->
  let t := flat_map (fun c => trace (process_comment udb svc c)) comments in
  calls is_sentiment t = List.length out /\
  calls is_translate t
  = List.length (filter (fun p => foreign (original_language p)) out) /\
  (calls is_detect t <= 2 * List.length out)%nat.
Proof.
  cbv zeta; induction 1 as [|c p comments out Hp _ IH].
  - unfold calls; simpl; lia.
  - destruct (process_comment_counts c) as (p' & Hp' & Hd & Ht & Hs).
    rewrite Hp in Hp'; injection Hp' as <-.
    destruct IH as (IHs & IHt & IHd).
    simpl flat_map; rewrite !calls_app, Hs, Ht, IHs, IHt, Hd.
    simpl filter; simpl List.length.
    destruct (foreign (original_language p)); cbn [List.length];
      (split; [reflexivity|]); (split; [reflexivity|]);
      destruct (undetectable (text c));
      destruct (str_eqb (original_language p) (py "en")); cbv iota; lia.
Qed.

(** X11.  The analysis calls of a whole run.  When [process_comments]
    returns, the scorer has been called once per record, the translation
    backend once per record whose language is neither 'en' nor 'unknown', and
    the detector at most twice per record.  When the fetch fails, none of
    the three has been called. *)
Theorem process_comments_calls (video_url : pystr) (max_comments : option Z) :
  let m := process_comments udb svc YOUTUBE_API_KEY youtube video_url
             max_comments in
  match result m with
  | Returns out =>
      calls is_sentiment (trace m) = List.length out /\
      calls is_translate (trace m)
      = List.length (filter (fun p => foreign (original_language p)) out) /\
      (calls is_detect (trace m) <= 2 * List.length out)%nat
  | Raises _ =>
      calls is_sentiment (trace m) = 0%nat /\
      calls is_translate (trace m) = 0%nat /\
      calls is_detect (trace m) = 0%nat
  end.
Proof.
  cbv zeta; unfold process_comments.
  pose proof (fetched_events video_url max_comments) as Hq.
  assert (Hs : calls is_sentiment (trace (fetched udb YOUTUBE_API_KEY youtube
                 video_url max_comments)) = 0%nat)
    by (apply fetch_events_calls; [now intros [] | exact Hq]).
  assert (Ht : calls is_translate (trace (fetched udb YOUTUBE_API_KEY youtube
                 video_url max_comments)) = 0%nat)
    by (apply fetch_events_calls; [now intros [] | exact Hq]).
  assert (Hd : calls is_detect (trace (fetched udb YOUTUBE_API_KEY youtube
                 video_url max_comments)) = 0%nat)
    by (apply fetch_events_calls; [now intros [] | exact Hq]).
  rewrite result_bind, trace_bind.
  destruct (result (fetched udb YOUTUBE_API_KEY youtube video_url max_comments))
    as [comments|e]; [|auto].
  destruct (process_loop_run comments []) as (out & Hout & Htr & Hall).
  rewrite Hout, Htr, !calls_app, Hs, Ht, Hd; simpl app.
  exact (loop_counts comments out Hall).
Qed.

End Run.

End WithServices.
End CallsSpec.

(* ================================================================== *)
(** * dashboard.py: what the charts and the top lists show *)
(* ================================================================== *)

Module ChartsSpec.
Import PyStrFacts FloatOrder SummarySpec DashboardSpec Charts.

(** The distinct items of a list, each at the place of its first
    occurrence. *)
Fixpoint first_occurrences (items : list pystr) : list pystr :=
  match items with
  | [] => []
  | k :: items' =>
      k :: filter (fun q => negb (str_eqb q k)) (first_occurrences items')
  end.

Definition known (ks : list pystr) (q : pystr) : bool :=
  existsb (str_eqb q) ks.

Lemma keys_count_one_order (k : pystr) (d : dict) :
  keys (count_one k d) = if known (keys d) k then keys d else keys d ++ [k].
Proof.
  unfold known; induction d as [|[k' n] d IH]; simpl; [reflexivity|].
  destruct (str_eqb k k') eqn:E; simpl; [reflexivity|].
  fold (keys (count_one k d)); fold (keys d); rewrite IH.
  now destruct (existsb (str_eqb k) (keys d)).
Qed.

Lemma filter_filter {A} (f g : A -> bool) (l : list A) :
  filter f (filter g l) = filter (fun x => g x && f x) l.
Proof.
  induction l as [|x l IH]; simpl; [reflexivity|].
  destruct (g x); simpl; [destruct (f x)|]; now rewrite IH.
Qed.

Lemma str_eqb_sym (a b : pystr) : str_eqb a b = str_eqb b a.
Proof.
  destruct (str_eqb a b) eqn:E.
  - apply str_eqb_eq in E; subst; symmetry; apply str_eqb_refl.
  - symmetry; apply str_eqb_neq; apply str_eqb_neq in E; congruence.
Qed.

Lemma known_app (ks ks' : list pystr) (q : pystr) :
  known (ks ++ ks') q = known ks q || known ks' q.
Proof. apply existsb_app. Qed.

Lemma known_eq (ks : list pystr) (k q : pystr) :
  str_eqb q k = true -> known ks q = known ks k.
Proof. intros E; apply str_eqb_eq in E; now subst. Qed.

(** The keys of the counts of [items], started from the counts [d]. *)
Lemma keys_counter_from (items : list pystr) :
  forall d,
    keys (fold_left (fun d k => count_one k d) items d)
    = keys d ++ filter (fun q => negb (known (keys d) q))
                  (first_occurrences items).
Proof.
  induction items as [|k items IH]; intros d; simpl.
  - now rewrite app_nil_r.
  - rewrite IH, keys_count_one_order, filter_filter.
    destruct (known (keys d) k) eqn:E; simpl.
    + f_equal; apply filter_ext; intros q.
      destruct (str_eqb q k) eqn:Q; simpl; [|reflexivity].
      now rewrite (known_eq (keys d) k q Q), E.
    + rewrite <- app_assoc; simpl; do 2 f_equal.
      apply filter_ext; intros q.
      rewrite known_app; unfold known at 2; simpl.
      rewrite orb_false_r, negb_orb; apply andb_comm.
Qed.

Lemma keys_counter (items : list pystr) :
  keys (Counter items) = first_occurrences items.
Proof.
  unfold Counter; rewrite keys_counter_from; simpl.
  induction (first_occurrences items) as [|q l IH]; simpl; congruence.
Qed.

Lemma values_by_key (d : dict) :
  NoDup (keys d) -> values d = map (fun k => dict_get d k 0) (keys d).
Proof.
  induction d as [|[k n] d IH]; simpl; [reflexivity|].
  intros H; inversion H as [|? ? Hin Hd]; subst.
  unfold dict_get at 1; simpl; rewrite str_eqb_refl; f_equal.
  fold (values d); fold (keys d); rewrite (IH Hd).
  apply map_ext_in; intros q Hq; unfold dict_get; simpl.
  destruct (str_eqb q k) eqn:E; [|reflexivity].
  apply str_eqb_eq in E; subst; contradiction.
Qed.

Lemma values_counter (items : list pystr) :
  values (Counter items)
  = map (fun k => occurrences k items) (first_occurrences items).
Proof.
  rewrite values_by_key by apply counter_spec.
  rewrite keys_counter; apply map_ext; intros k; apply get_counter.
Qed.


(** ** The top lists *)

Lemma sorted_split {A} (R : A -> A -> Prop) (l1 l2 : list A) :
  StronglySorted R (l1 ++ l2) -> Forall (fun a => Forall (R a) l2) l1.
Proof.
  induction l1 as [|a l1 IH]; simpl; intros H; [constructor|].
  inversion H as [|? ? Hs Ha]; subst.
  constructor; [|now apply IH].
  now apply Forall_app in Ha as [_ Ha].
Qed.

(** How many entries [l[:n]] keeps of a list of [len] entries. *)
Definition kept (n : Z) (len : nat) : nat :=
  if (n <? 0)%Z then (len - Z.to_nat (- n))%nat
  else Nat.min (Z.to_nat n) len.

Lemma slice_to_split {A} (n : Z) (l : list A) :
  exists rest, slice_to n l ++ rest = l /\
               List.length (slice_to n l) = kept n (List.length l).
Proof.
  unfold slice_to, kept; destruct (n <? 0)%Z.
  - exists (skipn (List.length l - Z.to_nat (- n)) l).
    rewrite firstn_skipn, length_firstn; split; [reflexivity | lia].
  - exists (skipn (Z.to_nat n) l).
    rewrite firstn_skipn, length_firstn; split; reflexivity.
Qed.

(** X13.  [get_top_comments] splits the comments of the label in two: the
    ones it returns and the rest.  It returns [top_n] of them, or all when
    there are fewer; a negative [top_n] does not fail but leaves out that
    many from the end of the ranking.  When the polarities are numbers, no
    comment left out beats a returned one: for 'Positive' none has a higher
    polarity, for any other label none has a lower one. *)
Theorem get_top_comments_best (comments : list ProcessedComment)
    (label : pystr) (top_n : Z) :
  let of_label := filter (with_sentiment label) comments in
  let top := get_top_comments comments label top_n in
  exists rest,
    Permutation (top ++ rest) of_label /\
    List.length top = kept top_n (List.length of_label) /\
    Forall (fun c => sentiment c = label /\ In c comments) top /\
    (Forall (fun c => is_nan (polarity c) = false) comments ->
     Forall (fun a => Forall (fun b =>
        if str_eqb label (py "Positive")
        then (polarity b <=? polarity a)%float = true
        else (polarity a <=? polarity b)%float = true) rest) top).
Proof.
  cbv zeta; unfold get_top_comments.
  set (of_label := filter (with_sentiment label) comments).
  assert (Hr : (if str_eqb label (py "Positive")
                then sorted polarity of_label true
                else sorted polarity of_label false)
               = sorted polarity of_label (str_eqb label (py "Positive")))
    by now destruct (str_eqb label (py "Positive")).
  rewrite Hr; clear Hr.
  destruct (sorted_spec polarity of_label (str_eqb label (py "Positive")))
    as (Hperm & _ & Hsorted).
  destruct (slice_to_split top_n
              (sorted polarity of_label (str_eqb label (py "Positive"))))
    as (rest & Hsplit & Hlen).
  exists rest; split; [now rewrite Hsplit|].
  split; [now rewrite Hlen, (Permutation_length Hperm)|].
  split.
  - apply Forall_forall; intros c Hc.
    assert (Hin : In c of_label).
    { apply (Permutation_in c Hperm); rewrite <- Hsplit.
      apply in_or_app; now left. }
    apply filter_In in Hin as [Hin Hl].
    split; [now apply str_eqb_eq | exact Hin].
  - intros Hnan.
    assert (Hc : Forall (comparable polarity) of_label).
    { apply Forall_forall; intros c Hin.
      apply filter_In in Hin as [Hin _].
      rewrite Forall_forall in Hnan; now apply Hnan. }
    specialize (Hsorted Hc); rewrite <- Hsplit in Hsorted.
    destruct (str_eqb label (py "Positive"));
      exact (sorted_split _ _ _ Hsorted).
Qed.

(** All but the last of the ranking of three positive comments. *)
Example get_top_comments_negative_count :
  map c_id (get_top_comments scored_comments (py "Positive") (-1))
  = [py "c"; py "a"] /\
  get_top_comments scored_comments (py "Positive") (-7) = [].
Proof. split; reflexivity. Qed.

End ChartsSpec.

(* ================================================================== *)
(** * chatbot.py: which model is chosen and how failures are handled *)
(* ================================================================== *)

Module ChatbotSpec.
Import PyStrFacts Chatbot.

Section WithPackage.
Variable package : genai_package.

(** The construction of the model of that name fails. *)
Definition refused (name : pystr) : Prop :=
  exists e, GenerativeModel package name = Raises e.

(** The names [initialize_chatbot] may try, in order: the chosen one, then
    the fallback models other than the chosen one. *)
Definition candidates (chosen : pystr) : list pystr :=
  chosen :: filter (fun f => negb (str_eqb f chosen)) fallback_models.

(** What a run over some candidates comes to: it stops at the first name
    that is accepted, or goes through all of them. *)
Definition stops_at_first_accepted (names : list pystr)
    (run : C (option model)) : Prop :=
  (exists failed name rest m,
     names = failed ++ name :: rest /\
     Forall refused failed /\
     GenerativeModel package name = Returns m /\
     run = (map EvModel (failed ++ [name]), Returns (Some m))) \/
  (Forall refused names /\ run = (map EvModel names, Returns None)).

Lemma try_fallbacks_run (model_name : pystr) (fallbacks : list pystr) :
  stops_at_first_accepted
    (filter (fun f => negb (str_eqb f model_name)) fallbacks)
    (try_fallbacks package model_name fallbacks).
Proof.
  induction fallbacks as [|f fallbacks IH]; simpl.
  - right; split; [constructor | reflexivity].
  - destruct (negb (str_eqb f model_name)); [|exact IH].
    unfold invoke, then_, attempt, pure.
    destruct (GenerativeModel package f) as [m|e] eqn:G.
    + left; exists [], f, (filter (fun f => negb (str_eqb f model_name))
                             fallbacks), m.
      repeat split; auto.
    + destruct IH as [(failed & name & rest & m & Hn & Hf & Hg & Hr)
                     | (Hf & Hr)]; rewrite Hr.
      * left; exists (f :: failed), name, rest, m.
        rewrite Hn; repeat split; auto.
        constructor; [now exists e | exact Hf].
      * right; split; [|reflexivity].
        constructor; [now exists e | exact Hf].
Qed.

Lemma attempts_run (model_name : pystr) :
  stops_at_first_accepted (candidates model_name)
    (attempt
       (model <~ invoke (EvModel model_name)
                   (GenerativeModel package model_name) ;;
        pure (Some model))
       (fun _ => try_fallbacks package model_name fallback_models)).
Proof.
  unfold invoke, then_, attempt, pure, candidates.
  destruct (GenerativeModel package model_name) as [m|e] eqn:G.
  - left; exists [], model_name,
      (filter (fun f => negb (str_eqb f model_name)) fallback_models), m.
    repeat split; auto.
  - destruct (try_fallbacks_run model_name fallback_models)
      as [(failed & name & rest & m & Hn & Hf & Hg & Hr) | (Hf & Hr)];
      rewrite Hr.
    + left; exists (model_name :: failed), name, rest, m.
      rewrite Hn; repeat split; auto.
      constructor; [now exists e | exact Hf].
    + right; split; [|reflexivity].
      constructor; [now exists e | exact Hf].
Qed.

Lemma candidates_distinct (chosen : pystr) :
  NoDup (candidates chosen) /\ (List.length (candidates chosen) <= 5)%nat.
Proof.
  unfold candidates; split.
  - constructor.
    + intros H; apply filter_In in H as [_ H].
      now rewrite str_eqb_refl in H.
    + apply NoDup_filter.
      repeat constructor; simpl; intuition discriminate.
  - change (S (List.length (filter (fun f => negb (str_eqb f chosen))
                               fallback_models)) <= 5)%nat.
    apply le_n_S, (filter_length_le _ fallback_models).
Qed.

Variable GEMINI_API_KEY : option pystr.

(** The listing made to choose a model, and the model chosen. *)
Definition listing (model_name : option pystr) : list chat_event :=
  if falsy model_name
  then fst (list_available_models (Some package))
  else [].

Definition chosen (model_name : option pystr) : pystr :=
  match model_name with
  | Some (c :: name) => c :: name
  | _ => match snd (list_available_models (Some package)) with
         | Returns available_models => choose_model available_models model_name
         | Raises _ => []
         end
  end.

Lemma list_available_models_returns :
  exists available_models,
    snd (list_available_models (Some package)) = Returns available_models /\
    (fst (list_available_models (Some package)) = []
     \/ fst (list_available_models (Some package)) = [EvListModels]).
Proof.
  unfold list_available_models, attempt, then_, invoke, pure.
  destruct (list_models package) as [[models|e]|]; simpl; eauto.
Qed.

Lemma initialize_chatbot_unfold (model_name : option pystr) :
  falsy GEMINI_API_KEY = false ->
  initialize_chatbot (Some package) GEMINI_API_KEY model_name
  = (let (t, r) :=
       attempt
         (model <~ invoke (EvModel (chosen model_name))
                     (GenerativeModel package (chosen model_name)) ;;
          pure (Some model))
         (fun _ => try_fallbacks package (chosen model_name) fallback_models) in
     (listing model_name ++ t, r)).
Proof.
  intros Hkey.
  destruct list_available_models_returns as (available & Hav & _).
  unfold initialize_chatbot, chosen, listing; rewrite Hkey.
  destruct model_name as [[|c name]|]; simpl falsy; cbv iota;
    try reflexivity;
    destruct (list_available_models (Some package)) as [t r];
    simpl in Hav; subst r; cbn [fst snd];
    cbv beta iota delta [then_ pure]; rewrite app_nil_r; reflexivity.
Qed.

Lemma listing_shape (model_name : option pystr) :
  listing model_name = [] \/ listing model_name = [EvListModels].
Proof.
  destruct list_available_models_returns as (available & _ & Htr).
  unfold listing; destruct (falsy model_name); [exact Htr | now left].
Qed.

(** X14.  With the package and a key, [initialize_chatbot] never raises.  It
    lists the models only when no name is given.  It then tries to construct
    the chosen model and, when that fails, the fallback models other than
    the chosen one, in their order: it returns the first model whose
    construction succeeds and makes no attempt after it; it returns None
    only when every one of these at most five distinct names was refused. *)
Theorem initialize_chatbot_attempts (model_name : option pystr) :
  falsy GEMINI_API_KEY = false ->
  let names := candidates (chosen model_name) in
  (falsy model_name = false ->
   listing model_name = [] /\ model_name = Some (chosen model_name)) /\
  (listing model_name = [] \/ listing model_name = [EvListModels]) /\
  NoDup names /\ (List.length names <= 5)%nat /\
  ((exists failed name rest m,
      names = failed ++ name :: rest /\
      Forall refused failed /\
      GenerativeModel package name = Returns m /\
      initialize_chatbot (Some package) GEMINI_API_KEY model_name
      = (listing model_name ++ map EvModel (failed ++ [name]),
         Returns (Some m))) \/
   (Forall refused names /\
    initialize_chatbot (Some package) GEMINI_API_KEY model_name
    = (listing model_name ++ map EvModel names, Returns None))).
Proof.
  intros Hkey; cbv zeta.
  destruct (candidates_distinct (chosen model_name)) as [Hnd Hlen].
  split; [|split; [|split; [exact Hnd | split; [exact Hlen|]]]].
  - destruct model_name as [[|c name]|]; simpl; try discriminate.
    intros _; split; reflexivity.
  - apply listing_shape.
  - rewrite (initialize_chatbot_unfold model_name Hkey).
    destruct (attempts_run (chosen model_name))
      as [(failed & name & rest & m & Hn & Hf & Hg & Hr) | (Hf & Hr)];
      rewrite Hr.
    + left; exists failed, name, rest, m; repeat split; auto.
    + right; split; [exact Hf | reflexivity].
Qed.

End WithPackage.

(** ** The choice of the model *)

Definition available (available_models : list pystr) (name : pystr) : bool :=
  existsb (str_eqb name) available_models.

Lemma first_preferred_spec (preferred available_models : list pystr)
    (model_name : option pystr) :
  available_models <> [] ->
  (exists before name after,
     preferred = before ++ name :: after /\
     forallb (fun p => negb (available available_models p)) before = true /\
     available available_models name = true /\
     first_preferred preferred available_models model_name = Some name) \/
  (forallb (fun p => negb (available available_models p)) preferred = true /\
   first_preferred preferred available_models model_name = model_name).
Proof.
  intros Hne.
  assert (Hnil : is_nil available_models = false)
    by (destruct available_models; [contradiction | reflexivity]).
  induction preferred as [|p preferred IH].
  - right; split; reflexivity.
  - cbn [first_preferred forallb].
    change (existsb (str_eqb p) available_models)
      with (available available_models p).
    rewrite Hnil, orb_false_r.
    destruct (available available_models p) eqn:E.
    + left; exists [], p, preferred; repeat split; auto.
    + destruct IH as [(before & name & after & Hp & Hb & Ha & Hf) | (Hb & Hf)].
      * left; exists (p :: before), name, after; subst preferred.
        repeat split; auto.
        cbn [forallb]; now rewrite E.
      * right; split; auto.
Qed.

(** The first available entry of a list is well defined. *)
Lemma first_available_unique (available_models : list pystr)
    (before before' : list pystr) (p p' : pystr) (after after' : list pystr) :
  before ++ p :: after = before' ++ p' :: after' ->
  forallb (fun q => negb (available available_models q)) before = true ->
  forallb (fun q => negb (available available_models q)) before' = true ->
  available available_models p = true ->
  available available_models p' = true ->
  p = p'.
Proof.
  revert before'; induction before as [|b before IH];
    intros [|b' before'] Heq Hb Hb' Ha Ha'; simpl in *.
  - now injection Heq.
  - injection Heq as -> _.
    apply andb_true_iff in Hb' as [Hb' _].
    rewrite Ha in Hb'; discriminate.
  - injection Heq as -> _.
    apply andb_true_iff in Hb as [Hb _].
    rewrite Ha' in Hb; discriminate.
  - injection Heq as -> Heq.
    apply andb_true_iff in Hb as [_ Hb].
    apply andb_true_iff in Hb' as [_ Hb'].
    exact (IH before' Heq Hb Hb' Ha Ha').
Qed.

(** X15.  The model chosen when the caller names none.  When the list of
    available models is empty the first preferred model is chosen.
    Otherwise the choice is the first preferred model that is available;
    when none is, it is the first available model, or
    'models/gemini-flash-latest' should that name be empty.  The chosen name
    is never empty.  A listing that is missing or fails counts as the two
    common models, so that 'models/gemini-1.5-flash' is chosen. *)
Theorem choose_model_spec (available_models : list pystr)
    (model_name : option pystr) :
  falsy model_name = true ->
  let name := choose_model available_models model_name in
  name <> [] /\
  (available_models = [] -> name = py "models/gemini-1.5-flash") /\
  (forall before p after,
     preferred_models = before ++ p :: after ->
     forallb (fun q => negb (available available_models q)) before = true ->
     available available_models p = true ->
     name = p) /\
  (forall first others,
     available_models = first :: others ->
     forallb (fun q => negb (available available_models q)) preferred_models
     = true ->
     name = if is_empty first then py "models/gemini-flash-latest"
            else first) /\
  (forall package,
     list_models package = None \/
     (exists e, list_models package = Some (Raises e)) ->
     snd (list_available_models (Some package)) = Returns common_models /\
     choose_model common_models model_name = py "models/gemini-1.5-flash").
Proof.
  intros Hfalsy; cbv zeta.
  assert (Hdefault : forall o : option pystr,
            match o with Some (c :: n) => c :: n
                    | _ => py "models/gemini-flash-latest" end <> []).
  { intros [[|c n]|]; discriminate. }
  split; [apply Hdefault|].
  split; [intros ->; reflexivity|].
  split; [|split].
  - intros before p after Hp Hb Ha.
    assert (Hne : available_models <> [])
      by (intros ->; discriminate).
    unfold choose_model.
    destruct (first_preferred_spec preferred_models available_models
                model_name Hne)
      as [(before' & name & after' & Hp' & Hb' & Ha' & Hf) | (Hb' & _)].
    + rewrite Hp in Hp'.
      assert (p = name)
        by exact (first_available_unique _ _ _ _ _ _ _ Hp' Hb Hb' Ha Ha').
      subst name.
      assert (Hin : In p preferred_models)
        by (rewrite Hp; apply in_or_app; right; now left).
      rewrite Hf; destruct available_models as [|a l]; [contradiction|].
      simpl falsy.
      destruct p as [|c n]; [|reflexivity].
      simpl in Hin; intuition discriminate.
    + rewrite Hp, forallb_app in Hb'; simpl in Hb'.
      rewrite Ha in Hb'; simpl in Hb'.
      rewrite andb_false_r in Hb'; discriminate.
  - intros first others -> Hnone.
    unfold choose_model.
    destruct (first_preferred_spec preferred_models (first :: others)
                model_name) as [(before & name & after & Hp & _ & Ha & _)
                               | (_ & Hf)]; [discriminate | |].
    + rewrite Hp, forallb_app in Hnone.
      apply andb_true_iff in Hnone as [_ Hnone]; cbn [forallb] in Hnone.
      rewrite Ha in Hnone; discriminate.
    + rewrite Hf, Hfalsy; now destruct first.
  - intros package Hl; split; [|reflexivity].
    unfold list_available_models, attempt, then_, invoke, pure.
    destruct Hl as [-> | [e ->]]; reflexivity.
Qed.

(** A package in which only 'models/gemini-pro-latest' can be
    constructed, and whose model repeats its prompt. *)
Definition echo : model := {| generate_content := fun prompt => Returns prompt |}.

Definition demo_package : genai_package :=
  {| list_models :=
       Some (Returns [ {| info_name := py "models/embedding-001";
                          supported_generation_methods := [py "embedContent"] |};
                       {| info_name := py "models/gemini-pro-latest";
                          supported_generation_methods :=
                            [py "generateContent"; py "countTokens"] |} ]);
     GenerativeModel := fun name =>
       if str_eqb name (py "models/gemini-pro-latest") then Returns echo
       else Raises (LibraryError (py "404 model not found")) |}.

Lemma initialize_chatbot_attempts_witness :
  NoDup (candidates (chosen demo_package
                       (Some (py "models/gemini-flash-latest")))) /\
  initialize_chatbot (Some demo_package) (Some (py "key"))
    (Some (py "models/gemini-flash-latest"))
  = ([EvModel (py "models/gemini-flash-latest");
      EvModel (py "models/gemini-pro-latest")], Returns (Some echo)).
Proof.
  destruct (initialize_chatbot_attempts demo_package (Some (py "key"))
              (Some (py "models/gemini-flash-latest")) eq_refl)
    as (_ & _ & Hnd & _ & _).
  split; [exact Hnd | reflexivity].
Defined.

Lemma choose_model_spec_witness :
  choose_model [py "models/text-bison"; py "gemini-pro"] None = py "gemini-pro".
Proof.
  apply (proj1 (proj2 (proj2
           (choose_model_spec [py "models/text-bison"; py "gemini-pro"] None
              eq_refl)))
           (firstn 6 preferred_models) (py "gemini-pro") []);
    reflexivity.
Defined.

(** With no name given the available models are listed and the preferred
    one among them is constructed; with nothing constructible the answer is
    None after five attempts. *)
Example initialize_chatbot_runs :
  initialize_chatbot (Some demo_package) (Some (py "key")) None
  = ([EvListModels; EvModel (py "models/gemini-pro-latest")],
     Returns (Some echo)) /\
  initialize_chatbot
    (Some {| list_models := None;
             GenerativeModel := fun _ => Raises (LibraryError (py "down")) |})
    (Some (py "key")) (Some (py "my-model"))
  = (map EvModel (py "my-model" :: fallback_models), Returns None) /\
  initialize_chatbot (Some demo_package) (Some []) None = ([], Returns None) /\
  initialize_chatbot None (Some (py "key")) None = ([], Returns None).
Proof. repeat split. Qed.

End ChatbotSpec.

(* ================================================================== *)
(** * chatbot.py: asking a question *)
(* ================================================================== *)

Module AskSpec.
Import PyStrFacts Chatbot ChatbotSpec.

Lemma initialize_chatbot_returns (genai : option genai_package)
    (GEMINI_API_KEY model_name : option pystr) :
  exists model,
    snd (initialize_chatbot genai GEMINI_API_KEY model_name) = Returns model /\
    (genai = None \/ falsy GEMINI_API_KEY = true ->
     initialize_chatbot genai GEMINI_API_KEY model_name = ([], Returns None)) /\
    Forall (fun ev => match ev with EvGenerate _ => False | _ => True end)
      (fst (initialize_chatbot genai GEMINI_API_KEY model_name)).
Proof.
  destruct genai as [package|].
  2:{ exists None; repeat split; constructor. }
  destruct (falsy GEMINI_API_KEY) eqn:K.
  { exists None; unfold initialize_chatbot; rewrite K.
    repeat split; constructor. }
  assert (Hmodels : forall names,
            Forall (fun ev => match ev with EvGenerate _ => False | _ => True end)
              (map EvModel names))
    by (induction names; constructor; simpl; auto).
  assert (Hlist : Forall
            (fun ev => match ev with EvGenerate _ => False | _ => True end)
            (listing package model_name))
    by (destruct (listing_shape package model_name) as [-> | ->];
        repeat constructor).
  rewrite (initialize_chatbot_unfold package GEMINI_API_KEY model_name K).
  destruct (attempts_run package (chosen package model_name))
    as [(failed & name & rest & m & _ & _ & _ & Hr) | (_ & Hr)]; rewrite Hr.
  - exists (Some m); split; [reflexivity|]; split.
    + intros [H | H]; discriminate.
    + apply Forall_app; split; [exact Hlist | apply Hmodels].
  - exists None; split; [reflexivity|]; split.
    + intros [H | H]; discriminate.
    + apply Forall_app; split; [exact Hlist | apply Hmodels].
Qed.

Section WithContext.
Variable Context : Type.
Variable context_truthy : Context -> bool.
Variable context_prompt : Context -> pystr -> outcome pystr.

(** The prompt sent for a question: the question itself unless there is
    context data that is not falsy. *)
Definition prompt_for (question : pystr) (context_data : option Context)
    : outcome pystr :=
  match context_data with
  | Some data =>
      if context_truthy data then context_prompt data question
      else Returns question
  | None => Returns question
  end.

Definition apology (e : exn) : pystr :=
  py "Sorry, I encountered an error while processing your question: "
  ++ exn_str e.

Definition answer (model : model) (prompt : pystr) : pystr :=
  match generate_content model prompt with
  | Returns text => text
  | Raises e => apology e
  end.

Lemma ask_question_run (model : model) (question : pystr)
    (context_data : option Context) :
  ask_question Context context_truthy context_prompt (Some model) question
    context_data
  = match prompt_for question context_data with
    | Returns prompt => ([EvGenerate prompt], Returns (answer model prompt))
    | Raises e => ([], Returns (apology e))
    end.
Proof.
  unfold ask_question, prompt_for, answer, apology, attempt, then_, invoke, pure.
  destruct context_data as [data|].
  - destruct (context_truthy data).
    + destruct (context_prompt data question) as [prompt|e]; [|reflexivity].
      destruct (generate_content model prompt); reflexivity.
    + destruct (generate_content model question); reflexivity.
  - destruct (generate_content model question); reflexivity.
Qed.

(** X16.  [ask_question] never raises.  Without a model it makes no call and
    answers that the chatbot is not available.  With a model it sends at
    most one prompt: the question itself when there is no context data or
    the data is falsy.  The reply is the generated text; when the generation
    fails, or the prompt cannot be built, the reply is an apology that ends
    with the message of the error. *)
Theorem ask_question_safe (model : option model) (question : pystr)
    (context_data : option Context) :
  let m := ask_question Context context_truthy context_prompt model question
             context_data in
  exists reply,
    snd m = Returns reply /\
    (model = None -> m = ([], Returns unavailable)) /\
    (forall mdl, model = Some mdl ->
       (forall e, prompt_for question context_data = Raises e ->
          m = ([], Returns (apology e))) /\
       (forall prompt, prompt_for question context_data = Returns prompt ->
          fst m = [EvGenerate prompt] /\
          (forall text, generate_content mdl prompt = Returns text ->
             reply = text) /\
          (forall e, generate_content mdl prompt = Raises e ->
             reply = apology e)) /\
       (context_data = None \/
        (exists data, context_data = Some data /\
                      context_truthy data = false) ->
        prompt_for question context_data = Returns question)).
Proof.
  cbv zeta; destruct model as [mdl|].
  - rewrite ask_question_run.
    destruct (prompt_for question context_data) as [prompt|e] eqn:P.
    + exists (answer mdl prompt); split; [reflexivity|].
      split; [discriminate|].
      intros mdl' [= <-]; split; [discriminate|]; split.
      * intros prompt' [= <-]; split; [reflexivity|].
        unfold answer; split; intros ? G; now rewrite G.
      * intros [-> | (data & -> & T)]; simpl in P; [congruence|].
        rewrite T in P; congruence.
    + exists (apology e); split; [reflexivity|].
      split; [discriminate|].
      intros mdl' [= <-]; split; [|split].
      * now intros e' [= <-].
      * discriminate.
      * intros [-> | (data & -> & T)]; [discriminate P|].
        simpl in P; rewrite T in P; discriminate.
  - exists unavailable; split; [reflexivity|].
    split; [reflexivity | discriminate].
Qed.

End WithContext.
End AskSpec.

(* ================================================================== *)
(** * web_dashboard.py: what the callbacks show and what they keep *)
(* ================================================================== *)

Module WebDashboardSpec.
Import PyStrFacts SentimentAnalyzerSpec PipelineSpec SummarySpec.
Import Charts Chatbot AskSpec WebDashboard.

Definition three_labels : list pystr :=
  [py "Positive"; py "Negative"; py "Neutral"].

Lemma label_of_three (p : float) : In (label_of p) three_labels.
Proof.
  unfold label_of, three_labels.
  destruct (0.1 <? p)%float; [now left|].
  destruct (p <? - 0.1)%float; [right; now left | right; right; now left].
Qed.

(** The counts of the three labels add up when there is no other label. *)
Lemma three_label_counts (items : list pystr) :
  Forall (fun s => In s three_labels) items ->
  (occurrences (py "Positive") items + occurrences (py "Negative") items
   + occurrences (py "Neutral") items = List.length items)%nat.
Proof.
  unfold occurrences; induction 1 as [|s items Hs _ IH]; [reflexivity|].
  cbn [filter List.length].
  destruct Hs as [<- | [<- | [<- | []]]];
    match goal with
    | |- context [str_eqb ?a ?b] =>
        repeat match goal with
               | |- context [str_eqb (py ?a) (py ?b)] =>
                   let v := eval vm_compute in (str_eqb (py a) (py b)) in
                   change (str_eqb (py a) (py b)) with v
               end
    end; cbn [List.length]; lia.
Qed.

Lemma occurrences_of_label (label : pystr) (data : list ProcessedComment) :
  occurrences label (map sentiment data)
  = List.length (filter (with_sentiment label) data).
Proof.
  unfold occurrences, with_sentiment.
  induction data as [|c data IH]; [reflexivity|]; simpl.
  rewrite (ChartsSpec.str_eqb_sym label (sentiment c)).
  destruct (str_eqb (sentiment c) label); simpl; now rewrite IH.
Qed.

Section WithEnvironment.
Variable udb : UnicodeData.
Variable svc : Services.
Variable YOUTUBE_API_KEY : option pystr.
Variable youtube : upstream.
Variable genai : option genai_package.
Variable GEMINI_API_KEY : option pystr.

(** Every record of the pipeline carries the label of its polarity. *)
Lemma process_loop_labels (comments : list RawComment)
    (out : list ProcessedComment) :
  result (process_loop udb svc comments []) = Returns out ->
  Forall (fun p => sentiment p = label_of (polarity p)) out.
Proof.
  destruct (process_loop_enriches udb svc comments []) as (out' & Hout & Hall).
  rewrite Hout; intros [= <-]; simpl.
  clear Hout; induction Hall as [|c p cs ps He _ IH]; constructor; [|exact IH].
  destruct He as (_ & _ & _ & Hs & _).
  destruct (analyze_sentiment_run svc (translated_text p)) as (r & Hr & Hl & _).
  rewrite Hs in Hr; injection Hr as <-; exact Hl.
Qed.

Lemma process_comments_labels (video_url : pystr) (max_comments : Z)
    (fetch_all : bool) (out : list ProcessedComment) :
  result (process_comments udb svc YOUTUBE_API_KEY youtube video_url
            max_comments fetch_all) = Returns out ->
  Forall (fun p => In (sentiment p) three_labels) out.
Proof.
  unfold process_comments; rewrite result_bind.
  destruct (result (if fetch_all
                    then fetch_all_comments udb YOUTUBE_API_KEY youtube
                           video_url
                    else fetch_comments udb YOUTUBE_API_KEY youtube video_url
                           max_comments)) as [comments|e]; [|discriminate].
  intros H; apply process_loop_labels in H.
  apply Forall_forall; intros p Hp.
  rewrite Forall_forall in H; rewrite (H p Hp); apply label_of_three.
Qed.



Section Click.
Variable g : globals.
Variable n_clicks : Z.
Variable video_url : option pystr.
Variable max_comments : Z.
Variable fetch_all_value : list pystr.

Let run := update_dashboard udb svc YOUTUBE_API_KEY youtube genai
             GEMINI_API_KEY g n_clicks video_url max_comments fetch_all_value.
Let t := fst (fst run).
Let g' := snd (fst run).
Let out := snd run.
Let fetch_all := existsb (str_eqb (py "yes")) fetch_all_value.

(** The three ways a click can end. *)
Lemma update_dashboard_cases :
  (((n_clicks = 0)%Z \/ falsy video_url = true) /\
   run = ([], g, no_results None)) \/
  (exists url t1 e,
     n_clicks <> 0%Z /\ video_url = Some url /\ falsy video_url = false /\
     process_comments udb svc YOUTUBE_API_KEY youtube url max_comments
       fetch_all = (t1, Raises e) /\
     run = (map Pipeline t1, g, no_results (Some (py "Error: " ++ exn_str e))))
  \/
  (exists url t1 data t2 model,
     n_clicks <> 0%Z /\ video_url = Some url /\ falsy video_url = false /\
     process_comments udb svc YOUTUBE_API_KEY youtube url max_comments
       fetch_all = (t1, Returns data) /\
     initialize_chatbot genai GEMINI_API_KEY
       (Some (py "models/gemini-flash-latest")) = (t2, Returns model) /\
     run = (map Pipeline t1 ++ map Gemini t2,
            {| processed_data := data;
               chatbot_model := model;
               analysis_summary := Some (get_analysis_summary data) |},
            results data (get_analysis_summary data))).
Proof.
  subst run fetch_all; unfold update_dashboard.
  destruct video_url as [[|c url]|]; try (left; split; [now right | reflexivity]).
  destruct (n_clicks =? 0)%Z eqn:N.
  { apply Z.eqb_eq in N; left; split; [now left | reflexivity]. }
  apply Z.eqb_neq in N; right.
  destruct (process_comments udb svc YOUTUBE_API_KEY youtube (c :: url)
              max_comments (existsb (str_eqb (py "yes")) fetch_all_value))
    as [t1 [data|e]] eqn:P.
  - right.
    destruct (initialize_chatbot_returns genai GEMINI_API_KEY
                (Some (py "models/gemini-flash-latest"))) as (model & Hm & _).
    destruct (initialize_chatbot genai GEMINI_API_KEY
                (Some (py "models/gemini-flash-latest"))) as [t2 r].
    simpl in Hm; subst r.
    exists (c :: url), t1, data, t2, model; repeat split; auto.
  - left; exists (c :: url), t1, e; repeat split; auto.
Qed.


(** X18.  When the results are shown, the four numbers are those of the
    data: the total is the number of comments, and the counts of
    'Positive', 'Negative' and 'Neutral' add up to it, since the pipeline
    gives no other label.  The two lists are the three best entries that
    [get_top_comments] gives, and each figure lists the labels (or the
    languages) in the order of first appearance, each with the number of
    comments that carry it. *)
Theorem update_dashboard_counts :
  results_shown out = true ->
  let data := processed_data g' in
  let count label := List.length (filter (with_sentiment (py label)) data) in
  total_comments_text out = str_of_nat (List.length data) /\
  positive_count_text out = str_of_nat (count "Positive"%string) /\
  negative_count_text out = str_of_nat (count "Negative"%string) /\
  neutral_count_text out = str_of_nat (count "Neutral"%string) /\
  (count "Positive"%string + count "Negative"%string
   + count "Neutral"%string = List.length data)%nat /\
  top_positive_html out
  = Some (map list_item (get_top_comments data (py "Positive") 3)) /\
  top_negative_html out
  = Some (map list_item (get_top_comments data (py "Negative") 3)) /\
  (exists pie bar,
     sentiment_fig out = Some pie /\ language_fig out = Some bar /\
     fig_names pie = ChartsSpec.first_occurrences (map sentiment data) /\
     fig_values pie
     = map (fun k => occurrences k (map sentiment data)) (fig_names pie) /\
     fig_names bar
     = ChartsSpec.first_occurrences (map original_language data) /\
     fig_values bar
     = map (fun k => occurrences k (map original_language data))
         (fig_names bar)).
Proof.
  subst t g' out.
  destruct update_dashboard_cases
    as [(Hidle & ->)
       | [(url & t1 & e & Hn & Hu & Hf & Hp & ->)
         | (url & t1 & data & t2 & model & Hn & Hu & Hf & Hp & Hi & ->)]];
    cbn [fst snd results_shown no_results processed_data];
    try discriminate.
  intros _; cbv zeta.
  assert (Hsum : Forall (fun s => In s three_labels) (map sentiment data)).
  { apply Forall_map.
    apply (process_comments_labels url max_comments fetch_all).
    unfold result; now rewrite Hp. }
  apply three_label_counts in Hsum.
  rewrite !occurrences_of_label, length_map in Hsum.
  unfold results; cbn [total_comments_text positive_count_text
    negative_count_text neutral_count_text top_positive_html
    top_negative_html sentiment_fig language_fig].
  rewrite !get_counter, !occurrences_of_label.
  unfold get_analysis_summary; cbn [total_comments].
  do 7 (split; [auto|]).
  do 2 eexists; split; [reflexivity|]; split; [reflexivity|].
  cbn [fig_names fig_values].
  rewrite !ChartsSpec.keys_counter, !ChartsSpec.values_counter.
  repeat split; reflexivity.
Qed.

End Click.

(** ** The chat *)

Variable summary_prompt : Summary -> pystr -> outcome pystr.

(** X19.  [update_chatbot] leaves the history as it is (an empty list when
    there was none) and makes no call when the button was not clicked or the
    input is empty.  Otherwise it appends exactly two messages to the
    history, the input and then the reply; a history that is not a list is
    dropped.  Without a model the reply says that the chatbot is not
    available and no call is made.  With a model the reply is the one of
    [ask_question] for the input and the summary of the last analysis that
    showed results; the callback's own error message is never used, since
    [ask_question] does not raise. *)
Theorem update_chatbot_appends (g : globals) (n_clicks : Z)
    (user_input : option pystr) (chat_history : children) :
  let run := update_chatbot summary_prompt g n_clicks user_input chat_history in
  let prior := match chat_history with ChildList l => l | _ => [] end in
  if (n_clicks =? 0)%Z || falsy user_input then
    run = ([], match chat_history with
               | NoChildren => ChildList []
               | _ => chat_history
               end)
  else
    exists input reply,
      user_input = Some input /\
      snd run = ChildList (prior ++ [UserMessage input; BotMessage reply]) /\
      match chatbot_model g with
      | None => fst run = [] /\ reply = unavailable
      | Some model =>
          (fst run, Returns reply)
          = ask_question Summary (fun _ => true) summary_prompt (Some model)
              input (analysis_summary g)
      end.
Proof.
  cbv zeta; unfold update_chatbot.
  destruct user_input as [[|c input]|]; simpl falsy;
    rewrite ?orb_true_r; try reflexivity.
  rewrite orb_false_r.
  destruct (n_clicks =? 0)%Z; [reflexivity|].
  unfold ask.
  destruct (chatbot_model g) as [model|].
  - rewrite ask_question_run.
    destruct (prompt_for Summary (fun _ => true) summary_prompt (c :: input)
                (analysis_summary g)) as [prompt|e] eqn:P;
      [exists (c :: input), (answer model prompt)
      | exists (c :: input), (apology e)];
      (split; [reflexivity|]);
      rewrite ask_question_run, P; (split; [|reflexivity]);
      destruct chat_history; cbn [fst snd]; rewrite <- ?app_assoc;
      reflexivity.
  - exists (c :: input), unavailable; split; [reflexivity|].
    split; [|split; reflexivity].
    destruct chat_history; cbn [fst snd]; rewrite <- ?app_assoc; reflexivity.
Qed.

End WithEnvironment.

(** Counts are printed in decimal, as [str] does. *)
Example str_of_nat_runs :
  str_of_nat 0 = py "0" /\ str_of_nat 7 = py "7" /\ str_of_nat 1203 = py "1203".
Proof. repeat split. Qed.

(** Two comments, one of them French, analysed from the initial state. *)
Definition demo_click : list dash_event * globals * outputs :=
  update_dashboard ascii_only demo_services (Some (py "key"))
    (scripted [([demo_item "1" "what a stupid take";
                 demo_item "2" "bonne video"], None)]%string)
    None None initial_globals 1 (Some (py "https://youtu.be/dQw4w9WgXcQ"))
    10 [].

Lemma update_dashboard_counts_witness :
  total_comments_text (snd demo_click) = py "2" /\
  positive_count_text (snd demo_click) = py "1" /\
  negative_count_text (snd demo_click) = py "0" /\
  neutral_count_text (snd demo_click) = py "1".
Proof.
  destruct (update_dashboard_counts ascii_only demo_services (Some (py "key"))
              (scripted [([demo_item "1" "what a stupid take";
                           demo_item "2" "bonne video"], None)]%string)
              None None initial_globals 1
              (Some (py "https://youtu.be/dQw4w9WgXcQ")) 10 [] eq_refl)
    as (Ht & Hp & Hn & Hu & _).
  exact (conj Ht (conj Hp (conj Hn Hu))).
Defined.

(** A click with a URL that holds no identifier: the error is shown and the
    globals of the earlier analysis stay. *)
Example update_dashboard_failed_click :
  let g := snd (fst demo_click) in
  update_dashboard ascii_only demo_services (Some (py "key")) (scripted [])
    None None g 2 (Some (py "not a url")) 10 []
  = ([], g,
     no_results
       (Some (py "Error: Invalid YouTube URL or unable to extract video ID"))).
Proof. vm_compute; reflexivity. Qed.

End WebDashboardSpec.

(* ================================================================== *)
(** * app.py: the responses of the two endpoints and what is stored *)
(* ================================================================== *)

Module AppApiSpec.
Import PyStrFacts YoutubeApiSpec PipelineSpec SummarySpec.
Import Chatbot AskSpec AppApi.

Section Analyze.
Variable udb : UnicodeData.
Variable svc : Services.
Variable YOUTUBE_API_KEY : option pystr.
Variable youtube : upstream.
Variable commit : list row -> list row -> outcome unit.
Variable current_user_id : Z.

(** The analysis the endpoint runs: the pipeline of web_dashboard.py. *)
Definition analysed (youtube_url : pystr) (max_comments : option Z)
    (fetch_all : option bool) : M (list ProcessedComment) :=
  WebDashboard.process_comments udb svc YOUTUBE_API_KEY youtube youtube_url
    (match max_comments with Some n => n | None => 100%Z end)
    (match fetch_all with Some b => b | None => false end).

(** The search record of an analysis and the rows of its comments. *)
Definition search_record (youtube_url : pystr)
    (processed_comments : list ProcessedComment) : SearchHistory :=
  {| sh_user_id := current_user_id;
     sh_youtube_url := youtube_url;
     sh_video_id := resolved udb youtube_url;
     sh_total_comments := List.length processed_comments;
     sh_sentiment_distribution := Counter (map sentiment processed_comments);
     sh_language_distribution :=
       Counter (map original_language processed_comments) |}.

Definition comment_rows (youtube_url : pystr)
    (processed_comments : list ProcessedComment) : list row :=
  map (fun comment =>
         CommentRow (comment_analysis
                       (search_record youtube_url processed_comments) comment))
    (firstn 50 processed_comments).

Definition success (processed_comments : list ProcessedComment)
    : analyze_body * Z :=
  (AnalyzeSuccess
     {| a_comments := processed_comments;
        a_total_comments := List.length processed_comments;
        a_sentiment_distribution := Counter (map sentiment processed_comments);
        a_language_distribution :=
          Counter (map original_language processed_comments);
        a_sample_comments := App.sample_comments processed_comments |},
   200%Z).

Definition failure (e : exn) : analyze_body * Z :=
  (AnalyzeError (exn_str e), 500%Z).

(** An analysis that returns was given a URL with an identifier. *)
Lemma analysed_resolves (youtube_url : pystr) (max_comments : option Z)
    (fetch_all : option bool) (processed_comments : list ProcessedComment) :
  result (analysed youtube_url max_comments fetch_all)
  = Returns processed_comments ->
  exists c video_id,
    get_video_id udb youtube_url = Some (c :: video_id) /\
    resolved udb youtube_url = c :: video_id.
Proof.
  unfold analysed, WebDashboard.process_comments; rewrite result_bind.
  assert (H : falsy (get_video_id udb youtube_url) = true ->
              forall comments,
                result (if match fetch_all with Some b => b | None => false end
                        then fetch_all_comments udb YOUTUBE_API_KEY youtube
                               youtube_url
                        else fetch_comments udb YOUTUBE_API_KEY youtube
                               youtube_url
                               match max_comments with
                               | Some n => n
                               | None => 100%Z
                               end) <> Returns comments).
  { intros F comments.
    destruct (match fetch_all with Some b => b | None => false end).
    - pose proof (fetch_all_comments_run udb YOUTUBE_API_KEY youtube
                    youtube_url) as R; cbv zeta in R.
      rewrite F in R; rewrite R; discriminate.
    - pose proof (fetch_comments_run udb YOUTUBE_API_KEY youtube youtube_url
                    match max_comments with Some n => n | None => 100%Z end)
        as R; cbv zeta in R.
      rewrite F in R; rewrite R; discriminate. }
  unfold resolved.
  destruct (get_video_id udb youtube_url) as [[|c video_id]|]; simpl in H.
  - destruct (result _) as [comments|e]; [|discriminate].
    now destruct (H eq_refl comments).
  - intros _; now exists c, video_id.
  - destruct (result _) as [comments|e]; [|discriminate].
    now destruct (H eq_refl comments).
Qed.

Section Request.
Variable db : list row.
Variable url : option pystr.
Variable max_comments : option Z.
Variable fetch_all : option bool.

Let run := api_analyze udb svc YOUTUBE_API_KEY youtube commit current_user_id
             db url max_comments fetch_all.

(** The five ways a request can end. *)
Lemma api_analyze_cases :
  (falsy url = true /\
   run = ([], db, (AnalyzeError (py "YouTube URL is required"), 400%Z))) \/
  (exists youtube_url,
     url = Some youtube_url /\ falsy url = false /\
     let m := analysed youtube_url max_comments fetch_all in
     match result m with
     | Raises e => run = (trace m, db, failure e)
     | Returns processed_comments =>
         let search := SearchRow (search_record youtube_url processed_comments) in
         let rows := comment_rows youtube_url processed_comments in
         match commit db [search] with
         | Raises e => run = (trace m, db, failure e)
         | Returns _ =>
             match commit (db ++ [search]) rows with
             | Raises e => run = (trace m, db ++ [search], failure e)
             | Returns _ =>
                 run = (trace m, db ++ search :: rows,
                        success processed_comments)
             end
         end
     end).
Proof.
  subst run; unfold api_analyze.
  destruct url as [[|c youtube_url]|]; try (left; split; reflexivity).
  right; exists (c :: youtube_url); split; [reflexivity|];
    split; [reflexivity|]; cbv zeta.
  fold (WebDashboard.process_comments udb svc YOUTUBE_API_KEY youtube
          (c :: youtube_url)
          (match max_comments with Some n => n | None => 100%Z end)
          (match fetch_all with Some b => b | None => false end)).
  fold (analysed (c :: youtube_url) max_comments fetch_all).
  destruct (analysed (c :: youtube_url) max_comments fetch_all)
    as [t [processed_comments|e]] eqn:A; cbn [result trace fst snd];
    [|reflexivity].
  destruct (analysed_resolves (c :: youtube_url) max_comments fetch_all
              processed_comments) as (c' & video_id & Hid & Hres);
    [now rewrite A|].
  unfold save, comment_rows; rewrite Hid.
  change 50%Z with (Z.of_nat 50); rewrite slice_to_firstn.
  unfold search_record; rewrite Hres.
  destruct (commit db _) as [[]|e]; [|reflexivity].
  destruct (commit (db ++ _) _) as [[]|e]; [|reflexivity].
  now rewrite <- app_assoc.
Qed.

(** X20.  [/api/analyze] answers 200 exactly when the request has a URL, the
    analysis returns and the two commits go through.  The database then
    holds, after the rows it had, one search record (with the identifier of
    the video, the number of comments and the two distributions) followed by
    one row for each of the first 50 comments, in order: an analysis that
    returned always leaves a record, the check on the identifier cannot
    fail.  The response reports all the comments, whatever their number. *)
Theorem api_analyze_saves :
  let status := snd (snd run) in
  let db' := snd (fst run) in
  (status = 200%Z <->
   exists youtube_url processed_comments,
     url = Some youtube_url /\ falsy url = false /\
     result (analysed youtube_url max_comments fetch_all)
     = Returns processed_comments /\
     commit db [SearchRow (search_record youtube_url processed_comments)]
     = Returns tt /\
     commit (db ++ [SearchRow (search_record youtube_url processed_comments)])
       (comment_rows youtube_url processed_comments) = Returns tt) /\
  (forall youtube_url processed_comments,
     status = 200%Z -> url = Some youtube_url ->
     result (analysed youtube_url max_comments fetch_all)
     = Returns processed_comments ->
     snd run = success processed_comments /\
     db' = db ++ SearchRow (search_record youtube_url processed_comments)
                 :: comment_rows youtube_url processed_comments /\
     List.length db'
     = (List.length db + 1 + Nat.min 50 (List.length processed_comments))%nat /\
     sh_video_id (search_record youtube_url processed_comments) <> []).
Proof.
  cbv zeta.
  destruct api_analyze_cases as [(F & ->) | (u & Hu & F & H)].
  { cbn [fst snd]; split.
    - split; [discriminate|].
      intros (? & ? & _ & F' & _); congruence.
    - discriminate. }
  cbv zeta in H.
  destruct (result (analysed u max_comments fetch_all)) as [processed|e] eqn:A.
  2:{ rewrite H; cbn [fst snd failure]; split.
      - split; [discriminate|].
        intros (u' & p & Hu' & _ & A' & _).
        rewrite Hu in Hu'; injection Hu' as <-; congruence.
      - discriminate. }
  destruct (commit db [SearchRow (search_record u processed)]) as [[]|e] eqn:C1.
  2:{ rewrite H; cbn [fst snd failure]; split.
      - split; [discriminate|].
        intros (u' & p & Hu' & _ & A' & C1' & _).
        rewrite Hu in Hu'; injection Hu' as <-.
        rewrite A in A'; injection A' as <-; congruence.
      - discriminate. }
  destruct (commit (db ++ [SearchRow (search_record u processed)])
              (comment_rows u processed)) as [[]|e] eqn:C2.
  2:{ rewrite H; cbn [fst snd failure]; split.
      - split; [discriminate|].
        intros (u' & p & Hu' & _ & A' & _ & C2').
        rewrite Hu in Hu'; injection Hu' as <-.
        rewrite A in A'; injection A' as <-; congruence.
      - discriminate. }
  rewrite H; cbn [fst snd success]; split.
  - split; [|reflexivity].
    intros _; exists u, processed; repeat split; auto.
  - intros u' p _ Hu' A'.
    rewrite Hu in Hu'; injection Hu' as <-.
    rewrite A in A'; injection A' as <-.
    split; [reflexivity|]; split; [reflexivity|]; split.
    + rewrite length_app; cbn [List.length]; unfold comment_rows.
      rewrite length_map, length_firstn; lia.
    + destruct (analysed_resolves u max_comments fetch_all processed A)
        as (c & video_id & _ & Hres).
      cbn [search_record sh_video_id]; rewrite Hres; discriminate.
Qed.

(** X21.  [/api/analyze] answers 400 exactly when the URL is missing or
    empty, and then nothing is called and nothing is written.  Otherwise a
    failure is answered 500 with the text of the error: a failure of the
    analysis leaves the database as it was; so does a failure of the first
    commit, although the analysis has been made; a failure of the second
    commit leaves the search record without any comment row.  No other
    status is answered, and rows are only ever added. *)
Theorem api_analyze_failures :
  let t := fst (fst run) in
  let db' := snd (fst run) in
  let body := fst (snd run) in
  let status := snd (snd run) in
  (status = 400%Z <-> falsy url = true) /\
  (status = 400%Z ->
   t = [] /\ db' = db /\ body = AnalyzeError (py "YouTube URL is required")) /\
  (status = 200%Z \/ status = 400%Z \/ status = 500%Z) /\
  (exists added, db' = db ++ added /\ (List.length added <= 51)%nat) /\
  (forall youtube_url, url = Some youtube_url -> status = 500%Z ->
     let m := analysed youtube_url max_comments fetch_all in
     t = trace m /\
     exists e,
       body = AnalyzeError (exn_str e) /\
       ((result m = Raises e /\ db' = db) \/
        (exists processed_comments,
           result m = Returns processed_comments /\
           let search :=
             SearchRow (search_record youtube_url processed_comments) in
           (commit db [search] = Raises e /\ db' = db) \/
           (commit db [search] = Returns tt /\
            commit (db ++ [search])
              (comment_rows youtube_url processed_comments) = Raises e /\
            db' = db ++ [search])))).
Proof.
  cbv zeta.
  destruct api_analyze_cases as [(F & ->) | (u & Hu & F & H)].
  { cbn [fst snd]; split; [split; auto|].
    split; [auto|]; split; [auto|]; split.
    - exists []; rewrite app_nil_r; split; [reflexivity | simpl; lia].
    - discriminate. }
  cbv zeta in H.
  destruct (result (analysed u max_comments fetch_all)) as [processed|e] eqn:A.
  2:{ rewrite H; cbn [fst snd failure].
      split; [split; [discriminate | congruence]|].
      split; [discriminate|]; split; [auto|]; split.
      - exists []; rewrite app_nil_r; split; [reflexivity | simpl; lia].
      - intros u' Hu' _; rewrite Hu in Hu'; injection Hu' as <-.
        split; [reflexivity|]; exists e; split; [reflexivity|].
        left; split; [exact A | reflexivity]. }
  destruct (commit db [SearchRow (search_record u processed)]) as [[]|e] eqn:C1.
  2:{ rewrite H; cbn [fst snd failure].
      split; [split; [discriminate | congruence]|].
      split; [discriminate|]; split; [auto|]; split.
      - exists []; rewrite app_nil_r; split; [reflexivity | simpl; lia].
      - intros u' Hu' _; rewrite Hu in Hu'; injection Hu' as <-.
        split; [reflexivity|]; exists e; split; [reflexivity|].
        right; exists processed; rewrite A; split; [reflexivity|].
        left; split; [exact C1 | reflexivity]. }
  destruct (commit (db ++ [SearchRow (search_record u processed)])
              (comment_rows u processed)) as [[]|e] eqn:C2.
  2:{ rewrite H; cbn [fst snd failure].
      split; [split; [discriminate | congruence]|].
      split; [discriminate|]; split; [auto|]; split.
      - eexists; split; [reflexivity | simpl; lia].
      - intros u' Hu' _; rewrite Hu in Hu'; injection Hu' as <-.
        split; [reflexivity|]; exists e; split; [reflexivity|].
        right; exists processed; rewrite A; split; [reflexivity|].
        right; repeat split; [exact C1 | exact C2]. }
  rewrite H; cbn [fst snd success].
  split; [split; [discriminate | congruence]|].
  split; [discriminate|]; split; [auto|]; split.
  - eexists; split; [reflexivity|].
    cbn [List.length]; unfold comment_rows.
    rewrite length_map, length_firstn; lia.
  - discriminate.
Qed.

End Request.
End Analyze.

Section Chat.
Variable genai : option genai_package.
Variable GEMINI_API_KEY : option pystr.
Variable Context : Type.
Variable context_truthy : Context -> bool.
Variable context_prompt : Context -> pystr -> outcome pystr.

Definition not_available : pystr :=
  py "Chatbot not available. Please check your API configuration.".

(** X22.  [/api/chatbot] answers 400, without any call, exactly when the
    question is missing or empty.  Otherwise it lets [initialize_chatbot]
    choose a model: without a model it answers 500, without having sent a
    prompt; with a model it always answers 200 with the reply of
    [ask_question], so that a failure of the generation reaches the client
    as an apology under status 200.  The answer 'Internal error' is never
    given. *)
Theorem api_chatbot_statuses (question : option pystr)
    (context : option Context) :
  let run := api_chatbot genai GEMINI_API_KEY Context context_truthy
               context_prompt question context in
  let init := initialize_chatbot genai GEMINI_API_KEY None in
  if falsy question
  then run = ([], (ChatbotError (py "Question is required"), 400%Z))
  else
    exists q, question = Some q /\
    match snd init with
    | Returns None => run = (fst init, (ChatbotError not_available, 500%Z))
    | Returns (Some model) =>
        let ask := ask_question Context context_truthy context_prompt
                     (Some model) q context in
        exists reply,
          snd ask = Returns reply /\
          run = (fst init ++ fst ask, (ChatbotResponse reply, 200%Z))
    | Raises _ => False
    end.
Proof.
  cbv zeta; unfold api_chatbot.
  destruct question as [[|c q]|]; simpl falsy; try reflexivity.
  exists (c :: q); split; [reflexivity|].
  destruct (initialize_chatbot_returns genai GEMINI_API_KEY None)
    as (model & Hm & _).
  destruct (initialize_chatbot genai GEMINI_API_KEY None) as [t0 r].
  simpl in Hm; subst r; cbn [fst snd].
  cbv beta iota delta [then_ pure].
  destruct model as [model|].
  - rewrite ask_question_run.
    destruct (prompt_for Context context_truthy context_prompt (c :: q)
                context) as [prompt|e];
      eexists; (split; [reflexivity|]);
      cbn [fst snd]; rewrite ?app_nil_r; reflexivity.
  - rewrite app_nil_r; reflexivity.
Qed.

End Chat.

(** Two comments analysed for user 7.  With a database that accepts every
    commit three rows are written; with one that refuses the rows of the
    comments the answer is 500 and the search record stays alone. *)
Example api_analyze_runs :
  let request commit :=
    api_analyze ascii_only demo_services (Some (py "key"))
      (scripted [([demo_item "1" "what a stupid take";
                   demo_item "2" "bonne video"], None)]%string)
      commit 7 [] (Some (py "https://youtu.be/dQw4w9WgXcQ")) None None in
  let accepted := request (fun _ _ => Returns tt) in
  let refused :=
    request (fun db _ => match db with
                         | [] => Returns tt
                         | _ => Raises (LibraryError (py "database is locked"))
                         end) in
  (snd (snd accepted), List.length (snd (fst accepted))) = (200%Z, 3%nat) /\
  snd refused = (AnalyzeError (py "database is locked"), 500%Z) /\
  List.length (snd (fst refused)) = 1%nat.
Proof. vm_compute; repeat split. Qed.

End AppApiSpec.

(* ================================================================== *)
(** * main.py: the interactive session *)
(* ================================================================== *)

Module MainChatSpec.
Import PyStrFacts Chatbot AskSpec MainChat.

Section WithContext.
Variable udb : UnicodeData.
Variable Context : Type.
Variable context_truthy : Context -> bool.
Variable context_prompt : Context -> pystr -> outcome pystr.
Variable model : option model.
Variable context_data : option Context.

(** A line that ends the session: 'exit' or 'quit' in any case, with any
    white space around. *)
Definition is_exit (line : pystr) : bool :=
  existsb (str_eqb (lower udb (strip udb line))) [py "exit"; py "quit"].

(** The lines read: those before the first line that ends the session. *)
Fixpoint lines_read (stdin : list pystr) : list pystr :=
  match stdin with
  | [] => []
  | line :: stdin' => if is_exit line then [] else line :: lines_read stdin'
  end.

(** The questions asked: the lines read, stripped, the empty ones left
    out. *)
Definition questions (stdin : list pystr) : list pystr :=
  filter (fun q => negb (is_empty q)) (map (strip udb) (lines_read stdin)).

Let ask (question : pystr) : C pystr :=
  ask_question Context context_truthy context_prompt model question
    context_data.

Lemma ask_question_returns (question : pystr) :
  exists reply, snd (ask question) = Returns reply.
Proof.
  subst ask; cbv beta; destruct model as [mdl|]; [|now exists unavailable].
  rewrite ask_question_run.
  destruct (prompt_for Context context_truthy context_prompt question
              context_data); eexists; reflexivity.
Qed.

(** X23.  The interactive session reads the lines up to the first one that
    is 'exit' or 'quit' once stripped and lower-cased, and nothing after
    it.  It asks the lines read that are not blank, stripped, in order, and
    prints one reply for each.  It ends normally exactly when such a closing
    line exists; otherwise it ends with the EOFError of [input]. *)
Theorem interactive_chatbot_session (stdin : list pystr) :
  let run := interactive_chatbot udb Context context_truthy context_prompt
               model context_data stdin in
  let t := fst (fst run) in
  let printed := snd (fst run) in
  t = flat_map (fun q => fst (ask q)) (questions stdin) /\
  Forall2 (fun q line => exists reply,
             snd (ask q) = Returns reply /\
             line = [10%N] ++ py "Bot: " ++ reply)
    (questions stdin) printed /\
  (snd run = Returns tt <-> existsb is_exit stdin = true) /\
  (snd run = Raises EOFError <-> existsb is_exit stdin = false).
Proof.
  cbv zeta; unfold questions.
  induction stdin as [|line stdin IH].
  - simpl; split; [reflexivity|]; split; [constructor|].
    split; split; solve [discriminate | auto].
  - cbn [interactive_chatbot lines_read].
    change (existsb (str_eqb (lower udb (strip udb line)))
              [py "exit"; py "quit"]) with (is_exit line).
    change (existsb is_exit (line :: stdin))
      with (is_exit line || existsb is_exit stdin).
    destruct (is_exit line) eqn:E.
    + cbn [fst snd map filter flat_map orb].
      split; [reflexivity|]; split; [constructor|].
      split; split; solve [discriminate | auto].
    + cbn [map filter orb].
      destruct (is_empty (strip udb line)) eqn:B; cbn [negb]; [exact IH|].
      destruct (ask_question_returns (strip udb line)) as (reply & Hr).
      subst ask; cbv beta in *.
      destruct (ask_question Context context_truthy context_prompt model
                  (strip udb line) context_data) as [t0 r0] eqn:A.
      cbn [snd] in Hr; subst r0.
      destruct (interactive_chatbot udb Context context_truthy context_prompt
                  model context_data stdin) as [[t' printed] r].
      cbn [fst snd flat_map] in *.
      destruct IH as (IHt & IHp & IHr & IHe).
      rewrite A; cbn [fst].
      split; [now rewrite IHt|]; split; [|split; assumption].
      constructor; [|exact IHp].
      exists reply; rewrite A; split; reflexivity.
Qed.

End WithContext.

(** Two questions, a blank line, and a closing line in capitals; the line
    after it is not read. *)
Example interactive_chatbot_runs :
  interactive_chatbot ascii_only unit (fun _ => true)
    (fun _ q => Returns q) (Some ChatbotSpec.echo) None
    [py "  hello "; py "   "; py "why?"; py " EXIT"; py "ignored"]
  = ([EvGenerate (py "hello"); EvGenerate (py "why?")],
     [[10%N] ++ py "Bot: hello"; [10%N] ++ py "Bot: why?"],
     Returns tt).
Proof. vm_compute; reflexivity. Qed.

End MainChatSpec.

(* ================================================================== *)
(** * main.py: the summary of a run of the pipeline *)
(* ================================================================== *)

Module RunSpec.
Import PyStrFacts SentimentAnalyzerSpec PipelineSpec SummarySpec.
Import WebDashboardSpec.

Section WithServices.
Variable udb : UnicodeData.
Variable svc : Services.
Variable YOUTUBE_API_KEY : option pystr.
Variable youtube : upstream.

Lemma process_loop_flags (comments : list RawComment)
    (out : list ProcessedComment) :
  result (process_loop udb svc comments []) = Returns out ->
  Forall (fun p => is_toxic p = detect_toxicity udb (translated_text p)) out.
Proof.
  destruct (process_loop_enriches udb svc comments []) as (out' & Hout & Hall).
  rewrite Hout; intros [= <-]; simpl.
  clear Hout; induction Hall as [|c p cs ps He _ IH]; constructor; [|exact IH].
  now destruct He as (_ & _ & _ & _ & Ht).
Qed.

(** X24.  The summary of what [process_comments] returns.  Its sentiment
    distribution has at most three entries, all among 'Positive', 'Negative'
    and 'Neutral', and the counts read for these three labels, with 0 for a
    missing one, add up to the total; the counts of the languages add up to
    the total as well; and the number of toxic comments is the number of
    records whose translated text [detect_toxicity] flags, at most the
    total. *)
Theorem summary_of_run (video_url : pystr) (max_comments : option Z) :
  match result (process_comments udb svc YOUTUBE_API_KEY youtube video_url
                  max_comments) with
  | Returns out =>
      let summary := get_analysis_summary out in
      let count label :=
        dict_get (sentiment_distribution summary) (py label) 0 in
      total_comments summary = List.length out /\
      incl (keys (sentiment_distribution summary)) three_labels /\
      (List.length (sentiment_distribution summary) <= 3)%nat /\
      (count "Positive"%string + count "Negative"%string
       + count "Neutral"%string = total_comments summary)%nat /\
      sum (values (language_distribution summary)) = total_comments summary /\
      toxic_comments_count summary
      = List.length
          (filter (fun p => detect_toxicity udb (translated_text p)) out) /\
      (toxic_comments_count summary <= total_comments summary)%nat
  | Raises _ => True
  end.
Proof.
  unfold process_comments; rewrite result_bind.
  destruct (result (fetched udb YOUTUBE_API_KEY youtube video_url
                      max_comments)) as [comments|e]; [|exact I].
  destruct (result (process_loop udb svc comments [])) as [out|e] eqn:R;
    [|exact I].
  pose proof (process_loop_labels udb svc comments out R) as Hl.
  pose proof (process_loop_flags comments out R) as Hf.
  assert (Hthree : Forall (fun s => In s three_labels) (map sentiment out)).
  { apply Forall_map, Forall_forall; intros p Hp.
    rewrite Forall_forall in Hl; rewrite (Hl p Hp); apply label_of_three. }
  cbv zeta; unfold get_analysis_summary;
    cbn [total_comments sentiment_distribution language_distribution
         toxic_comments_count].
  destruct (counter_spec (map sentiment out)) as (_ & Hk & Hn & _).
  destruct (counter_spec (map original_language out)) as (Hs & _).
  assert (Hincl : incl (keys (Counter (map sentiment out))) three_labels).
  { intros k Hin; apply Hk in Hin.
    rewrite Forall_forall in Hthree; now apply Hthree. }
  split; [reflexivity|]; split; [exact Hincl|]; split; [|split; [|split]].
  - change 3%nat with (List.length three_labels).
    rewrite <- (length_map fst (Counter (map sentiment out))).
    exact (NoDup_incl_length Hn Hincl).
  - rewrite !get_counter; apply three_label_counts in Hthree.
    now rewrite length_map in Hthree.
  - now rewrite Hs, length_map.
  - split; [|apply filter_length_le].
    f_equal; apply filter_ext_in; intros p Hp.
    rewrite Forall_forall in Hf; now apply Hf.
Qed.

End WithServices.
End RunSpec.
